(** * sphero_base: the Sphero serial protocol client

    A shallow embedding of [sphero_base/sphero.py]: the checksum, the
    sequence counter, the buffered reader of [Connection], the frame codec
    of [SpheroRaw], the heading-tracking commands of [Sphero] and the
    channel-cleaning handshake of [init_sphero].

    Python objects become records, methods become computations in a small
    state-and-exception monad over one [World], and the Bluetooth socket
    (which the module only uses through [socket.socket]) is a scripted
    peer: a queue of readable segments plus the replies each later write
    will trigger.  [send_get_version] and [send_read_locator], the two
    commands that decode a record with [make_response], are left out; the
    [make] argument of [recv_msg] is kept. *)

From Stdlib Require Import ZArith List Bool Lia.
From Stdlib Require Import Strings.String Strings.Ascii Strings.Byte.
From Stdlib Require Import Numbers.DecimalString.
From Equations Require Import Equations.
Import ListNotations.

Local Open Scope string_scope.
Local Open Scope list_scope.
Local Open Scope Z_scope.

(** ** Bytes *)

Definition bytes := list byte.

Definition Z_of_byte (b : byte) : Z := Z.of_N (Byte.to_N b).

(** One element of [bytes([...])]: an int outside [range(0, 256)] makes the
    constructor raise [ValueError]. *)
Definition byte_of_Z (z : Z) : option byte :=
  if z <? 0 then None else Byte.of_N (Z.to_N z).

Definition len {A} (l : list A) : Z := Z.of_nat (List.length l).

(** [b[:size]] and [b[size:]] with Python's reading of a negative bound. *)
Definition slice_to {A} (size : Z) (l : list A) : list A :=
  if size <? 0 then firstn (Z.to_nat (len l + size)) l
  else firstn (Z.to_nat size) l.

Definition slice_from {A} (size : Z) (l : list A) : list A :=
  if size <? 0 then skipn (Z.to_nat (len l + size)) l
  else skipn (Z.to_nat size) l.

(** ** Exceptions and the method monad *)

Inductive exn : Type :=
| RuntimeError (msg : string)
| ResponseError (msg : string)
| AttributeError (msg : string)
| TypeError (msg : string)
| ValueError (msg : string)
| StructError (msg : string)
| UnboundLocalError (msg : string)
| ZeroDivisionError (msg : string).

(** [str(e)] *)
Definition exn_msg (e : exn) : string :=
  match e with
  | RuntimeError m | ResponseError m | AttributeError m | TypeError m
  | ValueError m | StructError m | UnboundLocalError m
  | ZeroDivisionError m => m
  end.

Inductive result (A : Type) : Type :=
| Return (a : A)
| Raise (e : exn).
Arguments Return {A} a.
Arguments Raise {A} e.

Section Monad.
Context {S : Type}.

Definition M (A : Type) : Type := S -> result A * S.

Definition ret {A} (a : A) : M A := fun s => (Return a, s).
Definition raise {A} (e : exn) : M A := fun s => (Raise e, s).

Definition bind {A B} (m : M A) (k : A -> M B) : M B :=
  fun s =>
    match m s with
    | (Return a, s') => k a s'
    | (Raise e, s') => (Raise e, s')
    end.

Definition get : M S := fun s => (Return s, s).
Definition gets {A} (f : S -> A) : M A := fun s => (Return (f s), s).
Definition modify (f : S -> S) : M unit := fun s => (Return tt, f s).

(** [try: m  except <handles>: h e]; other exceptions pass through. *)
Definition try_except {A} (m : M A) (handles : exn -> bool)
           (h : exn -> M A) : M A :=
  fun s =>
    match m s with
    | (Return a, s') => (Return a, s')
    | (Raise e, s') => if handles e then h e s' else (Raise e, s')
    end.
End Monad.
Arguments M : clear implicits.

Declare Scope py_scope.
Delimit Scope py_scope with py.
Notation "x <- m ;; k" := (bind m (fun x => k))
  (at level 61, m at next level, right associativity) : py_scope.
Notation "m ;;; k" := (bind m (fun _ => k))
  (at level 61, right associativity) : py_scope.
Local Open Scope py_scope.

(** ** gen_checksum *)

Definition sum (l : list Z) : Z := fold_left Z.add l 0.

(** [~sum(msg_bytes) % 256] *)
Definition gen_checksum (msg_bytes : list Z) : Z :=
  Z.lnot (sum msg_bytes) mod 256.

(** ** BoundCounter *)

Record BoundCounter : Type := mkBoundCounter { n : Z; modulus : Z }.

Definition BoundCounter_init (start boundary : Z) : BoundCounter :=
  mkBoundCounter start boundary.

Definition BoundCounter_call (c : BoundCounter) : Z := n c.

(** [next]: [%] raises when the modulus is zero. *)
Definition BoundCounter_next : M BoundCounter Z :=
  fun c =>
    if modulus c =? 0
    then (Raise (ZeroDivisionError "integer modulo by zero"), c)
    else
      let n' := (n c + 1) mod modulus c in
      (Return n', mkBoundCounter n' (modulus c)).

(** ** The transport

    [socket.socket] is not part of the module, so the peer is scripted.
    [rx] holds the segments that can be read now, oldest first; a blocking
    or non-blocking [recv] hands out at most [bufsize] bytes of the first
    one.  An empty queue, or an empty segment at its head, reads as
    [b''], the end-of-stream signal: nothing is modelled as blocking for
    ever.  [script] lists, per later [send], the segments the peer answers
    with. *)

Record socket : Type := mkSocket {
  rx : list bytes;
  script : list (list bytes)
}.

Definition socket_send (data : bytes) (sk : socket) : Z * socket :=
  (len data, mkSocket (rx sk ++ hd [] (script sk)) (tl (script sk))).

Definition socket_recv (bufsize : Z) (sk : socket) : bytes * socket :=
  match rx sk with
  | [] => ([], sk)
  | [] :: _ => ([], sk)
  | seg :: rest =>
      if len seg <=? bufsize then (seg, mkSocket rest (script sk))
      else (slice_to bufsize seg,
            mkSocket (slice_from bufsize seg :: rest) (script sk))
  end.

(** What crossed the socket, for the properties that count writes and
    drains: every [send] and every [recv(1024, MSG_DONTWAIT)]. *)
Inductive event : Type :=
| EvSend (data : bytes)
| EvDrain (data : bytes).

Inductive level : Type := DEBUG | INFO | WARNING | ERROR.

(** ** Objects *)

Record Connection : Type := mkConnection {
  _socket : option socket;
  address : string;
  port : Z;
  _buffer : bytes
}.

(** A heading as Python sees it: [Sphero.__init__] stores a tuple where
    [roll] stores the caller's number. *)
Inductive pyval : Type :=
| PyInt (z : Z)
| PyTuple (items : list Z).

Record Sphero : Type := mkSphero {
  _conn : Connection;
  seq : BoundCounter;
  last_heading : pyval
}.

(** How one connection attempt of [connect] goes: [s.connect] succeeds,
    [s.connect] raises [OSError], or [socket.socket] itself raises
    [OSError], so that no socket is made in this attempt. *)
Inductive attempt : Type :=
| Accepted
| Refused
| NoSocket.

(** The session object together with what lies outside it: [dial] says
    how each coming connection attempt goes ([Refused] once the list is
    used up), [peer] is what an opened socket talks to,
    [wire] and [logged] record the traffic and the records given to [log]
    (level and message template; template arguments are not rendered). *)
Record World : Type := mkWorld {
  self : Sphero;
  dial : list attempt;
  peer : socket;
  wire : list event;
  logged : list (level * string)
}.

Definition set_self (f : Sphero -> Sphero) (w : World) : World :=
  mkWorld (f (self w)) (dial w) (peer w) (wire w) (logged w).

Definition set_conn (f : Connection -> Connection) : World -> World :=
  set_self (fun s => mkSphero (f (_conn s)) (seq s) (last_heading s)).

Definition set_socket (o : option socket) : World -> World :=
  set_conn (fun c => mkConnection o (address c) (port c) (_buffer c)).

Definition set_buffer (b : bytes) : World -> World :=
  set_conn (fun c => mkConnection (_socket c) (address c) (port c) b).

Definition set_seq (c : BoundCounter) : World -> World :=
  set_self (fun s => mkSphero (_conn s) c (last_heading s)).

Definition set_last_heading (h : pyval) : World -> World :=
  set_self (fun s => mkSphero (_conn s) (seq s) h).

Definition emit (e : event) (w : World) : World :=
  mkWorld (self w) (dial w) (peer w) (wire w ++ [e]) (logged w).

Definition log (lv : level) (msg : string) : M World unit :=
  modify (fun w =>
    mkWorld (self w) (dial w) (peer w) (wire w) (logged w ++ [(lv, msg)])).

Definition the_socket (w : World) : option socket := _socket (_conn (self w)).
Definition the_buffer (w : World) : bytes := _buffer (_conn (self w)).

(** ** Connection *)

Definition Connection_init (address : string) (port : Z) : Connection :=
  mkConnection None address port [].

(** The [try] block of one turn of [for _ in range(repeat)] in
    [connect]: [dial] decides how far it gets. *)
Definition dial_once : M World attempt :=
  fun w =>
    let w' := mkWorld (self w) (tl (dial w)) (peer w) (wire w) (logged w) in
    (Return (hd Refused (dial w)), w').

(** [s.close()] where the local [s] has not been assigned. *)
Definition unbound_s : exn :=
  UnboundLocalError "local variable 's' referenced before assignment".

(** The [for] loop of [connect].  [s_bound] says whether the local [s]
    has been assigned: the handler's [s.close()] closes the socket of
    this attempt, or the one left from an earlier attempt when
    [socket.socket] raised in this one, and raises when there is none. *)
Fixpoint connect_loop (repeat : nat) (s_bound : bool) : M World bool :=
  match repeat with
  | O => ret false
  | S repeat' =>
      outcome <- dial_once ;;
      match outcome with
      | Accepted =>
          s <- gets peer ;;
          modify (set_socket (Some s)) ;;;
          ret true
      | Refused =>
          log WARNING "OSError" ;;;
          connect_loop repeat' true
      | NoSocket =>
          log WARNING "OSError" ;;;
          if s_bound then connect_loop repeat' true else raise unbound_s
      end
  end.

Definition Connection_connect (repeat : Z) : M World bool :=
  connected <- connect_loop (Z.to_nat repeat) false ;;
  (if negb connected then
     log ERROR "Failed to connect after %d attempts." ;;;
     (* [s.close()]: [s] was never bound when the loop did not run *)
     if repeat <=? 0
     then raise unbound_s
     else ret tt
   else
     log INFO "Connected: %r" ;;;
     log DEBUG "socket timeout: %r") ;;;
  ret connected.

Definition Connection_disconnect : M World unit :=
  sk <- gets the_socket ;;
  match sk with
  | None => raise (RuntimeError "Not connected")
  | Some _ => modify (set_socket None)
  end.

(** [send(data)] with [flags=None], the only way the module calls it. *)
Definition Connection_send (data : bytes) : M World Z :=
  sk <- gets the_socket ;;
  match sk with
  | None => raise (RuntimeError "Not connected")
  | Some sk =>
      let (count, sk') := socket_send data sk in
      modify (fun w => emit (EvSend data) (set_socket (Some sk') w)) ;;;
      ret count
  end.

Definition no_recv_on_None : exn :=
  AttributeError "'NoneType' object has no attribute 'recv'".

(** [Connection] defines no [error] method, so the call
    [self.error('Connection closed')] in [read] raises this, and the
    [return] after it is never reached. *)
Definition no_error_attribute : exn :=
  AttributeError "'Connection' object has no attribute 'error'".

(** The [while to_read > 0] loop of [read]. *)
Equations? read_loop (to_read : Z) (w : World) : result unit * World
  by wf (Z.to_nat to_read) lt :=
  read_loop to_read w with Z_gt_dec to_read 0 => {
    | right _ => (Return tt, w)
    | left _ with the_socket w => {
        | None => (Raise no_recv_on_None, w)
        | Some sk with socket_recv to_read sk => {
            | ([], sk') => (Raise no_error_attribute, set_socket (Some sk') w)
            | (b :: data, sk') =>
                read_loop (to_read - len (b :: data))
                  (set_buffer (the_buffer w ++ b :: data)
                     (set_socket (Some sk') w)) } } }.
Proof. unfold len. simpl List.length. lia. Qed.

Definition Connection_read (size : Z) : M World bytes :=
  blen <- gets (fun w => len (the_buffer w)) ;;
  let to_read := size - blen in
  read_loop to_read ;;;
  buf <- gets the_buffer ;;
  modify (set_buffer (slice_from size buf)) ;;;
  ret (slice_to size buf).

Definition Connection_flush : M World unit :=
  try_except
    (sk <- gets the_socket ;;
     match sk with
     | None => raise no_recv_on_None
     | Some sk =>
         let (data, sk') := socket_recv 1024 sk in
         modify (fun w => emit (EvDrain data) (set_socket (Some sk') w)) ;;;
         log WARNING "flushed input (%r)"
     end)
    (fun _ => true)
    (fun e => log ERROR (exn_msg e)).

(** ** Helpers standing for [bytes([...])], [struct.pack] and [%]-formatting *)

Definition out_of_range : exn := ValueError "bytes must be in range(0, 256)".

Fixpoint bytes_of_ints (l : list Z) : option bytes :=
  match l with
  | [] => Some []
  | z :: l' =>
      match byte_of_Z z, bytes_of_ints l' with
      | Some b, Some bs => Some (b :: bs)
      | _, _ => None
      end
  end.

(** [bytes([z1, ..., zk])] *)
Definition mk_bytes {S} (l : list Z) : M S bytes :=
  match bytes_of_ints l with
  | Some bs => ret bs
  | None => raise out_of_range
  end.

(** Format [B] of [struct.pack]. *)
Definition pack_B {S} (z : Z) : M S bytes :=
  match byte_of_Z z with
  | Some b => ret [b]
  | None => raise (StructError "ubyte format requires 0 <= number <= 255")
  end.

(** Format [!H] of [struct.pack]: big-endian unsigned 16 bits. *)
Definition pack_H {S} (z : Z) : M S bytes :=
  if (0 <=? z) && (z <=? 0xffff) then
    match byte_of_Z (z / 256), byte_of_Z (z mod 256) with
    | Some hi, Some lo => ret [hi; lo]
    | _, _ => raise (StructError "'H' format requires 0 <= number <= 65535")
    end
  else raise (StructError "'H' format requires 0 <= number <= 65535").

Definition tuple_mod_int : exn :=
  TypeError "unsupported operand type(s) for %: 'tuple' and 'int'".

(** [v % m] for an int [m]. *)
Definition py_mod {S} (v : pyval) (m : Z) : M S Z :=
  match v with
  | PyInt z => ret (z mod m)
  | PyTuple _ => raise tuple_mod_int
  end.

Definition hex_digit (d : Z) : string :=
  String.substring (Z.to_nat d) 1 "0123456789abcdef".

(** ['%02x' % b] for an element of a [bytes] object. *)
Definition fmt_02x (b : byte) : string :=
  (hex_digit (Z_of_byte b / 16) ++ hex_digit (Z_of_byte b mod 16))%string.

(** ['%d' % z] *)
Definition fmt_d (z : Z) : string := NilZero.string_of_int (Z.to_int z).

(** ** SpheroRaw *)

Definition DID_CORE : Z := 0x00.
Definition DID_SPHERO : Z := 0x02.

Definition CMD_PING : Z := 0x01.
Definition CMD_VERSIONING : Z := 0x02.
Definition CMD_SLEEP : Z := 0x22.

Definition CMD_SET_HEADING : Z := 0x01.
Definition CMD_SET_STABILIZATION : Z := 0x02.
Definition CMD_READ_LOCATOR : Z := 0x15.
Definition CMD_SET_RGB : Z := 0x20.
Definition CMD_SET_BACKLIGHT : Z := 0x21.
Definition CMD_ROLL : Z := 0x30.
Definition CMD_RAW_MOTOR : Z := 0x33.

Definition connect_retries : Z := 10.

Definition SpheroRaw_connect : M World bool :=
  Connection_connect connect_retries.

Definition SpheroRaw_disconnect : M World unit := Connection_disconnect.

(** [self.seq.next()] *)
Definition seq_next : M World Z :=
  fun w =>
    let (r, c) := BoundCounter_next (seq (self w)) in
    (r, set_seq c w).

(** [send_msg(did, cid, data=None, answer=False, reset=True, seq=None)];
    [None] for [data] and [seq] is [None]. *)
Definition SpheroRaw_send_msg (did cid : Z) (data : option bytes)
           (answer reset : bool) (seq : option Z) : M World unit :=
  let sop1 := 0xff in
  let sop2 := 0xfc in
  let sop2 := if reset then Z.lor sop2 0x02 else sop2 in
  let sop2 := if answer then Z.lor sop2 0x01 else sop2 in
  seq <- (if answer then
            match seq with
            | None => v <- seq_next ;; ret (Some v)
            | Some _ => ret seq
            end
          else ret seq) ;;
  let seq := match seq with None => 0x00 | Some v => v end in
  let data := match data with None => [] | Some d => d end in
  let dlen := len data + 1 in
  let chk := gen_checksum (did :: cid :: seq :: dlen :: map Z_of_byte data) in
  head <- mk_bytes [sop1; sop2; did; cid; seq; dlen] ;;
  trailer <- mk_bytes [chk] ;;
  Connection_send (head ++ data ++ trailer) ;;;
  ret tt.

Definition invalid_sop (sop1 sop2 : byte) : exn :=
  ResponseError
    ("Invalid SOP: 0x" ++ fmt_02x sop1 ++ ", 0x" ++ fmt_02x sop2)%string.

Definition invalid_body_length (dlen : Z) : exn :=
  ResponseError ("Invalid body length: " ++ fmt_d dlen)%string.

Definition invalid_checksum : exn := ResponseError "Invalid checksum".

(** The tuple [recv_msg] returns:
    [(sop2, b3, b4, b5, chk, content, body[-1])], with [content] left as
    bytes or turned into a record by [make]. *)
Definition response (A : Type) : Type :=
  (Z * Z * Z * Z * Z * (bytes + A) * Z)%type.

(** [recv_msg(make=None)].  [make] is always built by [make_response], so
    it either yields a record or fails inside [struct.unpack]; the result
    [None] is Python's [None]. *)
Definition SpheroRaw_recv_msg {A} (make : option (bytes -> option A))
  : M World (option (response A)) :=
  data <- Connection_read 5 ;;
  match data with
  | [] =>
      log WARNING "Disconnected" ;;;
      Connection_disconnect ;;;
      ret None
  | [c1; c2; c3; c4; c5] =>
      let sop1 := Z_of_byte c1 in
      let sop2 := Z_of_byte c2 in
      let b3 := Z_of_byte c3 in
      let b4 := Z_of_byte c4 in
      let b5 := Z_of_byte c5 in
      if negb (sop1 =? 0xff) || negb (Z.land sop2 0xfe =? 0xfe) then
        raise (invalid_sop c1 c2)
      else
        let dlen := b5 in
        let dlen := if sop2 =? 0xfe then Z.lor dlen (Z.shiftl b4 8)
                    else dlen in
        (* at least 1 byte is expected (the checksum) *)
        if dlen <? 1 then raise (invalid_body_length dlen)
        else
          body <- Connection_read dlen ;;
          match body with
          | [] =>
              log WARNING "Disconnected (reading body)" ;;;
              Connection_disconnect ;;;
              ret None
          | _ =>
              let content := slice_to (-1) body in
              let chk :=
                gen_checksum (b3 :: b4 :: b5 :: map Z_of_byte content) in
              let trailing := Z_of_byte (last body x00) in
              if chk =? trailing then
                content <- match make with
                           | None => ret (inl content)
                           | Some f =>
                               match f content with
                               | Some v => ret (inr v)
                               | None =>
                                   raise (StructError "unpack requires a buffer of the right size")
                               end
                           end ;;
                ret (Some (sop2, b3, b4, b5, chk, content, trailing))
              else
                log WARNING "Message checksum incorrect: %r" ;;;
                raise invalid_checksum
          end
  | _ => raise (ValueError "wrong number of values to unpack")
  end.

Definition SpheroRaw_send_ping : M World (option (response Empty_set)) :=
  SpheroRaw_send_msg DID_CORE CMD_PING None true true None ;;;
  SpheroRaw_recv_msg None.

Definition SpheroRaw_send_sleep : M World unit :=
  let data := repeat x00 5 in
  SpheroRaw_send_msg DID_CORE CMD_SLEEP (Some data) false true None.

Definition SpheroRaw_send_set_heading (heading : pyval) : M World unit :=
  h <- py_mod heading 360 ;;
  data <- pack_H h ;;
  SpheroRaw_send_msg DID_SPHERO CMD_SET_HEADING (Some data) false true None.

Definition SpheroRaw_send_set_stabilization (enable : bool) : M World unit :=
  data <- mk_bytes [if enable then 0x01 else 0x00] ;;
  SpheroRaw_send_msg DID_SPHERO CMD_SET_STABILIZATION (Some data)
                     false true None.

Definition SpheroRaw_send_set_rgb (r g b : Z) (save : bool) : M World unit :=
  data <- mk_bytes [r; g; b; if save then 0x01 else 0x00] ;;
  SpheroRaw_send_msg DID_SPHERO CMD_SET_RGB (Some data) false true None.

Definition SpheroRaw_send_set_backlight (value : Z) : M World unit :=
  data <- mk_bytes [value] ;;
  SpheroRaw_send_msg DID_SPHERO CMD_SET_BACKLIGHT (Some data) false true None.

(** [struct.pack('!BHB', speed, heading % 360, state)]: the arguments are
    evaluated first, then packed field by field. *)
Definition SpheroRaw_send_roll (speed : Z) (heading : pyval) (state : Z)
  : M World unit :=
  h <- py_mod heading 360 ;;
  f1 <- pack_B speed ;;
  f2 <- pack_H h ;;
  f3 <- pack_B state ;;
  let data := f1 ++ f2 ++ f3 in
  SpheroRaw_send_msg DID_SPHERO CMD_ROLL (Some data) false true None.

Definition SpheroRaw_send_raw_motor
           (left_mode left_power right_mode right_power : Z) : M World unit :=
  data <- mk_bytes [left_mode; left_power; right_mode; right_power] ;;
  SpheroRaw_send_msg DID_SPHERO CMD_RAW_MOTOR (Some data) false true None.

(** ** Sphero *)

(** [Sphero(address)]: [SpheroRaw.__init__] with [port=1] makes the
    connection and the counter, then [last_heading = (0, 0, 0)]. *)
Definition Sphero_init (address : string) : Sphero :=
  mkSphero (Connection_init address 1) (BoundCounter_init 0 0x0100)
           (PyTuple [0; 0; 0]).

Definition Sphero_roll (speed : Z) (heading : pyval) (state : Z)
  : M World unit :=
  modify (set_last_heading heading) ;;;
  SpheroRaw_send_roll speed heading state.

Definition Sphero_off : M World unit :=
  h <- gets (fun w => last_heading (self w)) ;;
  Sphero_roll 0 h 0.

Definition Sphero_stop : M World unit :=
  Sphero_roll 0 (PyInt 0) 0.

Definition Sphero_ping := SpheroRaw_send_ping.
Definition Sphero_set_rgb := SpheroRaw_send_set_rgb.
Definition Sphero_set_backlight := SpheroRaw_send_set_backlight.

(** ** init_sphero *)

(** The [except ResponseError as e] clause of the cleaning loop. *)
Definition on_response_error (msg : string) : M World unit :=
  log ERROR msg ;;;
  Connection_flush.

(** The [while retries > 0] loop of [init_sphero]; the result is
    [ping_clean] as the loop leaves it. *)
Equations? clean_loop (retries : Z) (ping_clean : bool) (w : World)
  : result bool * World by wf (Z.to_nat retries) lt :=
  clean_loop retries ping_clean w with Z_gt_dec retries 0 => {
    | right _ => (Return ping_clean, w)
    | left _ with SpheroRaw_send_ping w => {
        | (Return _, w1) =>
            clean_loop (if retries - 1 >? 1 then 1 else retries - 1) true w1
        | (Raise (ResponseError msg), w1) with on_response_error msg w1 => {
            | (Return _, w2) => clean_loop (retries - 1) ping_clean w2
            | (Raise e, w2) => (Raise e, w2) }
        | (Raise e, w1) => (Raise e, w1) } }.
Proof.
  - rewrite Z.gtb_ltb. destruct (Z.ltb_spec 1 (retries - 1)); lia.
  - lia.
Qed.

Definition init_sphero (addr : string) : M World Sphero :=
  modify (set_self (fun _ => Sphero_init addr)) ;;;
  connected <- SpheroRaw_connect ;;
  if negb connected then raise (RuntimeError "Could not establish connection")
  else
    ping_clean <- clean_loop 5 false ;;
    (if negb ping_clean then log ERROR "Failed to clean the receive channel"
     else log DEBUG "Receive channel clean") ;;;
    gets self.

(** ** Worlds and frames the properties are stated on *)

Definition idle_socket : socket := mkSocket [] [].

(** A session as [Sphero(address)] builds it, already connected to [sk],
    with nothing sent or logged yet. *)
Definition bench (sk : socket) : World :=
  mkWorld (mkSphero (mkConnection (Some sk) "68:86:E7:00:00:01" 1 [])
                    (BoundCounter_init 0 0x0100) (PyTuple [0; 0; 0]))
          [] sk [] [].

(** The set-RGB frame for red, up to its second start byte and checksum. *)
Definition scenario_A_frame (sop2 chk : byte) : bytes :=
  [xff; sop2; x02; x20; x00; x05; xff; x00; x00; x00; chk].

(** A roll frame as [send_roll] writes it: device 0x02, command 0x30,
    sequence 0, length 5, then speed, heading (high, low), state,
    checksum. *)
Definition roll_frame (speed hi lo state chk : byte) : bytes :=
  [xff; xfe; x02; x30; x00; x05; speed; hi; lo; state; chk].

(** The bytes a socket still hands out before it reports the end of the
    stream: its segments up to the first empty one. *)
Fixpoint pending (segments : list bytes) : bytes :=
  match segments with
  | [] => []
  | [] :: _ => []
  | seg :: rest => seg ++ pending rest
  end.

(** A session that can take part in the handshake: the socket is open and
    the counter wraps at 256, as [Sphero(address)] followed by a successful
    [connect] leaves it. *)
Definition live (w : World) : Prop :=
  the_socket w <> None /\ modulus (seq (self w)) = 0x0100.

(** The steps of [recv_msg] after the header is read, named so that the
    properties can speak of them one at a time: the body length, the
    handling of the body, and both after the framing check. *)
Definition body_length (c2 c4 c5 : byte) : Z :=
  let dlen := Z_of_byte c5 in
  if Z_of_byte c2 =? 0xfe then Z.lor dlen (Z.shiftl (Z_of_byte c4) 8)
  else dlen.

Definition check_body {A} (make : option (bytes -> option A))
           (c2 c3 c4 c5 : byte) (body : bytes)
  : M World (option (response A)) :=
  match body with
  | [] =>
      log WARNING "Disconnected (reading body)" ;;;
      Connection_disconnect ;;;
      ret None
  | _ =>
      let content := slice_to (-1) body in
      let chk :=
        gen_checksum (Z_of_byte c3 :: Z_of_byte c4 :: Z_of_byte c5
                        :: map Z_of_byte content) in
      let trailing := Z_of_byte (last body x00) in
      if chk =? trailing then
        content <- match make with
                   | None => ret (inl content)
                   | Some f =>
                       match f content with
                       | Some v => ret (inr v)
                       | None =>
                           raise (StructError "unpack requires a buffer of the right size")
                       end
                   end ;;
        ret (Some (Z_of_byte c2, Z_of_byte c3, Z_of_byte c4, Z_of_byte c5,
                   chk, content, trailing))
      else
        log WARNING "Message checksum incorrect: %r" ;;;
        raise invalid_checksum
  end.

Definition after_header {A} (make : option (bytes -> option A))
           (c1 c2 c3 c4 c5 : byte) : M World (option (response A)) :=
  if negb (Z_of_byte c1 =? 0xff) || negb (Z.land (Z_of_byte c2) 0xfe =? 0xfe)
  then raise (invalid_sop c1 c2)
  else if body_length c2 c4 c5 <? 1
       then raise (invalid_body_length (body_length c2 c4 c5))
       else body <- Connection_read (body_length c2 c4 c5) ;;
            check_body make c2 c3 c4 c5 body.

(** Is this the exception of the framing check? *)
Definition is_sop_error (e : exn) : bool :=
  match e with
  | ResponseError m => String.prefix "Invalid SOP" m
  | _ => false
  end.

(** Sockets holding one reply each, for the decoding examples: a header
    whose second start byte is 0x03, and a well-formed reply whose second
    start byte is 0xFE. *)
Definition reply_sop2_03 : socket :=
  mkSocket [[xff; x03; x00; x01; x01; xfd]] [].

Definition reply_sop2_fe : socket :=
  mkSocket [[xff; xfe; x00; x00; x01; xfe]] [].

(** A ping reply FF FF 00 01 01 with a trailing byte that is not its
    checksum FD. *)
Definition reply_bad_checksum : socket :=
  mkSocket [[xff; xff; x00; x01; x01; x00]] [].

(** What one ping may end in on a live session: a result, a
    [ResponseError], or the exception of [read] at a closed socket. *)
Definition ping_outcome {A} (r : result A) : Prop :=
  match r with
  | Return _ => True
  | Raise e => e = no_error_attribute \/ exists msg, e = ResponseError msg
  end.

(** Peers for the handshake examples: one that answers every ping with a
    reply whose checksum is wrong, and one that has hung up. *)
Definition always_corrupt : socket :=
  mkSocket [] (repeat [[xff; xff; x00; x01; x01; x00]] 5).

Definition hung_up : socket := mkSocket [] [].

(** The runs of the cleaning loop of [init_sphero] in which no ping
    attempt ends in anything but a [ResponseError]: started in [w] with
    [retries] attempts left, every [send_ping] of the run returns or raises
    a [ResponseError], which the loop's handler takes up. *)
Inductive only_response_errors : Z -> World -> Prop :=
| no_attempt_left retries w :
    retries <= 0 ->
    only_response_errors retries w
| ping_answered retries w r w1 :
    0 < retries ->
    SpheroRaw_send_ping w = (Return r, w1) ->
    only_response_errors (if retries - 1 >? 1 then 1 else retries - 1) w1 ->
    only_response_errors retries w
| ping_refused retries w msg w1 :
    0 < retries ->
    SpheroRaw_send_ping w = (Raise (ResponseError msg), w1) ->
    only_response_errors (retries - 1) (snd (on_response_error msg w1)) ->
    only_response_errors retries w.

(** The world [init_sphero] starts from when the first connection attempt
    succeeds and reaches [sk]; nothing is sent or logged yet. *)
Definition reachable (sk : socket) : World :=
  mkWorld (Sphero_init "") [Accepted] sk [] [].

Definition payload (data : option bytes) : bytes :=
  match data with None => [] | Some d => d end.

(** The second half of [send_msg], from [if seq is None: seq = 0x00] on,
    named so that it can be reasoned about once for every way the first
    half ends. *)
Definition write_frame (sop2 did cid : Z) (data : option bytes)
           (seq : option Z) : M World unit :=
  let seq := match seq with None => 0x00 | Some v => v end in
  let data := match data with None => [] | Some d => d end in
  let dlen := len data + 1 in
  let chk := gen_checksum (did :: cid :: seq :: dlen :: map Z_of_byte data) in
  head <- mk_bytes [0xff; sop2; did; cid; seq; dlen] ;;
  trailer <- mk_bytes [chk] ;;
  Connection_send (head ++ data ++ trailer) ;;;
  ret tt.

Definition start_flags (answer reset : bool) : Z :=
  let sop2 := 0xfc in
  let sop2 := if reset then Z.lor sop2 0x02 else sop2 in
  if answer then Z.lor sop2 0x01 else sop2.

(** The trailing byte of a well-formed frame over the given header and
    content values. *)
Definition checksum_byte (l : list Z) : byte :=
  match byte_of_Z (gen_checksum l) with
  | Some b => b
  | None => x00
  end.

(** A reply to a ping as the device frames it: FF FF, two header bytes,
    length 1, no content, checksum. *)
Definition ping_reply (b3 b4 : byte) : bytes :=
  [xff; xff; b3; b4; x01;
   checksum_byte [Z_of_byte b3; Z_of_byte b4; 0x01]].

(** The ping frame [send_ping] writes with sequence number [seq]. *)
Definition ping_frame (seq chk : byte) : bytes :=
  [xff; xff; x00; x01; seq; x01; chk].

Definition sends (l : list event) : nat :=
  List.length
    (filter (fun e => match e with EvSend _ => true | EvDrain _ => false end)
            l).

Definition drains (l : list event) : nat :=
  List.length
    (filter (fun e => match e with EvSend _ => false | EvDrain _ => true end)
            l).

(** A peer whose first ping reply carries a wrong checksum and whose next
    two are well-formed. *)
Definition corrupt_then_valid : socket :=
  mkSocket [] [[[xff; xff; x00; x01; x01; x00]];
               [ping_reply x00 x02];
               [ping_reply x00 x03]].

(** ** Further worlds and helpers for the properties *)


(** Did one of the connection attempts in [outcomes] succeed? *)
Definition some_success (outcomes : list attempt) : bool :=
  existsb (fun a => match a with Accepted => true | _ => false end)
          outcomes.

(** ** The query commands and their records *)

Record Version : Type := mkVersion {
  recv : Z; mdl : Z; hw : Z; msa_ver : Z; msa_rev : Z;
  bl : Z; bas : Z; macro : Z; api_maj : Z; api_min : Z
}.

Record Location : Type := mkLocation {
  x : Z; y : Z; vel_x : Z; vel_y : Z; sog : Z
}.

(** Formats [H] and [h] of [struct.unpack] with [!]: two bytes, high
    first, read as an unsigned or as a two's complement number. *)
Definition unpack_H (hi lo : byte) : Z := 256 * Z_of_byte hi + Z_of_byte lo.

Definition unpack_h (hi lo : byte) : Z :=
  let u := unpack_H hi lo in
  if u <? 0x8000 then u else u - 0x10000.

(** [make_response('!10B', Version)]: [struct.unpack] wants exactly ten
    bytes; [None] stands for its [struct.error]. *)
Definition make_Version (data : bytes) : option Version :=
  match data with
  | [b0; b1; b2; b3; b4; b5; b6; b7; b8; b9] =>
      Some (mkVersion (Z_of_byte b0) (Z_of_byte b1) (Z_of_byte b2)
                      (Z_of_byte b3) (Z_of_byte b4) (Z_of_byte b5)
                      (Z_of_byte b6) (Z_of_byte b7) (Z_of_byte b8)
                      (Z_of_byte b9))
  | _ => None
  end.

(** [make_response('!hhhhH', Location)]: ten bytes again. *)
Definition make_Location (data : bytes) : option Location :=
  match data with
  | [x1; x0; y1; y0; vx1; vx0; vy1; vy0; s1; s0] =>
      Some (mkLocation (unpack_h x1 x0) (unpack_h y1 y0) (unpack_h vx1 vx0)
                       (unpack_h vy1 vy0) (unpack_H s1 s0))
  | _ => None
  end.

Definition SpheroRaw_send_get_version : M World (option (response Version)) :=
  SpheroRaw_send_msg DID_CORE CMD_VERSIONING None true true None ;;;
  SpheroRaw_recv_msg (Some make_Version).

Definition SpheroRaw_send_read_locator
  : M World (option (response Location)) :=
  SpheroRaw_send_msg DID_SPHERO CMD_READ_LOCATOR None true true None ;;;
  SpheroRaw_recv_msg (Some make_Location).

(** ** scripts/test.py: SpheroPlus

    [time.sleep] changes nothing the session can observe and is left
    out. *)

Definition rainbow_colors : list (Z * Z * Z) :=
  [(255, 0, 0); (255, 165, 0); (255, 255, 0); (0, 128, 0); (0, 0, 255);
   (75, 0, 130); (238, 130, 238)].

(** [colors * repeat]: no copy at all for a count of zero or less. *)
Definition list_times {A} (l : list A) (count : Z) : list A :=
  List.concat (repeat l (Z.to_nat count)).

(** The loop [for c in cs] that calls [set_rgb] with the three channels
    of [c]. *)
Fixpoint set_rgb_each (cs : list (Z * Z * Z)) : M World unit :=
  match cs with
  | [] => ret tt
  | (r, g, b) :: cs' => Sphero_set_rgb r g b false ;;; set_rgb_each cs'
  end.

Definition SpheroPlus_rainbow (repeat : Z) : M World unit :=
  set_rgb_each (list_times rainbow_colors repeat) ;;;
  Sphero_set_rgb 0 0 0 false.

(** [jump(speed=70, left=255, right=253, d1=0.1, d2=0.2)] *)
Definition SpheroPlus_jump (speed left right : Z) : M World unit :=
  Sphero_roll speed (PyInt 0) 1 ;;;
  SpheroRaw_send_raw_motor 1 left 1 right ;;;
  SpheroRaw_send_set_stabilization true ;;;
  Sphero_stop.

(** The byte values of the frame that sets the LED to a colour without
    saving it: start bytes, device 0x02, command 0x20, sequence 0,
    length 5, the three channels, the save flag, the checksum. *)
Definition colour_frame (c : Z * Z * Z) : list Z :=
  let '(r, g, b) := c in
  [0xff; 0xfe; 0x02; 0x20; 0x00; 0x05; r; g; b; 0x00;
   gen_checksum [0x02; 0x20; 0x00; 0x05; r; g; b; 0x00]].

(** A device that answers the next command with a version reply cut in
    two segments, and one that answers with a locator reply. *)
Definition version_content : bytes :=
  [x01; x02; x03; x04; x05; x06; x07; x08; x09; x0a].

Definition version_socket : socket :=
  mkSocket [] [[[xff; xff; x00; x01; x0b; x01; x02];
                [x03; x04; x05; x06; x07; x08; x09; x0a; xbc]]].

Definition locator_content : bytes :=
  [xff; xfe; x00; x05; x80; x00; x7f; xff; x01; x00].

Definition locator_socket : socket :=
  mkSocket [] [[[xff; xff; x00; x01; x0b] ++ locator_content ++ [xf2]]].

(** A peer whose ping replies are all well-formed. *)
Definition well_behaved : socket :=
  mkSocket [] [[ping_reply x00 x01]; [ping_reply x00 x02]].

(** * Properties *)

(** ** The checksum *)

Lemma gen_checksum_value (msg_bytes : list Z) :
  gen_checksum msg_bytes = 255 - (sum msg_bytes mod 256).
Proof.
  unfold gen_checksum.
  assert (E : Z.lnot (sum msg_bytes) = 255 - sum msg_bytes + (-1) * 256)
    by (unfold Z.lnot; lia).
  rewrite E, Z.mod_add by lia.
  pose proof (Z.mod_pos_bound (sum msg_bytes) 256 ltac:(lia)) as B.
  rewrite (Z.div_mod (sum msg_bytes) 256) at 1 by lia.
  replace (255 - (256 * (sum msg_bytes / 256) + sum msg_bytes mod 256))
    with (255 - sum msg_bytes mod 256 + (- (sum msg_bytes / 256)) * 256)
    by lia.
  rewrite Z.mod_add by lia. apply Z.mod_small. lia.
Qed.

Lemma gen_checksum_range (msg_bytes : list Z) :
  0 <= gen_checksum msg_bytes <= 255.
Proof.
  rewrite gen_checksum_value.
  pose proof (Z.mod_pos_bound (sum msg_bytes) 256 ltac:(lia)). lia.
Qed.

(** C6.  For every sequence of integers, and so for every sequence of byte
    values, [gen_checksum] is 255 minus the sum modulo 256, and that number
    fits an unsigned byte.  The function is total and touches no state. *)
Theorem gen_checksum_ones_complement :
  forall msg_bytes : list Z,
    gen_checksum msg_bytes = 255 - (sum msg_bytes mod 256)
    /\ 0 <= gen_checksum msg_bytes <= 255.
Proof.
  intros l. split; [apply gen_checksum_value | apply gen_checksum_range].
Qed.

(** ** Bytes and integers *)

Lemma Z_of_byte_range b : 0 <= Z_of_byte b <= 255.
Proof.
  unfold Z_of_byte. pose proof (Byte.to_N_bounded b). lia.
Qed.

Lemma byte_of_Z_inv z b : byte_of_Z z = Some b -> Z_of_byte b = z.
Proof.
  unfold byte_of_Z, Z_of_byte.
  destruct (Z.ltb_spec z 0); [discriminate|].
  intros E. apply Byte.to_of_N in E. rewrite E. lia.
Qed.

Lemma byte_of_Z_of_byte b : byte_of_Z (Z_of_byte b) = Some b.
Proof.
  unfold byte_of_Z, Z_of_byte.
  destruct (Z.ltb_spec (Z.of_N (Byte.to_N b)) 0); [lia|].
  rewrite N2Z.id. apply Byte.of_to_N.
Qed.

Lemma byte_of_Z_some z : 0 <= z <= 255 -> exists b, byte_of_Z z = Some b.
Proof.
  intros Hz. unfold byte_of_Z.
  destruct (Z.ltb_spec z 0); [lia|].
  destruct (Byte.of_N (Z.to_N z)) eqn:E; [eauto|].
  apply Byte.of_N_None_iff in E. lia.
Qed.

Lemma byte_of_Z_out z : z < 0 \/ 255 < z -> byte_of_Z z = None.
Proof.
  intros H. unfold byte_of_Z.
  destruct (Z.ltb_spec z 0); [reflexivity|].
  apply Byte.of_N_None_iff. lia.
Qed.

Lemma byte_of_Z_in z :
  0 <= z <= 255 -> exists b, byte_of_Z z = Some b /\ Z_of_byte b = z.
Proof.
  intros H. destruct (byte_of_Z_some z H) as [b E].
  exists b. split; [exact E | apply byte_of_Z_inv; exact E].
Qed.


(** ** Writing to the socket *)

Lemma Connection_send_connected w sk data :
  the_socket w = Some sk ->
  Connection_send data w
  = (Return (len data),
     emit (EvSend data) (set_socket (Some (snd (socket_send data sk))) w)).
Proof.
  intros H. unfold Connection_send, bind, gets. rewrite H. reflexivity.
Qed.

Lemma Connection_send_unconnected w data :
  the_socket w = None ->
  Connection_send data w = (Raise (RuntimeError "Not connected"), w).
Proof.
  intros H. unfold Connection_send, bind, gets. rewrite H. reflexivity.
Qed.

(** Whatever [Connection.send] does, it adds at most the one frame to
    the traffic. *)
Lemma Connection_send_wire w data :
  match fst (Connection_send data w) with
  | Return _ => wire (snd (Connection_send data w)) = wire w ++ [EvSend data]
  | Raise _ => wire (snd (Connection_send data w)) = wire w
  end.
Proof.
  destruct (the_socket w) as [sk|] eqn:H.
  - rewrite (Connection_send_connected _ _ _ H). reflexivity.
  - rewrite (Connection_send_unconnected _ _ H). reflexivity.
Qed.

Lemma send_msg_unfold did cid data answer reset seq :
  SpheroRaw_send_msg did cid data answer reset seq
  = (seq <- (if answer then
               match seq with
               | None => v <- seq_next ;; ret (Some v)
               | Some _ => ret seq
               end
             else ret seq) ;;
     write_frame (start_flags answer reset) did cid data seq).
Proof. reflexivity. Qed.

Lemma bytes_of_ints_inv l :
  forall bs, bytes_of_ints l = Some bs -> map Z_of_byte bs = l.
Proof.
  induction l as [|z l IH]; simpl; intros bs E.
  - inversion E. reflexivity.
  - destruct (byte_of_Z z) as [b|] eqn:Eb; [|discriminate].
    destruct (bytes_of_ints l) as [bs'|]; [|discriminate].
    inversion E; subst. simpl.
    rewrite (byte_of_Z_inv _ _ Eb), (IH bs' eq_refl). reflexivity.
Qed.

Lemma bytes_of_ints_some l :
  Forall (fun z => 0 <= z <= 255) l ->
  exists bs, bytes_of_ints l = Some bs /\ map Z_of_byte bs = l.
Proof.
  induction 1 as [|z l Hz _ IH].
  - exists []. split; reflexivity.
  - destruct IH as (bs & E & M).
    destruct (byte_of_Z_in z Hz) as (b & Eb & Zb).
    exists (b :: bs). cbn. rewrite Eb, E, Zb, M. split; reflexivity.
Qed.

Lemma start_flags_range answer reset : 0 <= start_flags answer reset <= 255.
Proof. destruct answer, reset; cbn; lia. Qed.

Lemma write_frame_returns sop2 did cid data seq w sk :
  the_socket w = Some sk ->
  0 <= sop2 <= 255 ->
  0 <= did <= 255 ->
  0 <= cid <= 255 ->
  0 <= match seq with None => 0x00 | Some v => v end <= 255 ->
  len (payload data) <= 254 ->
  fst (write_frame sop2 did cid data seq w) = Return tt.
Proof.
  intros Hs H2 Hd Hc Hq Hl.
  assert (Hn : 0 <= len (payload data)).
  { unfold len. lia. }
  destruct (bytes_of_ints_some
              [0xff; sop2; did; cid;
               match seq with None => 0x00 | Some v => v end;
               len (payload data) + 1]) as (head & Eh & _).
  { repeat constructor; lia. }
  destruct (byte_of_Z_some
              (gen_checksum
                 (did :: cid :: match seq with None => 0x00 | Some v => v end
                      :: len (payload data) + 1
                      :: map Z_of_byte (payload data))))
    as [k Ek]; [apply gen_checksum_range|].
  unfold write_frame. cbv zeta. fold (payload data).
  unfold bind, mk_bytes. rewrite Eh. cbn [bytes_of_ints ret].
  rewrite Ek. cbn [ret]. unfold Connection_send, bind, gets.
  rewrite Hs. reflexivity.
Qed.

Lemma write_frame_wire sop2 did cid data seq w :
  match fst (write_frame sop2 did cid data seq w) with
  | Return _ =>
      exists frame : bytes,
        wire (snd (write_frame sop2 did cid data seq w))
        = wire w ++ [EvSend frame]
        /\ option_map Z_of_byte (nth_error frame 5)
           = Some (len (payload data) + 1)
  | Raise _ => wire (snd (write_frame sop2 did cid data seq w)) = wire w
  end.
Proof.
  unfold write_frame. cbv zeta. fold (payload data).
  set (sq0 := match seq with None => 0x00 | Some v0 => v0 end).
  unfold bind, mk_bytes.
  destruct (bytes_of_ints [0xff; sop2; did; cid; sq0; len (payload data) + 1])
    as [head|] eqn:Eh; [|reflexivity].
  destruct (bytes_of_ints [gen_checksum _]) as [trailer|]; [|reflexivity].
  cbn [ret raise fst snd].
  match goal with |- context [Connection_send ?f w] =>
    pose proof (Connection_send_wire w f) as Hs;
    destruct (Connection_send f w) as [[r|e] w2]
  end; cbn [fst snd ret] in *.
  - eexists. split; [exact Hs|].
    apply bytes_of_ints_inv in Eh.
    destruct head as [|h0 [|h1 [|h2 [|h3 [|h4 [|h5 [|h6 head]]]]]]];
      try discriminate.
    cbn in Eh |- *. congruence.
  - exact Hs.
Qed.

Lemma send_msg_returns did cid data answer reset sq w sk :
  the_socket w = Some sk ->
  0 <= did <= 255 ->
  0 <= cid <= 255 ->
  len (payload data) <= 254 ->
  match sq with
  | Some v => 0 <= v <= 255
  | None => answer = true -> 0 < modulus (seq (self w)) <= 256
  end ->
  fst (SpheroRaw_send_msg did cid data answer reset sq w) = Return tt.
Proof.
  intros Hs Hd Hc Hl Hq.
  pose proof (start_flags_range answer reset) as Hf.
  rewrite send_msg_unfold. unfold bind at 1.
  destruct answer; [destruct sq as [v|]|]; cbn [ret].
  - apply (write_frame_returns _ _ _ _ (Some v) w sk); assumption.
  - specialize (Hq eq_refl).
    unfold bind, seq_next, BoundCounter_next.
    destruct (Z.eqb_spec (modulus (seq (self w))) 0) as [E|_]; [lia|].
    cbn [ret].
    pose proof (Z.mod_pos_bound (n (seq (self w)) + 1)
                  (modulus (seq (self w))) ltac:(lia)) as Hm.
    apply (write_frame_returns _ _ _ _ (Some _) (set_seq _ w) sk);
      try assumption; try exact Hs; lia.
  - apply (write_frame_returns _ _ _ _ sq w sk); try assumption.
    destruct sq; [exact Hq | lia].
Qed.

(** C7.  On a connected session [send_msg] does write a frame for every
    device id, command id and sequence number that fit a byte and every
    payload of at most 254 bytes, whatever the flags (the counter that
    supplies the sequence number when an answer is asked for has a modulus
    in 1..256).  Whenever it writes a frame, in any state at all, the byte
    at offset 5 of that frame is the payload length plus one (the empty
    and the absent payload give 1); when it raises instead, nothing was
    written. *)
Theorem send_msg_data_length :
  forall (did cid : Z) (data : option bytes) (answer reset : bool)
         (sq : option Z) (w : World),
    (forall sk : socket,
        the_socket w = Some sk ->
        0 <= did <= 255 ->
        0 <= cid <= 255 ->
        len (payload data) <= 254 ->
        match sq with
        | Some v => 0 <= v <= 255
        | None => answer = true -> 0 < modulus (seq (self w)) <= 256
        end ->
        fst (SpheroRaw_send_msg did cid data answer reset sq w) = Return tt)
    /\ match fst (SpheroRaw_send_msg did cid data answer reset sq w) with
       | Return _ =>
           exists frame : bytes,
             wire (snd (SpheroRaw_send_msg did cid data answer reset sq w))
             = wire w ++ [EvSend frame]
             /\ option_map Z_of_byte (nth_error frame 5)
                = Some (len (payload data) + 1)
       | Raise _ =>
           wire (snd (SpheroRaw_send_msg did cid data answer reset sq w))
           = wire w
       end.
Proof.
  intros did cid data answer reset sq w. split.
  - intros sk. apply send_msg_returns.
  - rewrite send_msg_unfold. unfold bind at 1.
    destruct answer; [destruct sq as [v|]|]; cbn [ret].
    + apply write_frame_wire.
    + unfold bind, seq_next, BoundCounter_next.
      destruct (modulus (seq (self w)) =? 0); cbn [ret].
      * reflexivity.
      * apply (write_frame_wire _ _ _ _ (Some _) (set_seq _ w)).
    + apply write_frame_wire.
Qed.

Lemma send_msg_data_length_witness :
  fst (SpheroRaw_send_msg DID_SPHERO CMD_SET_RGB
         (Some [xff; x00; x00; x00]) true false None (bench idle_socket))
  = Return tt
  /\ exists frame : bytes,
       wire (snd (SpheroRaw_send_msg DID_SPHERO CMD_SET_RGB
                    (Some [xff; x00; x00; x00]) true false None
                    (bench idle_socket)))
       = wire (bench idle_socket) ++ [EvSend frame]
       /\ option_map Z_of_byte (nth_error frame 5) = Some 5.
Proof.
  destruct (send_msg_data_length DID_SPHERO CMD_SET_RGB
              (Some [xff; x00; x00; x00]) true false None
              (bench idle_socket)) as [Sent Frame].
  assert (R : fst (SpheroRaw_send_msg DID_SPHERO CMD_SET_RGB
                     (Some [xff; x00; x00; x00]) true false None
                     (bench idle_socket)) = Return tt).
  { apply (Sent idle_socket);
      [reflexivity | unfold DID_SPHERO; lia | unfold CMD_SET_RGB; lia
      | cbn; lia | intros _; cbn; lia]. }
  split; [exact R|].
  rewrite R in Frame. exact Frame.
Defined.

(** Frames without payload, with and without a requested answer: the
    length byte is 1 both times. *)
Example send_msg_empty_payload :
  wire (snd (SpheroRaw_send_msg DID_CORE CMD_PING None false true None
               (bench idle_socket)))
  = [EvSend [xff; xfe; x00; x01; x00; x01; xfd]]
  /\ wire (snd (SpheroRaw_send_msg DID_CORE CMD_PING None true true None
                  (bench idle_socket)))
     = [EvSend [xff; xff; x00; x01; x01; x01; xfc]].
Proof. split; reflexivity. Qed.

(** ** Commands on a connected session *)

(** Split a world into its fields, so that a command with concrete
    arguments runs by computation; [H] tells what the socket is. *)
Ltac open_world w H :=
  destruct w as [[[?so ?ad ?po ?bu] ?sq ?lh] ?di ?pe ?wi ?lg];
  cbn in H; subst.

(** C1, as the code has it.  On a connected session
    [set_rgb(255, 0, 0, save=False)] writes exactly
    FF FE 02 20 00 05 FF 00 00 00 D9: the second start byte is 0xFE because
    [send_msg] sets the reset flag by default, and D9 is the checksum over
    02 20 00 05 FF 00 00 00. *)
Theorem set_rgb_red_frame :
  forall (w : World) (sk : socket),
    the_socket w = Some sk ->
    exists chk : byte,
      byte_of_Z (gen_checksum [0x02; 0x20; 0x00; 0x05; 0xff; 0x00; 0x00; 0x00])
      = Some chk
      /\ fst (Sphero_set_rgb 255 0 0 false w) = Return tt
      /\ wire (snd (Sphero_set_rgb 255 0 0 false w))
         = wire w ++ [EvSend (scenario_A_frame xfe chk)].
Proof.
  intros w sk H. open_world w H.
  exists xd9. repeat split; reflexivity.
Qed.

Lemma set_rgb_red_frame_witness :
  the_socket (bench idle_socket) = Some idle_socket
  /\ exists chk : byte,
      byte_of_Z (gen_checksum [0x02; 0x20; 0x00; 0x05; 0xff; 0x00; 0x00; 0x00])
      = Some chk
      /\ fst (Sphero_set_rgb 255 0 0 false (bench idle_socket)) = Return tt
      /\ wire (snd (Sphero_set_rgb 255 0 0 false (bench idle_socket)))
         = wire (bench idle_socket) ++ [EvSend (scenario_A_frame xfe chk)].
Proof.
  split; [reflexivity|].
  apply (set_rgb_red_frame (bench idle_socket) idle_socket). reflexivity.
Defined.

(** C1, as the specification words it, fails: the frame written for
    [set_rgb(255, 0, 0, save=False)] is not FF FC 02 20 00 05 FF 00 00 00
    followed by a checksum byte, whatever that byte. *)
Lemma set_rgb_red_frame_not_fc :
  ~ exists chk : byte,
      wire (snd (Sphero_set_rgb 255 0 0 false (bench idle_socket)))
      = [EvSend (scenario_A_frame xfc chk)].
Proof.
  intros [chk E]. vm_compute in E. discriminate E.
Qed.

(** C8.  On a connected session, [roll(100, 180)] followed by [off()]
    writes a second roll frame whose speed byte is 0 and whose heading
    field is 00 B4 (180), and [stop()], in any connected state, writes the
    roll frame with speed 0 and heading 00 00. *)
Theorem off_keeps_heading_stop_zeroes_it :
  forall (w : World) (sk : socket),
    the_socket w = Some sk ->
    (exists first : bytes,
        fst ((Sphero_roll 100 (PyInt 180) 1 ;;; Sphero_off) w) = Return tt
        /\ wire (snd ((Sphero_roll 100 (PyInt 180) 1 ;;; Sphero_off) w))
           = wire w ++ [EvSend first; EvSend (roll_frame x00 x00 xb4 x00 x14)])
    /\ fst (Sphero_stop w) = Return tt
    /\ wire (snd (Sphero_stop w))
       = wire w ++ [EvSend (roll_frame x00 x00 x00 x00 xc8)].
Proof.
  intros w sk H. open_world w H.
  split; [eexists|]; (split; [reflexivity|]); cbn.
  - rewrite <- app_assoc. reflexivity.
  - reflexivity.
Qed.

Lemma off_keeps_heading_stop_zeroes_it_witness :
  the_socket (bench idle_socket) = Some idle_socket
  /\ (exists first : bytes,
        fst ((Sphero_roll 100 (PyInt 180) 1 ;;; Sphero_off)
               (bench idle_socket)) = Return tt
        /\ wire (snd ((Sphero_roll 100 (PyInt 180) 1 ;;; Sphero_off)
                        (bench idle_socket)))
           = wire (bench idle_socket)
             ++ [EvSend first; EvSend (roll_frame x00 x00 xb4 x00 x14)])
  /\ fst (Sphero_stop (bench idle_socket)) = Return tt
  /\ wire (snd (Sphero_stop (bench idle_socket)))
     = wire (bench idle_socket) ++ [EvSend (roll_frame x00 x00 x00 x00 xc8)].
Proof.
  split; [reflexivity|].
  apply (off_keeps_heading_stop_zeroes_it (bench idle_socket) idle_socket).
  reflexivity.
Defined.

(** C10.  While [last_heading] still holds the tuple [(0, 0, 0)] that
    [Sphero.__init__] stored, [off()] raises the [TypeError] of
    [heading % 360] and writes nothing. *)
Theorem off_before_roll_raises :
  forall (w : World) (addr : string),
    last_heading (self w) = last_heading (Sphero_init addr) ->
    fst (Sphero_off w) = Raise tuple_mod_int
    /\ wire (snd (Sphero_off w)) = wire w.
Proof.
  intros w addr H. cbn in H.
  unfold Sphero_off, Sphero_roll, SpheroRaw_send_roll, py_mod, bind, gets,
    modify, raise.
  rewrite H. cbn. split; reflexivity.
Qed.

Lemma off_before_roll_raises_witness :
  last_heading (self (bench idle_socket))
  = last_heading (Sphero_init "68:86:E7:00:00:01")
  /\ fst (Sphero_off (bench idle_socket)) = Raise tuple_mod_int
  /\ wire (snd (Sphero_off (bench idle_socket))) = wire (bench idle_socket).
Proof.
  split; [reflexivity|].
  apply (off_before_roll_raises (bench idle_socket) "68:86:E7:00:00:01").
  reflexivity.
Defined.

(** ** The reader *)

Lemma len_app {A} (l1 l2 : list A) : len (l1 ++ l2) = len l1 + len l2.
Proof. unfold len. rewrite length_app. lia. Qed.

Lemma len_nonneg {A} (l : list A) : 0 <= len l.
Proof. unfold len. lia. Qed.

Lemma read_loop_step to_read w :
  read_loop to_read w =
  if to_read >? 0 then
    match the_socket w with
    | None => (Raise no_recv_on_None, w)
    | Some sk =>
        match socket_recv to_read sk with
        | ([], sk') => (Raise no_error_attribute, set_socket (Some sk') w)
        | (data, sk') =>
            read_loop (to_read - len data)
              (set_buffer (the_buffer w ++ data) (set_socket (Some sk') w))
        end
    end
  else (Return tt, w).
Proof.
  rewrite read_loop_equation_1.
  destruct (Z_gt_dec to_read 0) as [g|g]; simpl.
  - replace (to_read >? 0) with true by (symmetry; apply Z.gtb_lt; lia).
    destruct (the_socket w) as [sk|]; simpl; [|reflexivity].
    destruct (socket_recv to_read sk) as [[|b data] sk']; reflexivity.
  - replace (to_read >? 0) with false; [reflexivity|].
    symmetry. rewrite Z.gtb_ltb. apply Z.ltb_ge. lia.
Qed.

Lemma read_loop_closed_early :
  forall (segs : list bytes) (w : World) (sk : socket) (to_read : Z),
    the_socket w = Some sk ->
    rx sk = segs ->
    len (pending segs) < to_read ->
    fst (read_loop to_read w) = Raise no_error_attribute
    /\ the_buffer (snd (read_loop to_read w)) = the_buffer w ++ pending segs
    /\ wire (snd (read_loop to_read w)) = wire w.
Proof.
  induction segs as [|seg rest IH]; intros w sk to_read Hs Hrx Hlt;
    rewrite read_loop_step;
    (replace (to_read >? 0) with true
      by (symmetry; apply Z.gtb_lt;
          pose proof (len_nonneg (pending (rx sk))); rewrite Hrx in *; lia));
    rewrite Hs; unfold socket_recv; rewrite Hrx.
  - cbn. rewrite app_nil_r. auto.
  - destruct seg as [|b seg'].
    + cbn. rewrite app_nil_r. auto.
    + cbn [pending] in Hlt. rewrite len_app in Hlt.
      pose proof (len_nonneg (pending rest)).
      replace (len (b :: seg') <=? to_read) with true
        by (symmetry; apply Z.leb_le; lia).
      set (w1 := set_buffer _ _).
      destruct (IH w1 (mkSocket rest (script sk))
                   (to_read - len (b :: seg'))) as (E1 & E2 & E3);
        [reflexivity | reflexivity | lia |].
      rewrite E1, E2, E3. cbn [pending].
      subst w1. cbn. rewrite <- app_assoc. auto.
Qed.

(** C4.  What [read(size)] does when the socket closes before it has its
    bytes (what is buffered plus everything the transport still delivers
    is less than [size]): it yields no data and the buffer keeps every
    byte delivered so far, after what it already held, but the failure is
    not a closed-connection error.  The closure branch calls
    [self.error('Connection closed')], which [Connection] does not define,
    so the caller gets the [AttributeError] of that call.  With an empty
    buffer this is the transport that closes after [k < size] bytes. *)
Theorem read_closed_early :
  forall (w : World) (sk : socket) (size : Z),
    the_socket w = Some sk ->
    len (the_buffer w) + len (pending (rx sk)) < size ->
    fst (Connection_read size w) = Raise no_error_attribute
    /\ the_buffer (snd (Connection_read size w))
       = the_buffer w ++ pending (rx sk).
Proof.
  intros w sk size Hs Hlt.
  destruct (read_loop_closed_early (rx sk) w sk (size - len (the_buffer w)))
    as (E1 & E2 & _); [assumption | reflexivity | lia |].
  unfold Connection_read, bind, gets.
  destruct (read_loop (size - len (the_buffer w)) w) as [[[]|e] w'];
    cbn in *; [discriminate|].
  inversion E1; subst. split; [reflexivity | exact E2].
Qed.

Lemma read_closed_early_witness :
  the_socket (bench (mkSocket [[x01; x02]; [x03]] [])) 
  = Some (mkSocket [[x01; x02]; [x03]] [])
  /\ len (the_buffer (bench (mkSocket [[x01; x02]; [x03]] [])))
     + len (pending (rx (mkSocket [[x01; x02]; [x03]] []))) < 5
  /\ fst (Connection_read 5 (bench (mkSocket [[x01; x02]; [x03]] [])))
     = Raise no_error_attribute
  /\ the_buffer (snd (Connection_read 5
                        (bench (mkSocket [[x01; x02]; [x03]] []))))
     = [x01; x02; x03].
Proof.
  split; [reflexivity|]. split; [vm_compute; reflexivity|].
  apply (read_closed_early (bench (mkSocket [[x01; x02]; [x03]] []))
           (mkSocket [[x01; x02]; [x03]] []) 5).
  - reflexivity.
  - vm_compute. reflexivity.
Defined.

Lemma read_loop_live to_read w :
  live w ->
  live (snd (read_loop to_read w))
  /\ match fst (read_loop to_read w) with
     | Return _ =>
         to_read <= len (the_buffer (snd (read_loop to_read w)))
                    - len (the_buffer w)
     | Raise e => e = no_error_attribute
     end.
Proof.
  funelim (read_loop to_read w); intros L;
    try (rewrite <- Heqcall; clear Heqcall); cbn [fst snd].
  - split; [exact L | lia].
  - destruct L as [L _]. congruence.
  - split; [|reflexivity]. destruct L as [_ L]. split; [discriminate|exact L].
  - match goal with IH : live ?w1 -> _ |- _ =>
      destruct IH as [IH1 IH2];
      [destruct L as [_ L]; split; [discriminate | exact L] |]
    end.
    split; [exact IH1|].
    destruct (fst (read_loop _ _)); [|exact IH2].
    cbn [the_buffer set_buffer set_conn set_self self _conn _buffer] in IH2.
    rewrite len_app in IH2. lia.
Qed.

Lemma len_firstn_enough {A} (l : list A) (size : Z) :
  0 <= size <= len l -> len (firstn (Z.to_nat size) l) = size.
Proof.
  unfold len. intros H. rewrite length_firstn. lia.
Qed.

Lemma Connection_read_live size w :
  live w ->
  live (snd (Connection_read size w))
  /\ match fst (Connection_read size w) with
     | Return data => 0 <= size -> len data = size
     | Raise e => e = no_error_attribute
     end.
Proof.
  intros L.
  destruct (read_loop_live (size - len (the_buffer w)) w L) as [L1 O].
  unfold Connection_read, bind, gets, modify, ret.
  destruct (read_loop (size - len (the_buffer w)) w) as [[[]|e] w'];
    cbn [fst snd] in *.
  - split.
    + destruct L1 as [La Lb]. split; [exact La | exact Lb].
    + intros Hsize. unfold slice_to.
      replace (size <? 0) with false by (symmetry; apply Z.ltb_ge; lia).
      apply len_firstn_enough. lia.
  - split; assumption.
Qed.

Lemma live_log lv msg w : live w -> live (snd (log lv msg w)).
Proof. intros L. exact L. Qed.


(** ** Decoding a response *)

Lemma recv_msg_header {A} (make : option (bytes -> option A))
      w w1 c1 c2 c3 c4 c5 :
  Connection_read 5 w = (Return [c1; c2; c3; c4; c5], w1) ->
  SpheroRaw_recv_msg make w = after_header make c1 c2 c3 c4 c5 w1.
Proof.
  intros H. unfold SpheroRaw_recv_msg. unfold bind at 1. rewrite H.
  reflexivity.
Qed.

Lemma Z_of_byte_ff c : Z_of_byte c = 0xff <-> c = xff.
Proof.
  split; intros H; [|subst; reflexivity].
  pose proof (byte_of_Z_of_byte c) as E. rewrite H in E.
  vm_compute in E. congruence.
Qed.

Lemma mask_fe c : Z.land (Z_of_byte c) 0xfe = 0xfe <-> c = xfe \/ c = xff.
Proof.
  split.
  - destruct c; vm_compute; intros H; try discriminate H; auto.
  - intros [H|H]; subst; reflexivity.
Qed.

Lemma framing_test c1 c2 :
  negb (Z_of_byte c1 =? 0xff) || negb (Z.land (Z_of_byte c2) 0xfe =? 0xfe)
  = true
  <-> c1 <> xff \/ (c2 <> xfe /\ c2 <> xff).
Proof.
  rewrite orb_true_iff, !negb_true_iff, !Z.eqb_neq, Z_of_byte_ff, mask_fe.
  tauto.
Qed.

Lemma read_loop_raises to_read w e :
  fst (read_loop to_read w) = Raise e ->
  e = no_error_attribute \/ e = no_recv_on_None.
Proof.
  funelim (read_loop to_read w);
    try (rewrite <- Heqcall; clear Heqcall); cbn [fst]; intros E;
    try (inversion E; subst); auto.
Qed.

Lemma read_loop_returns to_read w :
  fst (read_loop to_read w) = Return tt ->
  to_read <= len (the_buffer (snd (read_loop to_read w)))
             - len (the_buffer w).
Proof.
  funelim (read_loop to_read w);
    try (rewrite <- Heqcall; clear Heqcall); cbn [fst snd]; intros E;
    try discriminate E.
  - lia.
  - match goal with IH : _ -> _ <= _ |- _ => specialize (IH E) end.
    cbn [the_buffer set_buffer set_conn set_self self _conn _buffer] in H.
    rewrite len_app in H. lia.
Qed.

Lemma Connection_read_raises size w e :
  fst (Connection_read size w) = Raise e ->
  e = no_error_attribute \/ e = no_recv_on_None.
Proof.
  unfold Connection_read, bind, gets, modify, ret.
  pose proof (read_loop_raises (size - len (the_buffer w)) w) as R.
  destruct (read_loop (size - len (the_buffer w)) w) as [[[]|e'] w'];
    cbn [fst snd] in *; intros E; [discriminate E|].
  inversion E; subst. auto.
Qed.

Lemma Connection_read_length size w data w' :
  Connection_read size w = (Return data, w') -> 0 <= size -> len data = size.
Proof.
  unfold Connection_read, bind, gets, modify, ret.
  pose proof (read_loop_returns (size - len (the_buffer w)) w) as R.
  destruct (read_loop (size - len (the_buffer w)) w) as [[[]|e'] w1];
    cbn [fst snd] in *; intros E Hs; [|discriminate E].
  inversion E; subst. specialize (R eq_refl).
  unfold slice_to.
  replace (size <? 0) with false by (symmetry; apply Z.ltb_ge; lia).
  apply len_firstn_enough. lia.
Qed.

Lemma check_body_not_sop {A} (make : option (bytes -> option A))
      c2 c3 c4 c5 body w e :
  fst (check_body make c2 c3 c4 c5 body w) = Raise e ->
  is_sop_error e = false.
Proof.
  unfold check_body. destruct body as [|b body'].
  - unfold bind, log, modify, Connection_disconnect, gets, raise, ret,
      the_socket.
    cbn. destruct (_socket (_conn (self w))); cbn; intros E; inversion E.
    reflexivity.
  - cbv zeta.
    destruct (_ =? _).
    + unfold bind, ret, raise. destruct make as [f|].
      * destruct (f _); cbn; intros E; inversion E. reflexivity.
      * cbn. discriminate.
    + unfold bind, log, modify, raise. cbn. intros E. inversion E.
      reflexivity.
Qed.

Lemma after_header_passes_not_sop {A} (make : option (bytes -> option A))
      c1 c2 c3 c4 c5 w e :
  negb (Z_of_byte c1 =? 0xff) || negb (Z.land (Z_of_byte c2) 0xfe =? 0xfe)
  = false ->
  fst (after_header make c1 c2 c3 c4 c5 w) = Raise e ->
  is_sop_error e = false.
Proof.
  intros T. unfold after_header. rewrite T.
  destruct (body_length c2 c4 c5 <? 1).
  - cbn. intros E. inversion E. reflexivity.
  - unfold bind.
    pose proof (Connection_read_raises (body_length c2 c4 c5) w) as R.
    destruct (Connection_read (body_length c2 c4 c5) w) as [[body|e'] w'].
    + apply check_body_not_sop.
    + cbn [fst] in *. intros E. inversion E; subst.
      destruct (R e eq_refl); subst; reflexivity.
Qed.

Lemma invalid_sop_is_sop_error c1 c2 : is_sop_error (invalid_sop c1 c2) = true.
Proof. reflexivity. Qed.

(** C2, as the code has it.  Once the five header bytes are read,
    [recv_msg] raises the framing error exactly when the first byte is not
    0xFF or the second is neither 0xFE nor 0xFF (its seven high bits are
    not all set; bit 0 is not looked at).  So every header that starts
    FF FE or FF FF passes the framing check, and no other does. *)
Theorem framing_check :
  forall (A : Type) (make : option (bytes -> option A)) (w w1 : World)
         (c1 c2 c3 c4 c5 : byte),
    Connection_read 5 w = (Return [c1; c2; c3; c4; c5], w1) ->
    (fst (SpheroRaw_recv_msg make w) = Raise (invalid_sop c1 c2)
     <-> c1 <> xff \/ (c2 <> xfe /\ c2 <> xff)).
Proof.
  intros A make w w1 c1 c2 c3 c4 c5 H.
  rewrite (recv_msg_header make _ _ _ _ _ _ _ H), <- framing_test.
  destruct (negb (Z_of_byte c1 =? 0xff)
            || negb (Z.land (Z_of_byte c2) 0xfe =? 0xfe)) eqn:T.
  - unfold after_header. rewrite T. cbn. tauto.
  - split; [|discriminate]. intros E.
    apply (after_header_passes_not_sop make _ _ _ _ _ _ _ T) in E.
    rewrite invalid_sop_is_sop_error in E. discriminate E.
Qed.

Lemma framing_check_witness :
  Connection_read 5 (bench reply_sop2_03)
  = (Return [xff; x03; x00; x01; x01],
     snd (Connection_read 5 (bench reply_sop2_03)))
  /\ (fst (SpheroRaw_recv_msg (A:=Empty_set) None (bench reply_sop2_03))
      = Raise (invalid_sop xff x03)
      <-> xff <> xff \/ (x03 <> xfe /\ x03 <> xff)).
Proof.
  split; [reflexivity|].
  apply (framing_check Empty_set None (bench reply_sop2_03)
           (snd (Connection_read 5 (bench reply_sop2_03)))
           xff x03 x00 x01 x01).
  reflexivity.
Defined.

(** C2, as the specification words it, fails both ways: the header
    FF 03 ... has both low-order bits of its second byte set and is
    rejected with the framing error, and the header FF FE ... has bit 0
    clear and is accepted. *)
Lemma framing_low_bits_counterexample :
  (Z.land (Z_of_byte x03) 0x03 = 0x03
   /\ fst (SpheroRaw_recv_msg (A:=Empty_set) None (bench reply_sop2_03))
      = Raise (invalid_sop xff x03))
  /\ (Z.land (Z_of_byte xfe) 0x03 <> 0x03
      /\ fst (SpheroRaw_recv_msg (A:=Empty_set) None (bench reply_sop2_fe))
         = Return (Some (0xfe, 0x00, 0x00, 0x01, 0xfe, inl [], 0xfe))).
Proof.
  repeat split; try reflexivity. vm_compute. discriminate.
Qed.

Lemma invalid_checksum_not_sop c1 c2 : invalid_checksum <> invalid_sop c1 c2.
Proof. unfold invalid_checksum, invalid_sop. cbn. discriminate. Qed.

Lemma invalid_checksum_not_length d :
  invalid_checksum <> invalid_body_length d.
Proof. unfold invalid_checksum, invalid_body_length. cbn. discriminate. Qed.

(** C5.  When the header passes the framing check, the declared length is
    at least 1 and the body is read, a trailing byte [body[-1]] that
    differs from the checksum over header bytes 3 to 5 and the content
    [body[:-1]] makes [recv_msg] raise [ResponseError('Invalid checksum')];
    that exception is equal to no framing error and to no body-length
    error, whatever bytes those report (all three are [ResponseError]s and
    differ in their message). *)
Theorem checksum_mismatch :
  forall (A : Type) (make : option (bytes -> option A)) (w w1 w2 : World)
         (c1 c2 c3 c4 c5 : byte) (body : bytes),
    Connection_read 5 w = (Return [c1; c2; c3; c4; c5], w1) ->
    c1 = xff ->
    c2 = xfe \/ c2 = xff ->
    1 <= body_length c2 c4 c5 ->
    Connection_read (body_length c2 c4 c5) w1 = (Return body, w2) ->
    gen_checksum (Z_of_byte c3 :: Z_of_byte c4 :: Z_of_byte c5
                    :: map Z_of_byte (slice_to (-1) body))
    <> Z_of_byte (last body x00) ->
    fst (SpheroRaw_recv_msg make w) = Raise invalid_checksum
    /\ (forall a b : byte, invalid_checksum <> invalid_sop a b)
    /\ (forall d : Z, invalid_checksum <> invalid_body_length d).
Proof.
  intros A make w w1 w2 c1 c2 c3 c4 c5 body H1 Hc1 Hc2 Hlen H2 Hchk.
  split; [|split; [apply invalid_checksum_not_sop
                  | apply invalid_checksum_not_length]].
  rewrite (recv_msg_header make _ _ _ _ _ _ _ H1).
  unfold after_header.
  assert (T : negb (Z_of_byte c1 =? 0xff)
              || negb (Z.land (Z_of_byte c2) 0xfe =? 0xfe) = false).
  { destruct (negb _ || negb _) eqn:T; [|reflexivity].
    apply framing_test in T. subst c1. destruct Hc2; subst c2; tauto. }
  rewrite T.
  replace (body_length c2 c4 c5 <? 1) with false
    by (symmetry; apply Z.ltb_ge; lia).
  unfold bind at 1. rewrite H2.
  pose proof (Connection_read_length _ _ _ _ H2 ltac:(lia)) as L.
  destruct body as [|b body']; [cbn in L; lia|].
  unfold check_body. cbv zeta.
  apply Z.eqb_neq in Hchk. rewrite Hchk. reflexivity.
Qed.

Lemma checksum_mismatch_witness :
  Connection_read 5 (bench reply_bad_checksum)
  = (Return [xff; xff; x00; x01; x01],
     snd (Connection_read 5 (bench reply_bad_checksum)))
  /\ xff = xff
  /\ (xff = xfe \/ xff = xff)
  /\ 1 <= body_length xff x01 x01
  /\ Connection_read (body_length xff x01 x01)
       (snd (Connection_read 5 (bench reply_bad_checksum)))
     = (Return [x00],
        snd (Connection_read (body_length xff x01 x01)
               (snd (Connection_read 5 (bench reply_bad_checksum)))))
  /\ gen_checksum (Z_of_byte x00 :: Z_of_byte x01 :: Z_of_byte x01
                     :: map Z_of_byte (slice_to (-1) [x00]))
     <> Z_of_byte (last [x00] x00)
  /\ fst (SpheroRaw_recv_msg (A:=Empty_set) None (bench reply_bad_checksum))
     = Raise invalid_checksum
  /\ (forall a b : byte, invalid_checksum <> invalid_sop a b)
  /\ (forall d : Z, invalid_checksum <> invalid_body_length d).
Proof.
  split; [reflexivity|]. split; [reflexivity|]. split; [right; reflexivity|].
  split; [cbn; lia|]. split; [reflexivity|].
  split; [cbn; lia|].
  apply (checksum_mismatch Empty_set None (bench reply_bad_checksum)
           (snd (Connection_read 5 (bench reply_bad_checksum)))
           (snd (Connection_read (body_length xff x01 x01)
                   (snd (Connection_read 5 (bench reply_bad_checksum)))))
           xff xff x00 x01 x01 [x00]).
  - reflexivity.
  - reflexivity.
  - right; reflexivity.
  - cbn; lia.
  - reflexivity.
  - cbn; lia.
Defined.

(** ** One ping *)

Lemma write_frame_connected sop2 did cid data seq w sk head bc :
  the_socket w = Some sk ->
  bytes_of_ints [0xff; sop2; did; cid;
                 match seq with None => 0x00 | Some v => v end;
                 len (payload data) + 1] = Some head ->
  byte_of_Z (gen_checksum
               (did :: cid :: match seq with None => 0x00 | Some v => v end
                    :: len (payload data) + 1
                    :: map Z_of_byte (payload data))) = Some bc ->
  write_frame sop2 did cid data seq w
  = (Return tt,
     emit (EvSend (head ++ payload data ++ [bc]))
       (set_socket
          (Some (snd (socket_send (head ++ payload data ++ [bc]) sk))) w)).
Proof.
  intros Hs Eh Ec.
  unfold write_frame, mk_bytes, bind. cbv zeta. fold (payload data).
  rewrite Eh. cbn [ret]. cbn [bytes_of_ints]. rewrite Ec. cbn [ret].
  rewrite (Connection_send_connected _ sk) by exact Hs.
  reflexivity.
Qed.

Lemma ping_request w sk :
  the_socket w = Some sk ->
  modulus (seq (self w)) = 0x0100 ->
  exists bv bc : byte,
    byte_of_Z ((n (seq (self w)) + 1) mod 0x0100) = Some bv
    /\ byte_of_Z (gen_checksum [DID_CORE; CMD_PING;
                                (n (seq (self w)) + 1) mod 0x0100; 1])
       = Some bc
    /\ SpheroRaw_send_msg DID_CORE CMD_PING None true true None w
       = (Return tt,
          emit (EvSend [xff; xff; x00; x01; bv; x01; bc])
            (set_socket
               (Some (snd (socket_send [xff; xff; x00; x01; bv; x01; bc] sk)))
               (set_seq (mkBoundCounter ((n (seq (self w)) + 1) mod 0x0100)
                                        0x0100) w))).
Proof.
  intros Hs Hm.
  set (v := (n (seq (self w)) + 1) mod 0x0100).
  destruct (byte_of_Z_some v) as [bv Ev].
  { subst v. pose proof (Z.mod_pos_bound (n (seq (self w)) + 1) 0x0100
                           ltac:(lia)). lia. }
  destruct (byte_of_Z_some (gen_checksum [DID_CORE; CMD_PING; v; 1]))
    as [bc Ec]; [apply gen_checksum_range|].
  exists bv, bc. split; [exact Ev|]. split; [exact Ec|].
  rewrite send_msg_unfold. unfold bind at 1. unfold bind at 1.
  unfold seq_next, BoundCounter_next. rewrite Hm.
  cbn [Z.eqb ret]. fold v.
  apply (write_frame_connected _ _ _ None (Some v) _ sk
           [xff; xff; x00; x01; bv; x01] bc).
  - exact Hs.
  - cbn [bytes_of_ints payload]. rewrite Ev. reflexivity.
  - exact Ec.
Qed.

Lemma check_body_live c2 c3 c4 c5 body w :
  body <> [] ->
  live w ->
  live (snd (check_body (A:=Empty_set) None c2 c3 c4 c5 body w))
  /\ ping_outcome (fst (check_body (A:=Empty_set) None c2 c3 c4 c5 body w)).
Proof.
  intros Hb L. unfold check_body.
  destruct body as [|b body']; [congruence|]. cbv zeta.
  destruct (_ =? _); cbn.
  - split; [exact L | exact I].
  - split; [exact L |]. right. eexists. reflexivity.
Qed.

Lemma after_header_live c1 c2 c3 c4 c5 w :
  live w ->
  live (snd (after_header (A:=Empty_set) None c1 c2 c3 c4 c5 w))
  /\ ping_outcome (fst (after_header (A:=Empty_set) None c1 c2 c3 c4 c5 w)).
Proof.
  intros L. unfold after_header.
  destruct (negb _ || negb _).
  { cbn. split; [exact L|]. right. eexists. reflexivity. }
  destruct (Z.ltb_spec (body_length c2 c4 c5) 1) as [Hlt|Hge].
  { cbn. split; [exact L|]. right. eexists. reflexivity. }
  unfold bind.
  destruct (Connection_read_live (body_length c2 c4 c5) w L) as [L1 O].
  destruct (Connection_read (body_length c2 c4 c5) w) as [[body|e] w1];
    cbn [fst snd] in *.
  - apply check_body_live; [|exact L1].
    intros ->. specialize (O ltac:(lia)). cbn in O. lia.
  - split; [exact L1|]. left. exact O.
Qed.

Lemma recv_msg_live w :
  live w ->
  live (snd (SpheroRaw_recv_msg (A:=Empty_set) None w))
  /\ ping_outcome (fst (SpheroRaw_recv_msg (A:=Empty_set) None w)).
Proof.
  intros L.
  destruct (Connection_read_live 5 w L) as [L1 O].
  destruct (Connection_read 5 w) as [[data|e] w1] eqn:E; cbn [fst snd] in *.
  - specialize (O ltac:(lia)).
    destruct data as [|c1 [|c2 [|c3 [|c4 [|c5 [|c6 data]]]]]];
      cbn in O; try lia.
    rewrite (recv_msg_header None _ _ _ _ _ _ _ E).
    apply after_header_live. exact L1.
  - unfold SpheroRaw_recv_msg, bind. rewrite E. cbn.
    split; [exact L1|]. left. exact O.
Qed.

Lemma send_ping_live w :
  live w ->
  live (snd (SpheroRaw_send_ping w))
  /\ ping_outcome (fst (SpheroRaw_send_ping w)).
Proof.
  intros [Ls Lm].
  destruct (the_socket w) as [sk|] eqn:Hs; [|congruence].
  destruct (ping_request w sk Hs Lm) as (bv & bc & _ & _ & E).
  unfold SpheroRaw_send_ping, bind. rewrite E.
  set (w1 := emit _ _).
  assert (L1 : live w1) by (split; [discriminate | reflexivity]).
  destruct (recv_msg_live w1 L1) as [L2 O].
  destruct (SpheroRaw_recv_msg None w1) as [[r|e] w2];
    cbn [fst snd] in *; split; assumption.
Qed.

Lemma flush_live w :
  live w ->
  fst (Connection_flush w) = Return tt /\ live (snd (Connection_flush w)).
Proof.
  intros [Ls Lm]. unfold Connection_flush, try_except, bind, gets.
  destruct (the_socket w) as [sk|] eqn:Hs; [|congruence].
  destruct (socket_recv 1024 sk) as [data sk']. cbn.
  split; [reflexivity|]. split; [discriminate | exact Lm].
Qed.

Lemma on_response_error_live msg w :
  live w ->
  fst (on_response_error msg w) = Return tt
  /\ live (snd (on_response_error msg w)).
Proof.
  intros L. unfold on_response_error, bind.
  destruct (flush_live (snd (log ERROR msg w)) (live_log _ _ _ L)) as [E L1].
  cbn [log modify fst snd] in *.
  destruct (Connection_flush _) as [[[]|e] w1]; cbn [fst snd] in *;
    [split; [reflexivity | exact L1] | discriminate E].
Qed.

(** ** The cleaning loop *)

Lemma clean_loop_step retries ping_clean w :
  clean_loop retries ping_clean w =
  if retries >? 0 then
    match SpheroRaw_send_ping w with
    | (Return _, w1) =>
        clean_loop (if retries - 1 >? 1 then 1 else retries - 1) true w1
    | (Raise (ResponseError msg), w1) =>
        match on_response_error msg w1 with
        | (Return _, w2) => clean_loop (retries - 1) ping_clean w2
        | (Raise e, w2) => (Raise e, w2)
        end
    | (Raise e, w1) => (Raise e, w1)
    end
  else (Return ping_clean, w).
Proof.
  rewrite clean_loop_equation_1.
  destruct (Z_gt_dec retries 0) as [g|g]; simpl.
  - replace (retries >? 0) with true by (symmetry; apply Z.gtb_lt; lia).
    destruct (SpheroRaw_send_ping w) as [[r|e] w1]; simpl; [reflexivity|].
    destruct e; simpl; try reflexivity.
    destruct (on_response_error msg w1) as [[[]|e] w2]; reflexivity.
  - replace (retries >? 0) with false; [reflexivity|].
    symmetry. rewrite Z.gtb_ltb. apply Z.ltb_ge. lia.
Qed.

(** On a live session the loop comes to an end with [ping_clean], unless
    [read] met a closed socket; a [ResponseError] never leaves it. *)
Lemma clean_loop_live (fuel : nat) :
  forall (retries : Z) (ping_clean : bool) (w : World),
    (Z.to_nat retries <= fuel)%nat ->
    live w ->
    match fst (clean_loop retries ping_clean w) with
    | Return _ => True
    | Raise e => e = no_error_attribute
    end.
Proof.
  induction fuel as [|fuel IH]; intros retries pc w Hf L;
    rewrite clean_loop_step;
    destruct (Z.gtb_spec retries 0) as [Hpos|Hneg];
    try exact I; try lia.
  destruct (send_ping_live w L) as [L1 O].
  destruct (SpheroRaw_send_ping w) as [[r|e] w1]; cbn [fst snd] in *.
  - apply IH; [|exact L1].
    destruct (Z.gtb_spec (retries - 1) 1); lia.
  - destruct O as [->|[msg ->]]; [reflexivity|].
    destruct (on_response_error_live msg w1 L1) as [E L2].
    destruct (on_response_error msg w1) as [[[]|e] w2]; cbn [fst snd] in *;
      [|discriminate E].
    apply IH; [lia | exact L2].
Qed.

(** ** Connecting *)

Lemma connect_loop_S (repeat : nat) (s_bound : bool) (w : World) :
  connect_loop (S repeat) s_bound w
  = let w' := mkWorld (self w) (tl (dial w)) (peer w) (wire w) (logged w) in
    match hd Refused (dial w) with
    | Accepted => (Return true, set_socket (Some (peer w)) w')
    | Refused => connect_loop repeat true (snd (log WARNING "OSError" w'))
    | NoSocket =>
        if s_bound
        then connect_loop repeat true (snd (log WARNING "OSError" w'))
        else (Raise unbound_s, snd (log WARNING "OSError" w'))
    end.
Proof.
  cbn [connect_loop]. unfold bind, dial_once.
  destruct (hd Refused (dial w)); try reflexivity.
  destruct s_bound; reflexivity.
Qed.

Lemma connect_loop_live (repeat : nat) :
  forall (s_bound : bool) (w : World),
    modulus (seq (self w)) = 0x0100 ->
    fst (connect_loop repeat s_bound w) = Return true ->
    live (snd (connect_loop repeat s_bound w)).
Proof.
  induction repeat as [|repeat IH]; intros s_bound w Hm.
  - discriminate.
  - rewrite connect_loop_S. cbv zeta.
    destruct (hd Refused (dial w)).
    + intros _. split; [discriminate | exact Hm].
    + apply IH. exact Hm.
    + destruct s_bound; [apply IH; exact Hm | discriminate].
Qed.

Lemma SpheroRaw_connect_live w :
  modulus (seq (self w)) = 0x0100 ->
  fst (SpheroRaw_connect w) = Return true ->
  live (snd (SpheroRaw_connect w)).
Proof.
  intros Hm. unfold SpheroRaw_connect, Connection_connect, bind.
  pose proof (connect_loop_live (Z.to_nat connect_retries) false w Hm) as L.
  destruct (connect_loop (Z.to_nat connect_retries) false w) as [[c|e] w1];
    cbn [fst snd] in *; [|discriminate].
  destruct c; cbn.
  - intros _. apply L. reflexivity.
  - discriminate.
Qed.

Lemma init_sphero_connected addr w w1 :
  SpheroRaw_connect (set_self (fun _ => Sphero_init addr) w)
  = (Return true, w1) ->
  init_sphero addr w
  = match clean_loop 5 false w1 with
    | (Return ping_clean, w2) =>
        let w3 :=
          snd ((if negb ping_clean
                then log ERROR "Failed to clean the receive channel"
                else log DEBUG "Receive channel clean") w2) in
        (Return (self w3), w3)
    | (Raise e, w2) => (Raise e, w2)
    end.
Proof.
  intros E. unfold init_sphero. unfold bind at 1. cbn [modify].
  unfold bind at 1. rewrite E. cbn [negb]. unfold bind at 1.
  destruct (clean_loop 5 false w1) as [[[]|e] w2]; reflexivity.
Qed.

Lemma on_response_error_returns msg w :
  fst (on_response_error msg w) = Return tt.
Proof.
  unfold on_response_error, bind, Connection_flush, try_except, bind, gets.
  cbn [log modify fst snd].
  destruct (the_socket _) as [sk|]; [|reflexivity].
  destruct (socket_recv 1024 sk) as [data sk']. reflexivity.
Qed.

Lemma clean_loop_caught retries w :
  only_response_errors retries w ->
  forall ping_clean : bool,
    exists clean : bool,
      fst (clean_loop retries ping_clean w) = Return clean.
Proof.
  induction 1 as [retries w Hr | retries w r w1 Hr E _ IH
                 | retries w msg w1 Hr E _ IH];
    intros pc; rewrite clean_loop_step.
  - replace (retries >? 0) with false
      by (symmetry; rewrite Z.gtb_ltb; apply Z.ltb_ge; lia).
    exists pc. reflexivity.
  - replace (retries >? 0) with true by (symmetry; apply Z.gtb_lt; lia).
    rewrite E. apply IH.
  - replace (retries >? 0) with true by (symmetry; apply Z.gtb_lt; lia).
    rewrite E.
    pose proof (on_response_error_returns msg w1) as R.
    destruct (on_response_error msg w1) as [[u|e] w2]; cbn [fst snd] in *;
      [apply IH | discriminate R].
Qed.

Lemma clean_loop_no_response_error (fuel : nat) :
  forall (retries : Z) (ping_clean : bool) (w : World) (msg : string),
    (Z.to_nat retries <= fuel)%nat ->
    fst (clean_loop retries ping_clean w) <> Raise (ResponseError msg).
Proof.
  induction fuel as [|fuel IH]; intros retries pc w msg Hf;
    rewrite clean_loop_step;
    destruct (Z.gtb_spec retries 0) as [Hpos|Hneg];
    try discriminate; try lia.
  destruct (SpheroRaw_send_ping w) as [[r|e] w1].
  - apply IH. destruct (Z.gtb_spec (retries - 1) 1); lia.
  - destruct e; try discriminate.
    pose proof (on_response_error_returns msg0 w1) as R.
    destruct (on_response_error msg0 w1) as [[u|e] w2]; cbn [fst snd] in *;
      [apply IH; lia | discriminate R].
Qed.

(** C9, as the code has it.  After a successful connect, when every ping
    attempt of the cleaning loop returns or fails with a [ResponseError],
    [init_sphero] returns the session object, however many of the five
    attempts fail; and whatever the transport does, no [ResponseError] of
    a ping reaches the caller. *)
Theorem init_sphero_soft_failure :
  forall (addr : string) (w : World),
    fst (SpheroRaw_connect (set_self (fun _ => Sphero_init addr) w))
    = Return true ->
    (only_response_errors 5
       (snd (SpheroRaw_connect (set_self (fun _ => Sphero_init addr) w))) ->
     fst (init_sphero addr w) = Return (self (snd (init_sphero addr w))))
    /\ (forall msg : string,
           fst (init_sphero addr w) <> Raise (ResponseError msg)).
Proof.
  intros addr w Hc.
  destruct (SpheroRaw_connect (set_self (fun _ => Sphero_init addr) w))
    as [[c|e] w1] eqn:E; cbn [fst snd] in *; [|discriminate Hc].
  inversion Hc; subst c.
  rewrite (init_sphero_connected _ _ _ E). split.
  - intros Hp.
    destruct (clean_loop_caught 5 w1 Hp false) as [clean R].
    destruct (clean_loop 5 false w1) as [[pc|e] w2]; cbn [fst] in R;
      [reflexivity | discriminate R].
  - intros msg.
    pose proof (clean_loop_no_response_error 5 5 false w1 msg
                  ltac:(cbn; lia)) as N.
    destruct (clean_loop 5 false w1) as [[pc|e] w2]; cbn [fst] in *;
      [discriminate | intros X; apply N; inversion X; reflexivity].
Qed.

Lemma init_sphero_soft_failure_witness :
  fst (SpheroRaw_connect
         (set_self (fun _ => Sphero_init "68:86:E7:00:00:01")
                   (reachable always_corrupt)))
  = Return true
  /\ only_response_errors 5
       (snd (SpheroRaw_connect
               (set_self (fun _ => Sphero_init "68:86:E7:00:00:01")
                         (reachable always_corrupt))))
  /\ fst (init_sphero "68:86:E7:00:00:01" (reachable always_corrupt))
     = Return (self (snd (init_sphero "68:86:E7:00:00:01"
                            (reachable always_corrupt)))).
Proof.
  assert (P : only_response_errors 5
                (snd (SpheroRaw_connect
                        (set_self (fun _ => Sphero_init "68:86:E7:00:00:01")
                                  (reachable always_corrupt))))).
  { do 5 (eapply ping_refused; [lia | vm_compute; reflexivity |]).
    apply no_attempt_left. lia. }
  split; [reflexivity|]. split; [exact P|].
  apply (init_sphero_soft_failure "68:86:E7:00:00:01"
           (reachable always_corrupt) eq_refl).
  exact P.
Defined.

(** C9, as the specification words it, fails: when the peer has hung up
    the connect succeeds and [init_sphero] raises instead of returning the
    session. *)
Lemma init_sphero_raises_on_closed_socket :
  fst (SpheroRaw_connect
         (set_self (fun _ => Sphero_init "68:86:E7:00:00:01")
                   (reachable hung_up)))
  = Return true
  /\ fst (init_sphero "68:86:E7:00:00:01" (reachable hung_up))
     = Raise no_error_attribute.
Proof. split; reflexivity. Qed.

(** Five corrupted replies: five pings, five drains, the failure is
    logged and the session is returned all the same. *)
Example init_sphero_never_clean :
  let r := init_sphero "68:86:E7:00:00:01" (reachable always_corrupt) in
  fst r = Return (self (snd r))
  /\ List.length (filter (fun e => match e with EvSend _ => true
                                           | EvDrain _ => false end)
                         (wire (snd r))) = 5%nat
  /\ List.length (filter (fun e => match e with EvSend _ => false
                                           | EvDrain _ => true end)
                         (wire (snd r))) = 5%nat
  /\ last (logged (snd r)) (DEBUG, "")
     = (ERROR, "Failed to clean the receive channel").
Proof. vm_compute. repeat split. Qed.

(** ** The scenario of one corrupted reply *)

Lemma read_header_of_segment w c1 c2 c3 c4 c5 c6 later script :
  the_socket w = Some (mkSocket ([c1; c2; c3; c4; c5; c6] :: later) script) ->
  the_buffer w = [] ->
  Connection_read 5 w
  = (Return [c1; c2; c3; c4; c5],
     set_buffer [] (set_socket (Some (mkSocket ([c6] :: later) script)) w)).
Proof.
  intros Hs Hb. unfold Connection_read, bind, gets, modify, ret.
  rewrite Hb. cbn [len List.length].
  rewrite read_loop_step. cbn [Z.of_nat Z.sub Z.gtb Z.compare Z.opp Z.add].
  rewrite Hs. cbn. rewrite read_loop_step. cbn. rewrite Hb. reflexivity.
Qed.

Lemma read_last_byte w c6 later script :
  the_socket w = Some (mkSocket ([c6] :: later) script) ->
  the_buffer w = [] ->
  Connection_read 1 w
  = (Return [c6],
     set_buffer [] (set_socket (Some (mkSocket later script)) w)).
Proof.
  intros Hs Hb. unfold Connection_read, bind, gets, modify, ret.
  rewrite Hb. cbn [len List.length].
  rewrite read_loop_step. cbn [Z.of_nat Z.sub Z.gtb Z.compare Z.opp Z.add].
  rewrite Hs. cbn. rewrite read_loop_step. cbn. rewrite Hb. reflexivity.
Qed.

Lemma ping_step w sk m s t rest :
  the_socket w = Some sk ->
  rx sk = [] ->
  script sk = [[xff; xff; m; s; x01; t]] :: rest ->
  the_buffer w = [] ->
  modulus (seq (self w)) = 0x0100 ->
  exists bv bc : byte,
    byte_of_Z ((n (seq (self w)) + 1) mod 0x0100) = Some bv
    /\ byte_of_Z (gen_checksum [DID_CORE; CMD_PING;
                                (n (seq (self w)) + 1) mod 0x0100; 1])
       = Some bc
    /\ let w1 :=
         set_buffer []
           (set_socket (Some (mkSocket [] rest))
              (emit (EvSend (ping_frame bv bc))
                 (set_seq (mkBoundCounter ((n (seq (self w)) + 1) mod 0x0100)
                                          0x0100) w))) in
       SpheroRaw_send_ping w
       = if gen_checksum [Z_of_byte m; Z_of_byte s; 1] =? Z_of_byte t
         then (Return (Some (0xff, Z_of_byte m, Z_of_byte s, 1,
                             gen_checksum [Z_of_byte m; Z_of_byte s; 1],
                             inl [], Z_of_byte t)), w1)
         else (Raise invalid_checksum,
               snd (log WARNING "Message checksum incorrect: %r" w1)).
Proof.
  intros Hs Hrx Hsc Hb Hm.
  destruct (ping_request w sk Hs Hm) as (bv & bc & Ev & Ec & E).
  exists bv, bc. split; [exact Ev|]. split; [exact Ec|]. cbv zeta.
  unfold SpheroRaw_send_ping. unfold bind at 1. rewrite E.
  unfold socket_send. cbn [snd]. rewrite Hrx, Hsc. cbn [hd tl app].
  match goal with |- SpheroRaw_recv_msg None ?w0 = _ => set (ws := w0) end.
  rewrite (recv_msg_header None ws
             (set_buffer []
                (set_socket (Some (mkSocket [[t]] rest)) ws))
             xff xff m s x01)
    by (apply read_header_of_segment; [reflexivity | exact Hb]).
  unfold after_header.
  change (negb (Z_of_byte xff =? 255)
          || negb (Z.land (Z_of_byte xff) 254 =? 254)) with false.
  change (body_length xff s x01) with 1.
  change (1 <? 1) with false. unfold bind at 1.
  rewrite (read_last_byte _ t [] rest) by reflexivity.
  unfold check_body. cbv zeta.
  change (slice_to (-1) [t]) with (@nil byte).
  change (Z_of_byte x01) with 1. cbn [map last].
  destruct (gen_checksum [Z_of_byte m; Z_of_byte s; 1] =? Z_of_byte t);
    reflexivity.
Qed.

Lemma flush_quiet w sk :
  the_socket w = Some sk ->
  rx sk = [] ->
  Connection_flush w
  = (Return tt,
     snd (log WARNING "flushed input (%r)"
            (emit (EvDrain []) (set_socket (Some sk) w)))).
Proof.
  intros Hs Hrx. unfold Connection_flush, try_except, bind, gets.
  rewrite Hs. unfold socket_recv. rewrite Hrx. reflexivity.
Qed.

Lemma Z_of_checksum_byte l : Z_of_byte (checksum_byte l) = gen_checksum l.
Proof.
  unfold checksum_byte.
  destruct (byte_of_Z_some (gen_checksum l) (gen_checksum_range l)) as [b E].
  rewrite E. apply byte_of_Z_inv. exact E.
Qed.

Lemma repeat_snoc {A} (a : A) (k : nat) : repeat a k ++ [a] = a :: repeat a k.
Proof.
  induction k as [|k IH]; cbn; [reflexivity|]. rewrite IH. reflexivity.
Qed.

Lemma connect_loop_after_failures (k : nat) :
  forall (fuel : nat) (s_bound : bool) (w : World) (later : list attempt),
    dial w = repeat Refused k ++ Accepted :: later ->
    (k < fuel)%nat ->
    connect_loop fuel s_bound w
    = (Return true,
       set_socket (Some (peer w))
         (mkWorld (self w) later (peer w) (wire w)
                  (logged w ++ repeat (WARNING, "OSError") k))).
Proof.
  induction k as [|k IH]; intros fuel s_bound w later Hd Hk;
    (destruct fuel as [|fuel]; [lia|]);
    rewrite connect_loop_S; cbv zeta; rewrite Hd; cbn [repeat app hd tl].
  - rewrite app_nil_r. reflexivity.
  - rewrite (IH fuel true _ later); [|reflexivity|lia].
    cbn [log modify snd self dial peer wire logged].
    rewrite <- app_assoc. cbn [app]. rewrite <- repeat_snoc.
    cbn [app]. rewrite repeat_snoc. reflexivity.
Qed.

Lemma SpheroRaw_connect_after_failures (k : nat) (w : World)
      (later : list attempt) :
  dial w = repeat Refused k ++ Accepted :: later ->
  (k < 10)%nat ->
  SpheroRaw_connect w
  = (Return true,
     set_socket (Some (peer w))
       (mkWorld (self w) later (peer w) (wire w)
          (logged w ++ repeat (WARNING, "OSError") k
             ++ [(INFO, "Connected: %r"); (DEBUG, "socket timeout: %r")]))).
Proof.
  intros Hd Hk. unfold SpheroRaw_connect, Connection_connect.
  unfold bind at 1.
  rewrite (connect_loop_after_failures k _ false w later Hd)
    by (change (Z.to_nat connect_retries) with 10%nat; exact Hk).
  cbn. rewrite <- !app_assoc. reflexivity.
Qed.

(** C3, as the code has it.  After a successful connect (the attempt
    after [k < 10] refused ones), when the first ping reply carries a wrong
    checksum and the second and the third are well-formed, [init_sphero]
    returns the session, the last log record is 'Receive channel clean',
    and the traffic is exactly: ping 1, one drain, ping 2, ping 3.  The
    first success leaves [retries = 1], so one more ping follows it. *)
Theorem cleaning_after_corrupted_first_reply :
  forall (addr : string) (w : World) (k : nat) (later : list attempt)
         (m1 s1 t1 m2 s2 m3 s3 : byte) (more : list (list bytes)),
    dial w = repeat Refused k ++ Accepted :: later ->
    (k < 10)%nat ->
    peer w = mkSocket [] ([[xff; xff; m1; s1; x01; t1]]
                            :: [ping_reply m2 s2]
                            :: [ping_reply m3 s3] :: more) ->
    Z_of_byte t1 <> gen_checksum [Z_of_byte m1; Z_of_byte s1; 0x01] ->
    fst (init_sphero addr w) = Return (self (snd (init_sphero addr w)))
    /\ wire (snd (init_sphero addr w))
       = wire w ++ [EvSend (ping_frame x01 xfc); EvDrain [];
                    EvSend (ping_frame x02 xfb); EvSend (ping_frame x03 xfa)]
    /\ last (logged (snd (init_sphero addr w))) (DEBUG, "")
       = (DEBUG, "Receive channel clean").
Proof.
  intros addr w k later m1 s1 t1 m2 s2 m3 s3 more Hd Hk Hp Ht.
  assert (E : exists wf : World,
             init_sphero addr w = (Return (self wf), wf)
             /\ wire wf
                = wire w ++ [EvSend (ping_frame x01 xfc); EvDrain [];
                             EvSend (ping_frame x02 xfb);
                             EvSend (ping_frame x03 xfa)]
             /\ last (logged wf) (DEBUG, "")
                = (DEBUG, "Receive channel clean"));
    [|destruct E as (wf & E & Hw & Hl); rewrite E; cbn [fst snd]; auto].
  rewrite (init_sphero_connected addr w _
             (SpheroRaw_connect_after_failures k
                (set_self (fun _ => Sphero_init addr) w) later Hd Hk)).
  cbn [peer set_self self dial wire logged].
  (* first ping: wrong checksum, then the drain *)
  rewrite clean_loop_step. change (5 >? 0) with true.
  match goal with |- context [SpheroRaw_send_ping ?w0] =>
    destruct (ping_step w0 (peer w) m1 s1 t1
                ([ping_reply m2 s2] :: [ping_reply m3 s3] :: more))
      as (bv1 & bc1 & Ev1 & Ec1 & E1);
      [reflexivity | rewrite Hp; reflexivity | rewrite Hp; reflexivity
      | reflexivity | reflexivity |]
  end.
  vm_compute in Ev1, Ec1. inversion Ev1; inversion Ec1; subst bv1 bc1.
  cbv zeta in E1. rewrite E1. clear E1 Ev1 Ec1.
  replace (gen_checksum [Z_of_byte m1; Z_of_byte s1; 1] =? Z_of_byte t1)
    with false by (symmetry; apply Z.eqb_neq; congruence).
  unfold invalid_checksum at 1. cbv iota beta.
  unfold on_response_error at 1. unfold bind at 1.
  cbn [log modify].
  rewrite (flush_quiet _ (mkSocket [] ([ping_reply m2 s2]
                                         :: [ping_reply m3 s3] :: more)))
    by reflexivity.
  cbv iota beta.
  (* second ping: well-formed, one attempt is left *)
  rewrite clean_loop_step. change (5 - 1 >? 0) with true.
  match goal with |- context [SpheroRaw_send_ping ?w0] =>
    destruct (ping_step w0
                (mkSocket [] ([ping_reply m2 s2]
                                :: [ping_reply m3 s3] :: more))
                m2 s2 (checksum_byte [Z_of_byte m2; Z_of_byte s2; 0x01])
                ([ping_reply m3 s3] :: more))
      as (bv2 & bc2 & Ev2 & Ec2 & E2);
      [reflexivity | reflexivity | reflexivity | reflexivity | reflexivity |]
  end.
  vm_compute in Ev2, Ec2. inversion Ev2; inversion Ec2; subst bv2 bc2.
  cbv zeta in E2. rewrite E2. clear E2 Ev2 Ec2.
  rewrite Z_of_checksum_byte, Z.eqb_refl. cbv iota beta.
  change (if 5 - 1 - 1 >? 1 then 1 else 5 - 1 - 1) with 1.
  (* third ping: well-formed, the loop ends *)
  rewrite clean_loop_step. change (1 >? 0) with true.
  match goal with |- context [SpheroRaw_send_ping ?w0] =>
    destruct (ping_step w0
                (mkSocket [] ([ping_reply m3 s3] :: more))
                m3 s3 (checksum_byte [Z_of_byte m3; Z_of_byte s3; 0x01])
                more)
      as (bv3 & bc3 & Ev3 & Ec3 & E3);
      [reflexivity | reflexivity | reflexivity | reflexivity | reflexivity |]
  end.
  vm_compute in Ev3, Ec3. inversion Ev3; inversion Ec3; subst bv3 bc3.
  cbv zeta in E3. rewrite E3. clear E3 Ev3 Ec3.
  rewrite Z_of_checksum_byte, Z.eqb_refl. cbv iota beta.
  change (if 1 - 1 >? 1 then 1 else 1 - 1) with 0.
  rewrite clean_loop_step. change (0 >? 0) with false.
  cbv iota beta zeta. cbn [negb].
  eexists. split; [reflexivity|]. split.
  - cbn. rewrite <- !app_assoc. reflexivity.
  - cbn. rewrite !app_assoc. apply last_last.
Qed.

Lemma cleaning_after_corrupted_first_reply_witness :
  dial (reachable corrupt_then_valid) = repeat Refused 0 ++ Accepted :: []
  /\ (0 < 10)%nat
  /\ peer (reachable corrupt_then_valid)
     = mkSocket [] ([[xff; xff; x00; x01; x01; x00]]
                      :: [ping_reply x00 x02]
                      :: [ping_reply x00 x03] :: [])
  /\ Z_of_byte x00 <> gen_checksum [Z_of_byte x00; Z_of_byte x01; 0x01]
  /\ fst (init_sphero "68:86:E7:00:00:01" (reachable corrupt_then_valid))
     = Return (self (snd (init_sphero "68:86:E7:00:00:01"
                            (reachable corrupt_then_valid))))
  /\ wire (snd (init_sphero "68:86:E7:00:00:01"
                  (reachable corrupt_then_valid)))
     = wire (reachable corrupt_then_valid)
       ++ [EvSend (ping_frame x01 xfc); EvDrain [];
           EvSend (ping_frame x02 xfb); EvSend (ping_frame x03 xfa)]
  /\ last (logged (snd (init_sphero "68:86:E7:00:00:01"
                          (reachable corrupt_then_valid)))) (DEBUG, "")
     = (DEBUG, "Receive channel clean").
Proof.
  split; [reflexivity|]. split; [lia|]. split; [reflexivity|].
  split; [cbn; lia|].
  apply (cleaning_after_corrupted_first_reply "68:86:E7:00:00:01"
           (reachable corrupt_then_valid) 0 []
           x00 x01 x00 x00 x02 x00 x03 []).
  - reflexivity.
  - lia.
  - reflexivity.
  - cbn; lia.
Defined.

(** C3, as the specification words it, fails: with a corrupted first
    reply and well-formed ones after it, the handshake ends clean after
    three pings, not two (and one drain). *)
Lemma cleaning_sends_a_third_ping :
  sends (wire (snd (init_sphero "68:86:E7:00:00:01"
                      (reachable corrupt_then_valid)))) = 3%nat
  /\ drains (wire (snd (init_sphero "68:86:E7:00:00:01"
                          (reachable corrupt_then_valid)))) = 1%nat
  /\ last (logged (snd (init_sphero "68:86:E7:00:00:01"
                          (reachable corrupt_then_valid)))) (DEBUG, "")
     = (DEBUG, "Receive channel clean")
  /\ sends (wire (snd (init_sphero "68:86:E7:00:00:01"
                         (reachable corrupt_then_valid)))) <> 2%nat.
Proof.
  repeat split; try reflexivity. vm_compute. discriminate.
Qed.

(** * Further properties of the module *)

(** ** The sequence counter *)





(** ** Connecting and disconnecting *)

Lemma connect_loop_quiet (repeat : nat) :
  forall (s_bound : bool) (w : World),
    wire (snd (connect_loop repeat s_bound w)) = wire w
    /\ the_buffer (snd (connect_loop repeat s_bound w)) = the_buffer w
    /\ peer (snd (connect_loop repeat s_bound w)) = peer w.
Proof.
  induction repeat as [|repeat IH]; intros s_bound w.
  - cbn. auto.
  - rewrite connect_loop_S. cbv zeta.
    destruct (hd Refused (dial w)); [cbn; auto | |].
    + destruct (IH true
                  (snd (log WARNING "OSError"
                          (mkWorld (self w) (tl (dial w)) (peer w) (wire w)
                                   (logged w)))))
        as (E1 & E2 & E3).
      rewrite E1, E2, E3. cbn. auto.
    + destruct s_bound; [|cbn; auto].
      destruct (IH true
                  (snd (log WARNING "OSError"
                          (mkWorld (self w) (tl (dial w)) (peer w) (wire w)
                                   (logged w)))))
        as (E1 & E2 & E3).
      rewrite E1, E2, E3. cbn. auto.
Qed.

Lemma connect_loop_bound (repeat : nat) :
  forall w : World,
    fst (connect_loop repeat true w)
    = Return (some_success (firstn repeat (dial w)))
    /\ the_socket (snd (connect_loop repeat true w))
       = (if some_success (firstn repeat (dial w))
          then Some (peer w) else the_socket w).
Proof.
  induction repeat as [|repeat IH]; intros w.
  - cbn. auto.
  - rewrite connect_loop_S. cbv zeta.
    destruct (dial w) as [|[| |] later] eqn:Hd; cbn [hd tl firstn].
    + destruct (IH (snd (log WARNING "OSError"
                           (mkWorld (self w) [] (peer w) (wire w)
                                    (logged w)))))
        as (E1 & E2).
      rewrite E1, E2. cbn. rewrite firstn_nil. cbn. auto.
    + cbn. auto.
    + destruct (IH (snd (log WARNING "OSError"
                           (mkWorld (self w) later (peer w) (wire w)
                                    (logged w)))))
        as (E1 & E2).
      rewrite E1, E2. cbn. auto.
    + destruct (IH (snd (log WARNING "OSError"
                           (mkWorld (self w) later (peer w) (wire w)
                                    (logged w)))))
        as (E1 & E2).
      rewrite E1, E2. cbn. auto.
Qed.

Lemma connect_loop_first (repeat : nat) (w : World) :
  match hd Refused (dial w) with
  | NoSocket =>
      connect_loop (S repeat) false w
      = (Raise unbound_s,
         mkWorld (self w) (tl (dial w)) (peer w) (wire w)
                 (logged w ++ [(WARNING, "OSError")]))
  | _ =>
      fst (connect_loop (S repeat) false w)
      = Return (some_success (firstn (S repeat) (dial w)))
      /\ the_socket (snd (connect_loop (S repeat) false w))
         = (if some_success (firstn (S repeat) (dial w))
            then Some (peer w) else the_socket w)
  end.
Proof.
  rewrite connect_loop_S. cbv zeta.
  destruct (dial w) as [|[| |] later] eqn:Hd; cbn [hd tl firstn].
  - destruct (connect_loop_bound repeat
                (snd (log WARNING "OSError"
                        (mkWorld (self w) [] (peer w) (wire w) (logged w)))))
      as (E1 & E2).
    rewrite E1, E2. cbn. rewrite firstn_nil. cbn. auto.
  - cbn. auto.
  - destruct (connect_loop_bound repeat
                (snd (log WARNING "OSError"
                        (mkWorld (self w) later (peer w) (wire w)
                                 (logged w)))))
      as (E1 & E2).
    rewrite E1, E2. cbn. auto.
  - reflexivity.
Qed.

(** X2.  [connect(repeat)] with a positive budget, when its first attempt
    gets as far as making a socket, returns [True] exactly when one of the
    first [repeat] attempts is accepted; then the socket is the one that
    got through, otherwise [_socket] is left as it was.  When already the
    first attempt cannot make a socket, the handler's [s.close()] finds no
    [s]: the call ends in [UnboundLocalError] after that one warning and
    tries no further.  Nothing is written either way. *)
Theorem connect_within_budget :
  forall (repeat : Z) (w : World),
    0 < repeat ->
    wire (snd (Connection_connect repeat w)) = wire w
    /\ match hd Refused (dial w) with
       | NoSocket =>
           fst (Connection_connect repeat w) = Raise unbound_s
           /\ the_socket (snd (Connection_connect repeat w)) = the_socket w
           /\ dial (snd (Connection_connect repeat w)) = tl (dial w)
           /\ logged (snd (Connection_connect repeat w))
              = logged w ++ [(WARNING, "OSError")]
       | _ =>
           fst (Connection_connect repeat w)
           = Return (some_success (firstn (Z.to_nat repeat) (dial w)))
           /\ the_socket (snd (Connection_connect repeat w))
              = (if some_success (firstn (Z.to_nat repeat) (dial w))
                 then Some (peer w) else the_socket w)
       end.
Proof.
  intros repeat w Hr.
  destruct (connect_loop_quiet (Z.to_nat repeat) false w) as (Q & _).
  pose proof (connect_loop_first (Nat.pred (Z.to_nat repeat)) w) as F.
  replace (S (Nat.pred (Z.to_nat repeat))) with (Z.to_nat repeat) in F
    by lia.
  unfold Connection_connect, bind.
  replace (repeat <=? 0) with false by (symmetry; apply Z.leb_gt; lia).
  destruct (connect_loop (Z.to_nat repeat) false w) as [[c|e] w1];
    cbn [fst snd] in *.
  - split; [destruct c; cbn; exact Q|].
    destruct (hd Refused (dial w)); try discriminate F;
      destruct F as [E1 E2]; inversion E1 as [Ec]; rewrite <- Ec;
      rewrite <- Ec in E2; destruct c; cbn; unfold the_socket in *; cbn;
      auto.
  - split; [exact Q|].
    destruct (hd Refused (dial w));
      [destruct F as [E1 _]; discriminate E1
      | destruct F as [E1 _]; discriminate E1 |].
    inversion F; subst. cbn. auto.
Qed.

Lemma connect_within_budget_witness :
  0 < 3
  /\ wire (snd (Connection_connect 3
                  (mkWorld (Sphero_init "") [Refused; NoSocket; Accepted]
                           idle_socket [] [])))
     = wire (mkWorld (Sphero_init "") [Refused; NoSocket; Accepted]
                     idle_socket [] [])
  /\ fst (Connection_connect 3
            (mkWorld (Sphero_init "") [Refused; NoSocket; Accepted]
                     idle_socket [] []))
     = Return true
  /\ the_socket (snd (Connection_connect 3
                        (mkWorld (Sphero_init "")
                                 [Refused; NoSocket; Accepted]
                                 idle_socket [] [])))
     = Some idle_socket.
Proof.
  split; [lia|].
  apply (connect_within_budget 3
           (mkWorld (Sphero_init "") [Refused; NoSocket; Accepted]
                    idle_socket [] [])).
  lia.
Defined.

(** The first attempt cannot make a socket: [connect] gives up at once. *)
Example connect_without_a_socket :
  Connection_connect 3
    (mkWorld (Sphero_init "") [NoSocket; Accepted] idle_socket [] [])
  = (Raise unbound_s,
     mkWorld (Sphero_init "") [Accepted] idle_socket []
             [(WARNING, "OSError")]).
Proof. reflexivity. Qed.

(** X3.  When none of the first ten connection attempts succeeds,
    [init_sphero] raises and no ping is ever written: it raises
    [RuntimeError('Could not establish connection')] when the first
    attempt got as far as making a socket, and otherwise lets the
    [UnboundLocalError] of [connect] through. *)
Theorem init_sphero_needs_a_connection :
  forall (addr : string) (w : World),
    some_success (firstn 10 (dial w)) = false ->
    fst (init_sphero addr w)
    = Raise (match hd Refused (dial w) with
             | NoSocket => unbound_s
             | _ => RuntimeError "Could not establish connection"
             end)
    /\ wire (snd (init_sphero addr w)) = wire w.
Proof.
  intros addr w Hd.
  set (w0 := set_self (fun _ => Sphero_init addr) w).
  destruct (connect_loop_quiet 10 false w0) as (Q & _).
  pose proof (connect_loop_first 9 w0) as F.
  change (dial w0) with (dial w) in F. rewrite Hd in F.
  unfold init_sphero, bind, modify, SpheroRaw_connect, Connection_connect,
    bind.
  change (Z.to_nat connect_retries) with 10%nat. fold w0.
  destruct (connect_loop 10 false w0) as [[c|e] w1]; cbn [fst snd] in *.
  - destruct (hd Refused (dial w)); try discriminate F;
      destruct F as [E1 _]; inversion E1; subst c; cbn;
      (split; [reflexivity | exact Q]).
  - destruct (hd Refused (dial w));
      [destruct F as [E1 _]; discriminate E1
      | destruct F as [E1 _]; discriminate E1 |].
    inversion F; subst. cbn. split; reflexivity.
Qed.

Lemma init_sphero_needs_a_connection_witness :
  some_success (firstn 10 (dial (mkWorld (Sphero_init "") [] idle_socket
                                         [] []))) = false
  /\ fst (init_sphero "68:86:E7:00:00:01"
            (mkWorld (Sphero_init "") [] idle_socket [] []))
     = Raise (RuntimeError "Could not establish connection")
  /\ wire (snd (init_sphero "68:86:E7:00:00:01"
                  (mkWorld (Sphero_init "") [] idle_socket [] [])))
     = wire (mkWorld (Sphero_init "") [] idle_socket [] []).
Proof.
  split; [reflexivity|].
  apply (init_sphero_needs_a_connection "68:86:E7:00:00:01"
           (mkWorld (Sphero_init "") [] idle_socket [] [])).
  reflexivity.
Defined.

(** No socket can be made at all: the caller of [init_sphero] sees the
    [UnboundLocalError], not the [RuntimeError]. *)
Example init_sphero_without_a_socket :
  fst (init_sphero "68:86:E7:00:00:01"
         (mkWorld (Sphero_init "") [NoSocket] idle_socket [] []))
  = Raise unbound_s.
Proof. reflexivity. Qed.

(** X4.  After [disconnect()] the connection refuses further use:
    [send] and a second [disconnect] raise [RuntimeError('Not connected')]
    and write nothing, while bytes already buffered by [read] are kept. *)
Theorem no_use_after_disconnect :
  forall (w : World) (sk : socket) (data : bytes),
    the_socket w = Some sk ->
    fst (Connection_disconnect w) = Return tt
    /\ the_buffer (snd (Connection_disconnect w)) = the_buffer w
    /\ Connection_send data (snd (Connection_disconnect w))
       = (Raise (RuntimeError "Not connected"), snd (Connection_disconnect w))
    /\ Connection_disconnect (snd (Connection_disconnect w))
       = (Raise (RuntimeError "Not connected"), snd (Connection_disconnect w)).
Proof.
  intros w sk data H.
  unfold Connection_disconnect, Connection_send, bind, gets, modify, raise.
  rewrite H. cbn. auto.
Qed.

Lemma no_use_after_disconnect_witness :
  the_socket (bench idle_socket) = Some idle_socket
  /\ fst (Connection_disconnect (bench idle_socket)) = Return tt
  /\ the_buffer (snd (Connection_disconnect (bench idle_socket)))
     = the_buffer (bench idle_socket)
  /\ Connection_send [x01] (snd (Connection_disconnect (bench idle_socket)))
     = (Raise (RuntimeError "Not connected"),
        snd (Connection_disconnect (bench idle_socket)))
  /\ Connection_disconnect (snd (Connection_disconnect (bench idle_socket)))
     = (Raise (RuntimeError "Not connected"),
        snd (Connection_disconnect (bench idle_socket))).
Proof.
  split; [reflexivity|].
  apply (no_use_after_disconnect (bench idle_socket) idle_socket [x01]).
  reflexivity.
Defined.

(** ** Reading from the stream *)

Lemma pending_cons_nonempty (b : byte) (seg : bytes) (rest : list bytes) :
  pending ((b :: seg) :: rest) = (b :: seg) ++ pending rest.
Proof. reflexivity. Qed.

Lemma socket_recv_stream bufsize sk :
  0 < bufsize ->
  fst (socket_recv bufsize sk) ++ pending (rx (snd (socket_recv bufsize sk)))
  = pending (rx sk)
  /\ len (fst (socket_recv bufsize sk)) <= bufsize
  /\ (fst (socket_recv bufsize sk) = [] -> pending (rx sk) = [])
  /\ script (snd (socket_recv bufsize sk)) = script sk.
Proof.
  intros Hb. unfold socket_recv.
  destruct (rx sk) as [|[|b seg] rest] eqn:Hrx; cbn [fst snd].
  - rewrite Hrx. cbn. repeat split; auto; lia.
  - rewrite Hrx. cbn. repeat split; auto; lia.
  - destruct (Z.leb_spec (len (b :: seg)) bufsize) as [Hle|Hgt];
      cbn [fst snd rx script].
    + repeat split; auto. discriminate.
    + unfold slice_to, slice_from.
      replace (bufsize <? 0) with false by (symmetry; apply Z.ltb_ge; lia).
      assert (Hn : (Z.to_nat bufsize < List.length (b :: seg))%nat)
        by (unfold len in Hgt; lia).
      destruct (skipn (Z.to_nat bufsize) (b :: seg)) as [|c tl] eqn:Hsk.
      { apply (f_equal (@List.length byte)) in Hsk.
        rewrite length_skipn in Hsk. cbn [List.length] in *. lia. }
      rewrite pending_cons_nonempty, <- Hsk, app_assoc, firstn_skipn.
      repeat split; auto.
      * unfold len. rewrite length_firstn. lia.
      * intros E. apply (f_equal (@List.length byte)) in E.
        rewrite length_firstn in E. cbn [List.length] in *. lia.
Qed.

Lemma read_loop_stream to_read w :
  forall sk : socket,
    the_socket w = Some sk ->
    exists sk' : socket,
      the_socket (snd (read_loop to_read w)) = Some sk'
      /\ script sk' = script sk
      /\ the_buffer (snd (read_loop to_read w)) ++ pending (rx sk')
         = the_buffer w ++ pending (rx sk)
      /\ wire (snd (read_loop to_read w)) = wire w
      /\ match fst (read_loop to_read w) with
         | Return _ =>
             len (the_buffer (snd (read_loop to_read w)))
             = len (the_buffer w) + Z.max 0 to_read
         | Raise e =>
             e = no_error_attribute
             /\ pending (rx sk') = []
             /\ len (the_buffer (snd (read_loop to_read w)))
                < len (the_buffer w) + to_read
         end.
Proof.
  funelim (read_loop to_read w); intros sk0 Hs;
    try (rewrite <- Heqcall; clear Heqcall); cbn [fst snd].
  - exists sk0. repeat split; auto. lia.
  - congruence.
  - rewrite Hs in Heq0. inversion Heq0; subst sk0.
    destruct (socket_recv_stream to_read sk ltac:(lia)) as (S1 & S2 & S3 & S4).
    rewrite Heq in S1, S2, S3, S4. cbn [fst snd] in *. simpl app in S1.
    exists sk'. cbn. repeat split; auto.
    + rewrite S1. reflexivity.
    + rewrite S1. apply S3. reflexivity.
    + unfold the_buffer. lia.
  - rewrite Hs in Heq0. inversion Heq0; subst sk0.
    destruct (socket_recv_stream to_read sk ltac:(lia)) as (S1 & S2 & S3 & S4).
    rewrite Heq in S1, S2, S3, S4. cbn [fst snd] in *.
    match goal with IH : forall sk1, the_socket ?w1 = Some sk1 -> _ |- _ =>
      destruct (IH sk' eq_refl) as (sk2 & I1 & I2 & I3 & I4 & I5)
    end.
    exists sk2. split; [exact I1|]. split; [congruence|].
    cbn [the_buffer set_buffer set_socket set_conn set_self self _conn
         _buffer wire] in I3, I4, I5.
    split; [rewrite I3, <- app_assoc, S1; reflexivity|].
    split; [exact I4|].
    rewrite len_app in I5.
    destruct (fst (read_loop _ _)).
    + lia.
    + destruct I5 as (J1 & J2 & J3). repeat split; auto. lia.
Qed.

Lemma read_loop_seq to_read w :
  seq (self (snd (read_loop to_read w))) = seq (self w).
Proof.
  funelim (read_loop to_read w); try (rewrite <- Heqcall); cbn [snd];
    try reflexivity.
  rewrite H. reflexivity.
Qed.

Lemma Connection_read_stream w sk size :
  the_socket w = Some sk ->
  0 <= size <= len (the_buffer w) + len (pending (rx sk)) ->
  exists (w1 : World) (sk1 : socket),
    Connection_read size w
    = (Return (firstn (Z.to_nat size) (the_buffer w ++ pending (rx sk))), w1)
    /\ the_socket w1 = Some sk1
    /\ the_buffer w1 ++ pending (rx sk1)
       = skipn (Z.to_nat size) (the_buffer w ++ pending (rx sk))
    /\ wire w1 = wire w
    /\ seq (self w1) = seq (self w).
Proof.
  intros Hs Hsize.
  destruct (read_loop_stream (size - len (the_buffer w)) w sk Hs)
    as (sk' & R1 & R2 & R3 & R4 & R5).
  pose proof (read_loop_seq (size - len (the_buffer w)) w) as Rq.
  unfold Connection_read, bind, gets, modify, ret.
  destruct (read_loop (size - len (the_buffer w)) w) as [[[]|e] w1];
    cbn [fst snd] in *.
  - exists (set_buffer (skipn (Z.to_nat size) (the_buffer w1)) w1), sk'.
    unfold slice_to, slice_from.
    replace (size <? 0) with false by (symmetry; apply Z.ltb_ge; lia).
    assert (Hl : (Z.to_nat size <= List.length (the_buffer w1))%nat)
      by (unfold len in *; lia).
    split; [|split; [exact R1|split; [|split; [exact R4 | exact Rq]]]].
    + rewrite <- R3, firstn_app.
      replace (Z.to_nat size - List.length (the_buffer w1))%nat with 0%nat
        by lia.
      cbn [firstn]. rewrite app_nil_r. reflexivity.
    + cbn [the_buffer set_buffer set_conn set_self self _conn _buffer].
      fold (the_buffer w1). rewrite <- R3, skipn_app.
      replace (Z.to_nat size - List.length (the_buffer w1))%nat with 0%nat
        by lia.
      reflexivity.
  - destruct R5 as (_ & P & L).
    apply (f_equal len) in R3. rewrite !len_app, P in R3.
    change (len (@nil byte)) with 0 in R3. exfalso. lia.
Qed.

(** X5.  When what is buffered and what the transport still delivers make
    up at least [size] bytes, [read(size)] returns exactly the next [size]
    bytes of the stream, in order and however the transport cuts it into
    segments; the bytes after them stay available (in the buffer or the
    socket) for the next read. *)
Theorem read_returns_next_bytes :
  forall (w : World) (sk : socket) (size : Z),
    the_socket w = Some sk ->
    0 <= size <= len (the_buffer w) + len (pending (rx sk)) ->
    exists sk' : socket,
      fst (Connection_read size w)
      = Return (firstn (Z.to_nat size) (the_buffer w ++ pending (rx sk)))
      /\ the_socket (snd (Connection_read size w)) = Some sk'
      /\ the_buffer (snd (Connection_read size w)) ++ pending (rx sk')
         = skipn (Z.to_nat size) (the_buffer w ++ pending (rx sk)).
Proof.
  intros w sk size Hs Hsize.
  destruct (Connection_read_stream w sk size Hs Hsize)
    as (w1 & sk1 & E & H1 & H2 & _).
  exists sk1. rewrite E. cbn [fst snd]. auto.
Qed.

Lemma read_returns_next_bytes_witness :
  the_socket (bench (mkSocket [[x01; x02]; [x03; x04; x05]] []))
  = Some (mkSocket [[x01; x02]; [x03; x04; x05]] [])
  /\ 0 <= 3 <= len (the_buffer (bench (mkSocket [[x01; x02]; [x03; x04; x05]]
                                                 [])))
               + len (pending (rx (mkSocket [[x01; x02]; [x03; x04; x05]] [])))
  /\ exists sk' : socket,
      fst (Connection_read 3 (bench (mkSocket [[x01; x02]; [x03; x04; x05]]
                                              [])))
      = Return (firstn (Z.to_nat 3)
                  (the_buffer (bench (mkSocket [[x01; x02]; [x03; x04; x05]]
                                               []))
                   ++ pending (rx (mkSocket [[x01; x02]; [x03; x04; x05]]
                                            []))))
      /\ the_socket (snd (Connection_read 3
                            (bench (mkSocket [[x01; x02]; [x03; x04; x05]]
                                             [])))) = Some sk'
      /\ the_buffer (snd (Connection_read 3
                            (bench (mkSocket [[x01; x02]; [x03; x04; x05]]
                                             []))))
         ++ pending (rx sk')
         = skipn (Z.to_nat 3)
             (the_buffer (bench (mkSocket [[x01; x02]; [x03; x04; x05]] []))
              ++ pending (rx (mkSocket [[x01; x02]; [x03; x04; x05]] []))).
Proof.
  split; [reflexivity|]. split; [cbn; lia|].
  apply (read_returns_next_bytes
           (bench (mkSocket [[x01; x02]; [x03; x04; x05]] []))
           (mkSocket [[x01; x02]; [x03; x04; x05]] []) 3).
  - reflexivity.
  - cbn; lia.
Defined.

(** X6.  [flush()] never raises, whether or not there is a socket, and it
    never touches the bytes [read] has buffered; on an open socket it takes
    at most 1024 bytes, the next ones of the stream, off the line. *)
Theorem flush_is_harmless :
  forall w : World,
    fst (Connection_flush w) = Return tt
    /\ the_buffer (snd (Connection_flush w)) = the_buffer w
    /\ match the_socket w with
       | None =>
           the_socket (snd (Connection_flush w)) = None
           /\ wire (snd (Connection_flush w)) = wire w
       | Some sk =>
           exists (data : bytes) (sk' : socket),
             the_socket (snd (Connection_flush w)) = Some sk'
             /\ wire (snd (Connection_flush w)) = wire w ++ [EvDrain data]
             /\ len data <= 1024
             /\ data ++ pending (rx sk') = pending (rx sk)
       end.
Proof.
  intros w. unfold Connection_flush, try_except, bind, gets.
  destruct (the_socket w) as [sk|] eqn:Hs.
  - destruct (socket_recv_stream 1024 sk ltac:(lia)) as (S1 & S2 & _).
    destruct (socket_recv 1024 sk) as [data sk']. cbn [fst snd] in *.
    cbn. repeat split. exists data, sk'. auto.
  - cbn. unfold the_socket, the_buffer in *. cbn. auto.
Qed.

(** ** Frames written by [send_msg] *)

Lemma sum_acc l : forall a, fold_left Z.add l a = a + sum l.
Proof.
  unfold sum. induction l as [|y l IH]; intros a; cbn [fold_left].
  - lia.
  - rewrite IH, (IH (0 + y)). lia.
Qed.

Lemma sum_cons z l : sum (z :: l) = z + sum l.
Proof. unfold sum at 1. cbn [fold_left]. rewrite sum_acc. lia. Qed.

Lemma sum_app l1 l2 : sum (l1 ++ l2) = sum l1 + sum l2.
Proof.
  induction l1 as [|z l1 IH]; cbn [app].
  - reflexivity.
  - rewrite !sum_cons, IH. lia.
Qed.

Lemma checksum_completes t : (t + (255 - t mod 256)) mod 256 = 255.
Proof.
  pose proof (Z.div_mod t 256 ltac:(lia)) as D.
  replace (t + (255 - t mod 256)) with (255 + (t / 256) * 256) by lia.
  rewrite Z.mod_add by lia. reflexivity.
Qed.

Lemma bytes_of_ints_6 a b c d e f head :
  bytes_of_ints [a; b; c; d; e; f] = Some head ->
  exists a' b' c' d' e' f',
    head = [a'; b'; c'; d'; e'; f']
    /\ Z_of_byte a' = a /\ Z_of_byte b' = b /\ Z_of_byte c' = c
    /\ Z_of_byte d' = d /\ Z_of_byte e' = e /\ Z_of_byte f' = f.
Proof.
  intros E. apply bytes_of_ints_inv in E.
  destruct head as [|a' [|b' [|c' [|d' [|e' [|f' [|g' head]]]]]]];
    try discriminate E.
  cbn in E. inversion E. exists a', b', c', d', e', f'. repeat split.
Qed.

Lemma write_frame_full sop2 did cid data seq w :
  match fst (write_frame sop2 did cid data seq w) with
  | Return _ =>
      exists (f d c s l k : byte) (sk : socket),
        the_socket w = Some sk
        /\ Z_of_byte f = sop2 /\ Z_of_byte d = did /\ Z_of_byte c = cid
        /\ Z_of_byte s = match seq with None => 0x00 | Some v => v end
        /\ Z_of_byte l = len (payload data) + 1
        /\ Z_of_byte k
           = gen_checksum (did :: cid
                             :: match seq with None => 0x00 | Some v => v end
                             :: len (payload data) + 1
                             :: map Z_of_byte (payload data))
        /\ snd (write_frame sop2 did cid data seq w)
           = emit (EvSend ([xff; f; d; c; s; l] ++ payload data ++ [k]))
               (set_socket
                  (Some (snd (socket_send
                                ([xff; f; d; c; s; l] ++ payload data ++ [k])
                                sk))) w)
  | Raise _ => snd (write_frame sop2 did cid data seq w) = w
  end.
Proof.
  unfold write_frame. cbv zeta. fold (payload data).
  set (sq0 := match seq with None => 0x00 | Some v0 => v0 end).
  unfold bind, mk_bytes.
  destruct (bytes_of_ints [0xff; sop2; did; cid; sq0; len (payload data) + 1])
    as [head|] eqn:Eh; [|reflexivity].
  cbn [bytes_of_ints].
  destruct (byte_of_Z (gen_checksum _)) as [k|] eqn:Ek; [|reflexivity].
  cbn [ret raise fst snd].
  destruct (the_socket w) as [sk|] eqn:Hs.
  - rewrite (Connection_send_connected _ _ _ Hs). cbn [fst snd ret].
    destruct (bytes_of_ints_6 _ _ _ _ _ _ _ Eh)
      as (a' & f & d & c & s & l & -> & Ea & Ef & Ed & Ec & Es & El).
    assert (a' = xff) as ->.
    { pose proof (byte_of_Z_of_byte a') as B. rewrite Ea in B.
      vm_compute in B. congruence. }
    exists f, d, c, s, l, k, sk.
    repeat split; auto. apply byte_of_Z_inv. exact Ek.
  - rewrite (Connection_send_unconnected _ _ Hs). reflexivity.
Qed.

(** X7.  On a connected session [send_msg] writes a frame whenever the
    device id, the command id and the sequence number fit a byte and the
    payload has at most 254 bytes.  Every frame it writes, in any state,
    starts with FF and a second byte 0xFC + 2 (if [reset]) + 1 (if
    [answer]), carries the device id, the command id and the payload
    unchanged, is 7 bytes longer than the payload, and ends in a byte that
    makes the sum of everything after the two start bytes congruent to 255
    modulo 256; when the call raises, nothing was written. *)
Theorem frame_well_formed :
  forall (did cid : Z) (data : option bytes) (answer reset : bool)
         (sq : option Z) (w : World),
    (forall sk : socket,
        the_socket w = Some sk ->
        0 <= did <= 255 ->
        0 <= cid <= 255 ->
        len (payload data) <= 254 ->
        match sq with
        | Some v => 0 <= v <= 255
        | None => answer = true -> 0 < modulus (seq (self w)) <= 256
        end ->
        fst (SpheroRaw_send_msg did cid data answer reset sq w) = Return tt)
    /\ match fst (SpheroRaw_send_msg did cid data answer reset sq w) with
       | Return _ =>
           exists f d c s l k : byte,
             wire (snd (SpheroRaw_send_msg did cid data answer reset sq w))
             = wire w
                 ++ [EvSend ([xff; f; d; c; s; l] ++ payload data ++ [k])]
             /\ Z_of_byte f
                = 0xfc + (if reset then 2 else 0) + (if answer then 1 else 0)
             /\ Z_of_byte d = did
             /\ Z_of_byte c = cid
             /\ sum (map Z_of_byte ([d; c; s; l] ++ payload data ++ [k]))
                mod 256 = 255
       | Raise _ =>
           wire (snd (SpheroRaw_send_msg did cid data answer reset sq w))
           = wire w
       end.
Proof.
  intros did cid data answer reset sq w.
  split; [intros sk; apply send_msg_returns|].
  rewrite send_msg_unfold. unfold bind at 1.
  assert (G : forall sq' w',
    wire w' = wire w ->
    match fst (write_frame (start_flags answer reset) did cid data sq' w') with
    | Return _ =>
        exists f d c s l k : byte,
          wire (snd (write_frame (start_flags answer reset) did cid data
                       sq' w'))
          = wire w ++ [EvSend ([xff; f; d; c; s; l] ++ payload data ++ [k])]
          /\ Z_of_byte f
             = 0xfc + (if reset then 2 else 0) + (if answer then 1 else 0)
          /\ Z_of_byte d = did
          /\ Z_of_byte c = cid
          /\ sum (map Z_of_byte ([d; c; s; l] ++ payload data ++ [k]))
             mod 256 = 255
    | Raise _ =>
        wire (snd (write_frame (start_flags answer reset) did cid data
                     sq' w'))
        = wire w
    end).
  { intros sq' w' Hw.
    pose proof (write_frame_full (start_flags answer reset) did cid data
                  sq' w') as F.
    destruct (fst (write_frame _ did cid data sq' w'));
      [|rewrite F; exact Hw].
    destruct F as (f & d & c & s & l & k & sk & _ & Ef & Ed & Ec & Es & El
                   & Ek & ->).
    exists f, d, c, s, l, k. cbn [wire emit set_socket set_conn set_self].
    rewrite Hw. split; [reflexivity|].
    split; [rewrite Ef; destruct answer, reset; reflexivity|].
    split; [exact Ed|]. split; [exact Ec|].
    rewrite !map_app, !sum_app. cbn [map]. rewrite !sum_cons.
    change (sum []) with 0.
    rewrite Ek, gen_checksum_value, !sum_cons, Ed, Ec, Es, El.
    set (t := did + (cid + (match sq' with Some v => v | None => 0 end
                            + (len (payload data) + 1
                               + sum (map Z_of_byte (payload data)))))).
    transitivity ((t + (255 - t mod 256)) mod 256);
      [f_equal; subst t; lia | apply checksum_completes]. }
  destruct answer; [destruct sq as [v|]|]; cbn [ret].
  - apply G. reflexivity.
  - unfold bind, seq_next, BoundCounter_next.
    destruct (modulus (seq (self w)) =? 0); cbn [ret fst].
    + reflexivity.
    + apply G. reflexivity.
  - apply G. reflexivity.
Qed.

Lemma frame_well_formed_witness :
  fst (SpheroRaw_send_msg DID_SPHERO CMD_ROLL
         (Some [x64; x00; xb4; x01]) false true None (bench idle_socket))
  = Return tt
  /\ exists f d c s l k : byte,
       wire (snd (SpheroRaw_send_msg DID_SPHERO CMD_ROLL
                    (Some [x64; x00; xb4; x01]) false true None
                    (bench idle_socket)))
       = wire (bench idle_socket)
           ++ [EvSend ([xff; f; d; c; s; l]
                         ++ payload (Some [x64; x00; xb4; x01]) ++ [k])]
       /\ Z_of_byte f = 0xfc + 2 + 0
       /\ Z_of_byte d = DID_SPHERO
       /\ Z_of_byte c = CMD_ROLL
       /\ sum (map Z_of_byte
                 ([d; c; s; l] ++ payload (Some [x64; x00; xb4; x01])
                    ++ [k]))
          mod 256 = 255.
Proof.
  destruct (frame_well_formed DID_SPHERO CMD_ROLL
              (Some [x64; x00; xb4; x01]) false true None
              (bench idle_socket)) as [Sent Frame].
  assert (R : fst (SpheroRaw_send_msg DID_SPHERO CMD_ROLL
                     (Some [x64; x00; xb4; x01]) false true None
                     (bench idle_socket)) = Return tt).
  { apply (Sent idle_socket);
      [reflexivity | unfold DID_SPHERO; lia | unfold CMD_ROLL; lia
      | cbn; lia | discriminate]. }
  split; [exact R|].
  rewrite R in Frame. exact Frame.
Defined.

Lemma write_frame_seq sop2 did cid data sq w :
  seq (self (snd (write_frame sop2 did cid data sq w))) = seq (self w)
  /\ match fst (write_frame sop2 did cid data sq w) with
     | Return _ =>
         exists frame : bytes,
           wire (snd (write_frame sop2 did cid data sq w))
           = wire w ++ [EvSend frame]
           /\ option_map Z_of_byte (nth_error frame 4)
              = Some (match sq with None => 0x00 | Some v => v end)
     | Raise _ => wire (snd (write_frame sop2 did cid data sq w)) = wire w
     end.
Proof.
  pose proof (write_frame_full sop2 did cid data sq w) as F.
  destruct (fst (write_frame sop2 did cid data sq w)).
  - destruct F as (f & d & c & s & l & k & sk & _ & _ & _ & _ & Es & _ & _
                   & ->).
    split; [reflexivity|]. eexists. split; [reflexivity|].
    cbn. rewrite Es. reflexivity.
  - rewrite F. split; reflexivity.
Qed.

(** X8.  [send_msg] draws on the sequence counter only when an answer is
    requested and no sequence number is given: then the counter is advanced
    once, even if the frame cannot be written afterwards, and the new value
    is the frame's sequence byte.  Otherwise the counter is left alone and
    the byte is the given number, or 0. *)
Theorem send_msg_sequence :
  forall (did cid : Z) (data : option bytes) (answer reset : bool)
         (sq : option Z) (w : World),
    seq (self (snd (SpheroRaw_send_msg did cid data answer reset sq w)))
    = (if answer
       then match sq with
            | None => snd (BoundCounter_next (seq (self w)))
            | Some _ => seq (self w)
            end
       else seq (self w))
    /\ match fst (SpheroRaw_send_msg did cid data answer reset sq w) with
       | Return _ =>
           exists frame : bytes,
             wire (snd (SpheroRaw_send_msg did cid data answer reset sq w))
             = wire w ++ [EvSend frame]
             /\ option_map Z_of_byte (nth_error frame 4)
                = Some (match sq with
                        | Some v => v
                        | None =>
                            if answer
                            then n (snd (BoundCounter_next (seq (self w))))
                            else 0x00
                        end)
       | Raise _ =>
           wire (snd (SpheroRaw_send_msg did cid data answer reset sq w))
           = wire w
       end.
Proof.
  intros did cid data answer reset sq w.
  rewrite send_msg_unfold. unfold bind at 1 2 3.
  destruct answer; [destruct sq as [v|]|]; cbn [ret].
  - apply (write_frame_seq _ _ _ _ (Some v) w).
  - unfold bind, seq_next, BoundCounter_next.
    destruct (modulus (seq (self w)) =? 0); cbn [ret fst snd].
    + split; reflexivity.
    + apply (write_frame_seq _ _ _ _ (Some _) (set_seq _ w)).
  - destruct (write_frame_seq (start_flags false reset) did cid data sq w)
      as [Q F].
    split; [exact Q|]. destruct sq; exact F.
Qed.

(** ** More on decoding *)

Lemma Z_of_byte_inj a b : Z_of_byte a = Z_of_byte b -> a = b.
Proof.
  intros E. pose proof (byte_of_Z_of_byte a) as Ha.
  rewrite E, byte_of_Z_of_byte in Ha. congruence.
Qed.

Lemma lor_low_high a b :
  0 <= a < 256 -> 0 <= b -> Z.lor a (Z.shiftl b 8) = a + 256 * b.
Proof.
  intros Ha Hb.
  assert (L : Z.land a (Z.shiftl b 8) = 0).
  { apply Z.bits_inj'. intros k Hk.
    rewrite Z.land_spec, Z.bits_0, Z.shiftl_spec by lia.
    destruct (Z.ltb_spec k 8) as [Hlt|Hge].
    - rewrite (Z.testbit_neg_r b) by lia. apply andb_false_r.
    - destruct (Z.eq_dec a 0) as [->|Hnz].
      + rewrite Z.bits_0. reflexivity.
      + rewrite (Z.bits_above_log2 a k); [reflexivity | lia |].
        assert (Z.log2 a < 8) by (apply Z.log2_lt_pow2; lia). lia. }
  rewrite <- Z.lxor_lor, <- Z.add_nocarry_lxor by exact L.
  rewrite Z.shiftl_mul_pow2 by lia. change (2 ^ 8) with 256. lia.
Qed.

Lemma body_length_value c2 c4 c5 :
  body_length c2 c4 c5
  = if Z_of_byte c2 =? 0xfe then 256 * Z_of_byte c4 + Z_of_byte c5
    else Z_of_byte c5.
Proof.
  unfold body_length. cbv zeta.
  destruct (Z_of_byte c2 =? 0xfe); [|reflexivity].
  pose proof (Z_of_byte_range c4). pose proof (Z_of_byte_range c5).
  rewrite lor_low_high by lia. lia.
Qed.

Lemma check_body_raises {A} (make : option (bytes -> option A))
      c2 c3 c4 c5 body w e :
  fst (check_body make c2 c3 c4 c5 body w) = Raise e ->
  e = RuntimeError "Not connected"
  \/ e = StructError "unpack requires a buffer of the right size"
  \/ e = invalid_checksum.
Proof.
  unfold check_body. destruct body as [|b body'].
  - unfold bind, log, modify, Connection_disconnect, gets, raise, ret,
      the_socket.
    cbn. destruct (_socket (_conn (self w))); cbn; intros E; inversion E.
    auto.
  - cbv zeta.
    destruct (_ =? _).
    + unfold bind, ret, raise. destruct make as [f|].
      * destruct (f _); cbn; intros E; inversion E. auto.
      * cbn. discriminate.
    + unfold bind, log, modify, raise. cbn. intros E. inversion E. auto.
Qed.

(** X9.  A reply header that passes the framing check and declares no
    body at all (length byte 0, and a zero high byte when the second start
    byte is 0xFE) is refused with [ResponseError('Invalid body length: 0')]
    before anything more is read, and only such a header is. *)
Theorem empty_body_is_refused :
  forall (A : Type) (make : option (bytes -> option A)) (w w1 : World)
         (c1 c2 c3 c4 c5 : byte),
    Connection_read 5 w = (Return [c1; c2; c3; c4; c5], w1) ->
    c1 = xff ->
    c2 = xfe \/ c2 = xff ->
    (fst (SpheroRaw_recv_msg make w)
     = Raise (ResponseError "Invalid body length: 0")
     <-> c5 = x00 /\ (c2 = xff \/ c4 = x00))
    /\ (c5 = x00 -> c2 = xff \/ c4 = x00 ->
        snd (SpheroRaw_recv_msg make w) = w1).
Proof.
  intros A make w w1 c1 c2 c3 c4 c5 H Hc1 Hc2.
  rewrite (recv_msg_header make _ _ _ _ _ _ _ H).
  unfold after_header.
  assert (T : negb (Z_of_byte c1 =? 0xff)
              || negb (Z.land (Z_of_byte c2) 0xfe =? 0xfe) = false).
  { destruct (negb _ || negb _) eqn:T; [|reflexivity].
    apply framing_test in T. subst c1. destruct Hc2; subst c2; tauto. }
  rewrite T.
  pose proof (Z_of_byte_range c4) as R4. pose proof (Z_of_byte_range c5) as R5.
  assert (Z0 : forall c, Z_of_byte c = 0 <-> c = x00).
  { intros c. split; [|intros ->; reflexivity].
    intros E. apply Z_of_byte_inj. rewrite E. reflexivity. }
  assert (C : body_length c2 c4 c5 < 1 <-> c5 = x00 /\ (c2 = xff \/ c4 = x00)).
  { rewrite body_length_value, <- !Z0.
    destruct Hc2 as [-> | ->].
    - change (Z_of_byte xfe =? 254) with true. cbv iota.
      split; [intros L; split; [lia | right; lia]|].
      intros [E [D|E4]]; [discriminate D | lia].
    - change (Z_of_byte xff =? 254) with false. cbv iota.
      split; [intros L; split; [lia | left; reflexivity] | intros [E _]; lia]. }
  destruct (Z.ltb_spec (body_length c2 c4 c5) 1) as [Hlt|Hge].
  - assert (D : body_length c2 c4 c5 = 0).
    { pose proof (body_length_value c2 c4 c5) as V.
      destruct (Z_of_byte c2 =? 254); lia. }
    rewrite D. cbn [raise fst snd].
    split; [|reflexivity].
    split; [intros _; apply C; lia | reflexivity].
  - split.
    + split.
      * intros E. exfalso. unfold bind in E.
        pose proof (Connection_read_raises (body_length c2 c4 c5) w1) as R.
        destruct (Connection_read (body_length c2 c4 c5) w1)
          as [[body|e'] w2]; cbn [fst] in *.
        -- apply check_body_raises in E.
           destruct E as [E|[E|E]]; discriminate E.
        -- inversion E; subst e'.
           destruct (R _ eq_refl) as [D|D]; discriminate D.
      * intros Cz. apply C in Cz. lia.
    + intros E5 E4. exfalso. assert (body_length c2 c4 c5 < 1); [|lia].
      apply C. auto.
Qed.

Lemma empty_body_is_refused_witness :
  Connection_read 5 (bench (mkSocket [[xff; xff; x00; x01; x00]] []))
  = (Return [xff; xff; x00; x01; x00],
     snd (Connection_read 5
            (bench (mkSocket [[xff; xff; x00; x01; x00]] []))))
  /\ xff = xff
  /\ (xff = xfe \/ xff = xff)
  /\ (fst (SpheroRaw_recv_msg (A:=Empty_set) None
             (bench (mkSocket [[xff; xff; x00; x01; x00]] [])))
      = Raise (ResponseError "Invalid body length: 0")
      <-> x00 = x00 /\ (xff = xff \/ x01 = x00))
  /\ (x00 = x00 -> xff = xff \/ x01 = x00 ->
      snd (SpheroRaw_recv_msg (A:=Empty_set) None
             (bench (mkSocket [[xff; xff; x00; x01; x00]] [])))
      = snd (Connection_read 5
               (bench (mkSocket [[xff; xff; x00; x01; x00]] [])))).
Proof.
  split; [reflexivity|]. split; [reflexivity|]. split; [right; reflexivity|].
  apply (empty_body_is_refused Empty_set None
           (bench (mkSocket [[xff; xff; x00; x01; x00]] []))
           (snd (Connection_read 5
                   (bench (mkSocket [[xff; xff; x00; x01; x00]] []))))
           xff xff x00 x01 x00).
  - reflexivity.
  - reflexivity.
  - right; reflexivity.
Defined.

Lemma firstn_len_app {A} (l1 l2 : list A) :
  firstn (Z.to_nat (len l1)) (l1 ++ l2) = l1.
Proof.
  unfold len. rewrite Nat2Z.id, firstn_app, Nat.sub_diag, firstn_all.
  cbn [firstn]. apply app_nil_r.
Qed.

Lemma skipn_len_app {A} (l1 l2 : list A) :
  skipn (Z.to_nat (len l1)) (l1 ++ l2) = l2.
Proof.
  unfold len. rewrite Nat2Z.id, skipn_app, Nat.sub_diag, skipn_all.
  reflexivity.
Qed.

Lemma slice_to_minus_one {A} (l : list A) (a : A) :
  slice_to (-1) (l ++ [a]) = l.
Proof.
  unfold slice_to. change (-1 <? 0) with true. cbv iota.
  rewrite len_app. change (len [a]) with 1.
  replace (len l + 1 + -1) with (len l) by lia.
  apply firstn_len_app.
Qed.

(** What [recv_msg] hands back for a reply with these header bytes, this
    content and this trailing byte. *)
Lemma decode_well_formed {A} (make : option (bytes -> option A))
      w sk c2 c3 c4 c5 content k rest :
  the_socket w = Some sk ->
  the_buffer w ++ pending (rx sk)
  = [xff; c2; c3; c4; c5] ++ content ++ [k] ++ rest ->
  (c2 = xff /\ Z_of_byte c5 = len content + 1)
  \/ (c2 = xfe /\ 256 * Z_of_byte c4 + Z_of_byte c5 = len content + 1) ->
  Z_of_byte k
  = gen_checksum (Z_of_byte c3 :: Z_of_byte c4 :: Z_of_byte c5
                    :: map Z_of_byte content) ->
  exists (w2 : World) (sk2 : socket),
    the_socket w2 = Some sk2
    /\ the_buffer w2 ++ pending (rx sk2) = rest
    /\ wire w2 = wire w
    /\ seq (self w2) = seq (self w)
    /\ SpheroRaw_recv_msg make w
       = match make with
         | None =>
             (Return (Some (Z_of_byte c2, Z_of_byte c3, Z_of_byte c4,
                            Z_of_byte c5, Z_of_byte k, inl content,
                            Z_of_byte k)), w2)
         | Some f =>
             match f content with
             | Some v =>
                 (Return (Some (Z_of_byte c2, Z_of_byte c3, Z_of_byte c4,
                                Z_of_byte c5, Z_of_byte k, inr v,
                                Z_of_byte k)), w2)
             | None =>
                 (Raise (StructError
                           "unpack requires a buffer of the right size"), w2)
             end
         end.
Proof.
  intros Hs Hst Hlen Hk.
  destruct (Connection_read_stream w sk 5 Hs) as (w1 & sk1 & E1 & S1 & B1
                                                  & W1 & Q1).
  { apply (f_equal len) in Hst. rewrite !len_app in Hst.
    rewrite Hst.
    change (len [xff; c2; c3; c4; c5]) with 5.
    pose proof (len_nonneg content). pose proof (len_nonneg [k]).
    pose proof (len_nonneg rest). lia. }
  rewrite Hst in E1, B1.
  change (Z.to_nat 5) with (Z.to_nat (len [xff; c2; c3; c4; c5])) in E1, B1.
  rewrite firstn_len_app in E1. rewrite skipn_len_app in B1.
  rewrite (recv_msg_header make _ _ _ _ _ _ _ E1).
  unfold after_header.
  assert (T : negb (Z_of_byte xff =? 0xff)
              || negb (Z.land (Z_of_byte c2) 0xfe =? 0xfe) = false).
  { destruct Hlen as [[-> _]|[-> _]]; reflexivity. }
  rewrite T.
  assert (D : body_length c2 c4 c5 = len content + 1).
  { rewrite body_length_value. destruct Hlen as [[-> L]|[-> L]].
    - exact L.
    - change (Z_of_byte xfe =? 254) with true. cbv iota. lia. }
  rewrite D.
  pose proof (len_nonneg content) as Hc.
  replace (len content + 1 <? 1) with false
    by (symmetry; apply Z.ltb_ge; lia).
  destruct (Connection_read_stream w1 sk1 (len content + 1) S1)
    as (w2 & sk2 & E2 & S2 & B2 & W2 & Q2).
  { apply (f_equal len) in B1. rewrite !len_app in B1. rewrite B1.
    change (len [k]) with 1. pose proof (len_nonneg rest). lia. }
  rewrite B1 in E2, B2.
  assert (Hn : Z.to_nat (len content + 1) = Z.to_nat (len (content ++ [k])))
    by (rewrite len_app; reflexivity).
  rewrite Hn in E2, B2.
  rewrite app_assoc in E2, B2.
  rewrite firstn_len_app in E2. rewrite skipn_len_app in B2.
  exists w2, sk2.
  split; [exact S2|]. split; [exact B2|]. split; [congruence|].
  split; [congruence|].
  unfold bind at 1. rewrite E2.
  unfold check_body. cbv zeta.
  destruct (content ++ [k]) as [|b0 body0] eqn:Eb.
  { exfalso. apply (app_cons_not_nil content [] k). symmetry. exact Eb. }
  rewrite <- Eb. rewrite slice_to_minus_one, last_last, <- Hk, Z.eqb_refl.
  destruct make as [f|]; [destruct (f content)|]; reflexivity.
Qed.

(** X10.  A well-formed reply that lies next in the stream (FF, a second
    start byte FF or FE, three header bytes whose length field is the
    content length plus one, the content, and the checksum over those
    three bytes and the content) is decoded by [recv_msg()] to exactly its
    header bytes and content, however the transport cut it into segments,
    and the stream is left at the first byte after it. *)
Theorem well_formed_reply_is_decoded :
  forall (w : World) (sk : socket) (c2 c3 c4 c5 k : byte)
         (content rest : bytes),
    the_socket w = Some sk ->
    the_buffer w ++ pending (rx sk)
    = [xff; c2; c3; c4; c5] ++ content ++ [k] ++ rest ->
    (c2 = xff /\ Z_of_byte c5 = len content + 1)
    \/ (c2 = xfe /\ 256 * Z_of_byte c4 + Z_of_byte c5 = len content + 1) ->
    Z_of_byte k
    = gen_checksum (Z_of_byte c3 :: Z_of_byte c4 :: Z_of_byte c5
                      :: map Z_of_byte content) ->
    fst (SpheroRaw_recv_msg (A:=Empty_set) None w)
    = Return (Some (Z_of_byte c2, Z_of_byte c3, Z_of_byte c4, Z_of_byte c5,
                    Z_of_byte k, inl content, Z_of_byte k))
    /\ exists sk' : socket,
         the_socket (snd (SpheroRaw_recv_msg (A:=Empty_set) None w))
         = Some sk'
         /\ the_buffer (snd (SpheroRaw_recv_msg (A:=Empty_set) None w))
            ++ pending (rx sk') = rest.
Proof.
  intros w sk c2 c3 c4 c5 k content rest Hs Hst Hlen Hk.
  destruct (decode_well_formed (A:=Empty_set) None w sk c2 c3 c4 c5 content
              k rest Hs Hst Hlen Hk)
    as (w2 & sk2 & S2 & B2 & _ & _ & E).
  rewrite E. cbn [fst snd]. split; [reflexivity|]. exists sk2. auto.
Qed.

Lemma well_formed_reply_is_decoded_witness :
  the_socket (bench (mkSocket [[xff; xfe; x07]; [x00; x03; x0a]; [x0b; xe0; x55]]
                              []))
  = Some (mkSocket [[xff; xfe; x07]; [x00; x03; x0a]; [x0b; xe0; x55]] [])
  /\ the_buffer (bench (mkSocket [[xff; xfe; x07]; [x00; x03; x0a];
                                  [x0b; xe0; x55]] []))
     ++ pending (rx (mkSocket [[xff; xfe; x07]; [x00; x03; x0a];
                               [x0b; xe0; x55]] []))
     = [xff; xfe; x07; x00; x03] ++ [x0a; x0b] ++ [xe0] ++ [x55]
  /\ ((xfe = xff /\ Z_of_byte x03 = len [x0a; x0b] + 1)
      \/ (xfe = xfe
          /\ 256 * Z_of_byte x00 + Z_of_byte x03 = len [x0a; x0b] + 1))
  /\ Z_of_byte xe0
     = gen_checksum (Z_of_byte x07 :: Z_of_byte x00 :: Z_of_byte x03
                       :: map Z_of_byte [x0a; x0b])
  /\ fst (SpheroRaw_recv_msg (A:=Empty_set) None
            (bench (mkSocket [[xff; xfe; x07]; [x00; x03; x0a];
                              [x0b; xe0; x55]] [])))
     = Return (Some (Z_of_byte xfe, Z_of_byte x07, Z_of_byte x00,
                     Z_of_byte x03, Z_of_byte xe0, inl [x0a; x0b],
                     Z_of_byte xe0))
  /\ exists sk' : socket,
       the_socket (snd (SpheroRaw_recv_msg (A:=Empty_set) None
                          (bench (mkSocket [[xff; xfe; x07]; [x00; x03; x0a];
                                            [x0b; xe0; x55]] []))))
       = Some sk'
       /\ the_buffer (snd (SpheroRaw_recv_msg (A:=Empty_set) None
                             (bench (mkSocket [[xff; xfe; x07];
                                               [x00; x03; x0a];
                                               [x0b; xe0; x55]] []))))
          ++ pending (rx sk') = [x55].
Proof.
  split; [reflexivity|]. split; [reflexivity|].
  split; [right; split; reflexivity|]. split; [reflexivity|].
  apply (well_formed_reply_is_decoded
           (bench (mkSocket [[xff; xfe; x07]; [x00; x03; x0a];
                             [x0b; xe0; x55]] []))
           (mkSocket [[xff; xfe; x07]; [x00; x03; x0a]; [x0b; xe0; x55]] [])
           xfe x07 x00 x03 xe0 [x0a; x0b] [x55]).
  - reflexivity.
  - reflexivity.
  - right; split; reflexivity.
  - reflexivity.
Defined.

Lemma Connection_read_socket size w sk :
  the_socket w = Some sk ->
  exists sk' : socket, the_socket (snd (Connection_read size w)) = Some sk'.
Proof.
  intros Hs.
  destruct (read_loop_stream (size - len (the_buffer w)) w sk Hs)
    as (sk' & R1 & _).
  exists sk'. unfold Connection_read, bind, gets, modify, ret.
  destruct (read_loop (size - len (the_buffer w)) w) as [[[]|e] w1];
    cbn [fst snd] in *; exact R1.
Qed.

Lemma check_body_keeps_socket {A} (make : option (bytes -> option A))
      c2 c3 c4 c5 body w :
  body <> [] ->
  fst (check_body make c2 c3 c4 c5 body w) <> Return None
  /\ the_socket (snd (check_body make c2 c3 c4 c5 body w)) = the_socket w.
Proof.
  intros Hb. unfold check_body.
  destruct body as [|b body']; [congruence|]. cbv zeta.
  destruct (_ =? _).
  - unfold bind, ret, raise. destruct make as [f|].
    + destruct (f _); cbn; split; auto; discriminate.
    + cbn. split; auto; discriminate.
  - cbn. split; auto; discriminate.
Qed.

(** X11.  [recv_msg] never returns [None] and never closes the
    connection: the two 'Disconnected' branches cannot be taken, because
    [read] either raises or returns as many bytes as were asked for. *)
Theorem recv_msg_never_disconnects :
  forall (A : Type) (make : option (bytes -> option A)) (w : World)
         (sk : socket),
    the_socket w = Some sk ->
    fst (SpheroRaw_recv_msg make w) <> Return None
    /\ exists sk' : socket,
         the_socket (snd (SpheroRaw_recv_msg make w)) = Some sk'.
Proof.
  intros A make w sk Hs.
  destruct (Connection_read_socket 5 w sk Hs) as (sk1 & S1).
  destruct (Connection_read 5 w) as [[data|e] w1] eqn:E; cbn [snd] in S1.
  - pose proof (Connection_read_length _ _ _ _ E ltac:(lia)) as L.
    destruct data as [|c1 [|c2 [|c3 [|c4 [|c5 [|c6 data]]]]]];
      cbn in L; try lia.
    rewrite (recv_msg_header make _ _ _ _ _ _ _ E).
    unfold after_header.
    destruct (negb _ || negb _).
    { cbn. split; [discriminate | eauto]. }
    destruct (Z.ltb_spec (body_length c2 c4 c5) 1) as [Hlt|Hge].
    { cbn. split; [discriminate | eauto]. }
    unfold bind.
    destruct (Connection_read_socket (body_length c2 c4 c5) w1 sk1 S1)
      as (sk2 & S2).
    destruct (Connection_read (body_length c2 c4 c5) w1) as [[body|e] w2]
      eqn:E2; cbn [snd] in S2.
    + pose proof (Connection_read_length _ _ _ _ E2 ltac:(lia)) as L2.
      destruct (check_body_keeps_socket make c2 c3 c4 c5 body w2) as [N K].
      { intros ->. cbn in L2. lia. }
      split; [exact N|]. exists sk2. rewrite K. exact S2.
    + cbn. split; [discriminate | eauto].
  - unfold SpheroRaw_recv_msg, bind. rewrite E. cbn.
    split; [discriminate | eauto].
Qed.

Lemma recv_msg_never_disconnects_witness :
  the_socket (bench hung_up) = Some hung_up
  /\ fst (SpheroRaw_recv_msg (A:=Empty_set) None (bench hung_up))
     <> Return None
  /\ exists sk' : socket,
       the_socket (snd (SpheroRaw_recv_msg (A:=Empty_set) None
                          (bench hung_up))) = Some sk'.
Proof.
  split; [reflexivity|].
  apply (recv_msg_never_disconnects Empty_set None (bench hung_up) hung_up).
  reflexivity.
Defined.

(** ** The query commands *)

Lemma query_request did cid w sk :
  the_socket w = Some sk ->
  modulus (seq (self w)) = 0x0100 ->
  0 <= did <= 255 ->
  0 <= cid <= 255 ->
  exists frame : bytes,
    SpheroRaw_send_msg did cid None true true None w
    = (Return tt,
       emit (EvSend frame)
         (set_socket (Some (snd (socket_send frame sk)))
            (set_seq (mkBoundCounter ((n (seq (self w)) + 1) mod 0x0100)
                                     0x0100) w))).
Proof.
  intros Hs Hm Hd Hc.
  set (v := (n (seq (self w)) + 1) mod 0x0100).
  destruct (byte_of_Z_some v) as [bv Ev].
  { subst v. pose proof (Z.mod_pos_bound (n (seq (self w)) + 1) 0x0100
                           ltac:(lia)). lia. }
  destruct (byte_of_Z_some did Hd) as [bd Ed].
  destruct (byte_of_Z_some cid Hc) as [bc Ec].
  destruct (byte_of_Z_some (gen_checksum [did; cid; v; 1]))
    as [bk Ek]; [apply gen_checksum_range|].
  exists ([xff; xff; bd; bc; bv; x01] ++ [] ++ [bk]).
  rewrite send_msg_unfold. unfold bind at 1. unfold bind at 1.
  unfold seq_next, BoundCounter_next. rewrite Hm.
  cbn [Z.eqb ret]. fold v.
  apply (write_frame_connected _ _ _ None (Some v) _ sk
           [xff; xff; bd; bc; bv; x01] bk).
  - exact Hs.
  - cbn [bytes_of_ints payload]. rewrite Ed, Ec, Ev. reflexivity.
  - exact Ek.
Qed.

(** A session with nothing left over from earlier traffic, whose socket
    will answer the next write with the segments [segs]. *)
Lemma query_round_trip {A} (make : bytes -> option A) did cid
      w sk segs later c3 c4 c5 content k rest :
  the_socket w = Some sk ->
  the_buffer w = [] ->
  rx sk = [] ->
  script sk = segs :: later ->
  modulus (seq (self w)) = 0x0100 ->
  0 <= did <= 255 ->
  0 <= cid <= 255 ->
  pending segs = [xff; xff; c3; c4; c5] ++ content ++ [k] ++ rest ->
  Z_of_byte c5 = len content + 1 ->
  Z_of_byte k
  = gen_checksum (Z_of_byte c3 :: Z_of_byte c4 :: Z_of_byte c5
                    :: map Z_of_byte content) ->
  exists (w2 : World) (sk2 : socket) (frame : bytes),
    the_socket w2 = Some sk2
    /\ the_buffer w2 ++ pending (rx sk2) = rest
    /\ wire w2 = wire w ++ [EvSend frame]
    /\ (SpheroRaw_send_msg did cid None true true None ;;;
        SpheroRaw_recv_msg (Some make)) w
       = match make content with
         | Some v =>
             (Return (Some (0xff, Z_of_byte c3, Z_of_byte c4, Z_of_byte c5,
                            Z_of_byte k, inr v, Z_of_byte k)), w2)
         | None =>
             (Raise (StructError
                       "unpack requires a buffer of the right size"), w2)
         end.
Proof.
  intros Hs Hb Hrx Hsc Hm Hd Hc Hst Hlen Hk.
  destruct (query_request did cid w sk Hs Hm Hd Hc) as (frame & E).
  unfold bind at 1. rewrite E.
  unfold socket_send. cbn [snd]. rewrite Hrx, Hsc. cbn [hd tl app].
  match goal with |- context [SpheroRaw_recv_msg _ ?w0] => set (ws := w0) end.
  destruct (decode_well_formed (Some make) ws (mkSocket segs later)
              xff c3 c4 c5 content k rest)
    as (w2 & sk2 & S2 & B2 & W2 & _ & R);
    [reflexivity
    | subst ws; cbn [the_buffer set_socket set_seq emit set_conn set_self
                     self _conn _buffer rx];
      fold (the_buffer w); rewrite Hb; exact Hst
    | left; auto
    | exact Hk |].
  exists w2, sk2, frame. split; [exact S2|]. split; [exact B2|].
  split; [rewrite W2; reflexivity|].
  exact R.
Qed.

(** X12.  On a session with nothing left over from earlier traffic,
    [send_get_version] writes one frame and, when the device answers with a
    well-formed reply, returns the reply's content bytes as the fields of
    [Version] in order if there are exactly ten of them; with any other
    content length the call ends in [struct.error], after the whole reply
    has been taken off the stream. *)
Theorem get_version_decodes_ten_bytes :
  forall (w : World) (sk : socket) (segs : list bytes)
         (later : list (list bytes)) (c3 c4 c5 k : byte)
         (content rest : bytes),
    the_socket w = Some sk ->
    the_buffer w = [] ->
    rx sk = [] ->
    script sk = segs :: later ->
    modulus (seq (self w)) = 0x0100 ->
    pending segs = [xff; xff; c3; c4; c5] ++ content ++ [k] ++ rest ->
    Z_of_byte c5 = len content + 1 ->
    Z_of_byte k
    = gen_checksum (Z_of_byte c3 :: Z_of_byte c4 :: Z_of_byte c5
                      :: map Z_of_byte content) ->
    (exists frame : bytes,
        wire (snd (SpheroRaw_send_get_version w)) = wire w ++ [EvSend frame])
    /\ (exists sk' : socket,
          the_socket (snd (SpheroRaw_send_get_version w)) = Some sk'
          /\ the_buffer (snd (SpheroRaw_send_get_version w))
             ++ pending (rx sk') = rest)
    /\ fst (SpheroRaw_send_get_version w)
       = match content with
         | [b0; b1; b2; b3; b4; b5; b6; b7; b8; b9] =>
             Return (Some (0xff, Z_of_byte c3, Z_of_byte c4, Z_of_byte c5,
                           Z_of_byte k,
                           inr (mkVersion
                                  (Z_of_byte b0) (Z_of_byte b1) (Z_of_byte b2)
                                  (Z_of_byte b3) (Z_of_byte b4) (Z_of_byte b5)
                                  (Z_of_byte b6) (Z_of_byte b7) (Z_of_byte b8)
                                  (Z_of_byte b9)),
                           Z_of_byte k))
         | _ =>
             Raise (StructError "unpack requires a buffer of the right size")
         end.
Proof.
  intros w sk segs later c3 c4 c5 k content rest Hs Hb Hrx Hsc Hm Hst Hlen Hk.
  destruct (query_round_trip make_Version DID_CORE CMD_VERSIONING
              w sk segs later c3 c4 c5 content k rest
              Hs Hb Hrx Hsc Hm ltac:(unfold DID_CORE; lia)
              ltac:(unfold CMD_VERSIONING; lia) Hst Hlen Hk)
    as (w2 & sk2 & frame & S2 & B2 & W2 & E).
  unfold SpheroRaw_send_get_version.
  assert (F : fst ((SpheroRaw_send_msg DID_CORE CMD_VERSIONING None true true
                      None ;;; SpheroRaw_recv_msg (Some make_Version)) w)
              = match make_Version content with
                | Some v =>
                    Return (Some (0xff, Z_of_byte c3, Z_of_byte c4,
                                  Z_of_byte c5, Z_of_byte k, inr v,
                                  Z_of_byte k))
                | None =>
                    Raise (StructError
                             "unpack requires a buffer of the right size")
                end
              /\ snd ((SpheroRaw_send_msg DID_CORE CMD_VERSIONING None true
                         true None ;;; SpheroRaw_recv_msg (Some make_Version))
                        w) = w2).
  { rewrite E. destruct (make_Version content); split; reflexivity. }
  destruct F as [F1 F2]. rewrite F1, F2.
  split; [eauto|]. split; [eauto|].
  destruct content as [|b0 [|b1 [|b2 [|b3 [|b4 [|b5 [|b6 [|b7 [|b8 [|b9
    [|b10 content]]]]]]]]]]]; reflexivity.
Qed.

Lemma get_version_decodes_ten_bytes_witness :
  the_socket (bench version_socket) = Some version_socket
  /\ the_buffer (bench version_socket) = []
  /\ rx version_socket = []
  /\ script version_socket
     = [[xff; xff; x00; x01; x0b; x01; x02];
        [x03; x04; x05; x06; x07; x08; x09; x0a; xbc]] :: []
  /\ modulus (seq (self (bench version_socket))) = 0x0100
  /\ pending [[xff; xff; x00; x01; x0b; x01; x02];
              [x03; x04; x05; x06; x07; x08; x09; x0a; xbc]]
     = [xff; xff; x00; x01; x0b] ++ version_content ++ [xbc] ++ []
  /\ Z_of_byte x0b = len version_content + 1
  /\ Z_of_byte xbc
     = gen_checksum (Z_of_byte x00 :: Z_of_byte x01 :: Z_of_byte x0b
                       :: map Z_of_byte version_content)
  /\ (exists frame : bytes,
        wire (snd (SpheroRaw_send_get_version (bench version_socket)))
        = wire (bench version_socket) ++ [EvSend frame])
  /\ (exists sk' : socket,
        the_socket (snd (SpheroRaw_send_get_version (bench version_socket)))
        = Some sk'
        /\ the_buffer (snd (SpheroRaw_send_get_version
                              (bench version_socket)))
           ++ pending (rx sk') = [])
  /\ fst (SpheroRaw_send_get_version (bench version_socket))
     = Return (Some (0xff, Z_of_byte x00, Z_of_byte x01, Z_of_byte x0b,
                     Z_of_byte xbc,
                     inr (mkVersion 1 2 3 4 5 6 7 8 9 10),
                     Z_of_byte xbc)).
Proof.
  do 8 (split; [reflexivity|]).
  apply (get_version_decodes_ten_bytes (bench version_socket) version_socket
           [[xff; xff; x00; x01; x0b; x01; x02];
            [x03; x04; x05; x06; x07; x08; x09; x0a; xbc]] []
           x00 x01 x0b xbc version_content []); reflexivity.
Defined.

Lemma unpack_h_spec hi lo :
  -32768 <= unpack_h hi lo < 32768
  /\ unpack_h hi lo mod 65536 = 256 * Z_of_byte hi + Z_of_byte lo.
Proof.
  unfold unpack_h, unpack_H. cbv zeta.
  pose proof (Z_of_byte_range hi). pose proof (Z_of_byte_range lo).
  destruct (Z.ltb_spec (256 * Z_of_byte hi + Z_of_byte lo) 0x8000).
  - split; [lia|]. apply Z.mod_small. lia.
  - split; [lia|].
    replace (256 * Z_of_byte hi + Z_of_byte lo - 65536)
      with (256 * Z_of_byte hi + Z_of_byte lo + (-1) * 65536) by lia.
    rewrite Z.mod_add by lia. apply Z.mod_small. lia.
Qed.

(** X13.  On a session with nothing left over from earlier traffic, when
    the device answers [send_read_locator] with a well-formed reply of ten
    content bytes, the call returns a [Location] whose four coordinates
    are the byte pairs read high byte first as 16-bit two's complement
    numbers (in -32768..32767 and congruent to the unsigned pair modulo
    65536) and whose [sog] is the last pair read unsigned. *)
Theorem read_locator_decodes_signed_pairs :
  forall (w : World) (sk : socket) (segs : list bytes)
         (later : list (list bytes)) (c3 c4 c5 k : byte) (rest : bytes)
         (x1 x0 y1 y0 vx1 vx0 vy1 vy0 s1 s0 : byte),
    the_socket w = Some sk ->
    the_buffer w = [] ->
    rx sk = [] ->
    script sk = segs :: later ->
    modulus (seq (self w)) = 0x0100 ->
    pending segs
    = [xff; xff; c3; c4; c5]
      ++ [x1; x0; y1; y0; vx1; vx0; vy1; vy0; s1; s0] ++ [k] ++ rest ->
    Z_of_byte c5 = 11 ->
    Z_of_byte k
    = gen_checksum (Z_of_byte c3 :: Z_of_byte c4 :: Z_of_byte c5
                      :: map Z_of_byte
                           [x1; x0; y1; y0; vx1; vx0; vy1; vy0; s1; s0]) ->
    exists l : Location,
      fst (SpheroRaw_send_read_locator w)
      = Return (Some (0xff, Z_of_byte c3, Z_of_byte c4, Z_of_byte c5,
                      Z_of_byte k, inr l, Z_of_byte k))
      /\ (-32768 <= x l < 32768
          /\ x l mod 65536 = 256 * Z_of_byte x1 + Z_of_byte x0)
      /\ (-32768 <= y l < 32768
          /\ y l mod 65536 = 256 * Z_of_byte y1 + Z_of_byte y0)
      /\ (-32768 <= vel_x l < 32768
          /\ vel_x l mod 65536 = 256 * Z_of_byte vx1 + Z_of_byte vx0)
      /\ (-32768 <= vel_y l < 32768
          /\ vel_y l mod 65536 = 256 * Z_of_byte vy1 + Z_of_byte vy0)
      /\ sog l = 256 * Z_of_byte s1 + Z_of_byte s0.
Proof.
  intros w sk segs later c3 c4 c5 k rest x1 x0 y1 y0 vx1 vx0 vy1 vy0 s1 s0
         Hs Hb Hrx Hsc Hm Hst Hlen Hk.
  destruct (query_round_trip make_Location DID_SPHERO CMD_READ_LOCATOR
              w sk segs later c3 c4 c5
              [x1; x0; y1; y0; vx1; vx0; vy1; vy0; s1; s0] k rest
              Hs Hb Hrx Hsc Hm ltac:(unfold DID_SPHERO; lia)
              ltac:(unfold CMD_READ_LOCATOR; lia) Hst Hlen Hk)
    as (w2 & sk2 & frame & S2 & B2 & W2 & E).
  unfold SpheroRaw_send_read_locator. rewrite E.
  cbn [make_Location fst]. eexists. split; [reflexivity|].
  cbn [x y vel_x vel_y sog].
  repeat split; try apply unpack_h_spec.
Qed.

Lemma read_locator_decodes_signed_pairs_witness :
  the_socket (bench locator_socket) = Some locator_socket
  /\ the_buffer (bench locator_socket) = []
  /\ rx locator_socket = []
  /\ script locator_socket
     = [[xff; xff; x00; x01; x0b] ++ locator_content ++ [xf2]] :: []
  /\ modulus (seq (self (bench locator_socket))) = 0x0100
  /\ pending [[xff; xff; x00; x01; x0b] ++ locator_content ++ [xf2]]
     = [xff; xff; x00; x01; x0b]
       ++ [xff; xfe; x00; x05; x80; x00; x7f; xff; x01; x00] ++ [xf2] ++ []
  /\ Z_of_byte x0b = 11
  /\ Z_of_byte xf2
     = gen_checksum (Z_of_byte x00 :: Z_of_byte x01 :: Z_of_byte x0b
                       :: map Z_of_byte
                            [xff; xfe; x00; x05; x80; x00; x7f; xff;
                             x01; x00])
  /\ exists l : Location,
       fst (SpheroRaw_send_read_locator (bench locator_socket))
       = Return (Some (0xff, Z_of_byte x00, Z_of_byte x01, Z_of_byte x0b,
                       Z_of_byte xf2, inr l, Z_of_byte xf2))
       /\ (-32768 <= x l < 32768
           /\ x l mod 65536 = 256 * Z_of_byte xff + Z_of_byte xfe)
       /\ (-32768 <= y l < 32768
           /\ y l mod 65536 = 256 * Z_of_byte x00 + Z_of_byte x05)
       /\ (-32768 <= vel_x l < 32768
           /\ vel_x l mod 65536 = 256 * Z_of_byte x80 + Z_of_byte x00)
       /\ (-32768 <= vel_y l < 32768
           /\ vel_y l mod 65536 = 256 * Z_of_byte x7f + Z_of_byte xff)
       /\ sog l = 256 * Z_of_byte x01 + Z_of_byte x00.
Proof.
  do 8 (split; [reflexivity|]).
  apply (read_locator_decodes_signed_pairs (bench locator_socket)
           locator_socket
           [[xff; xff; x00; x01; x0b] ++ locator_content ++ [xf2]] []
           x00 x01 x0b xf2 []
           xff xfe x00 x05 x80 x00 x7f xff x01 x00); reflexivity.
Defined.

Example read_locator_example :
  fst (SpheroRaw_send_read_locator (bench locator_socket))
  = Return (Some (0xff, 0, 1, 11, 0xf2,
                  inr (mkLocation (-2) 5 (-32768) 32767 256), 0xf2)).
Proof. reflexivity. Qed.

(** ** The fire-and-forget commands *)

Lemma command_sent did cid data w sk :
  the_socket w = Some sk ->
  0 <= did <= 255 ->
  0 <= cid <= 255 ->
  len data <= 254 ->
  exists d c l k : byte,
    Z_of_byte d = did /\ Z_of_byte c = cid /\ Z_of_byte l = len data + 1
    /\ Z_of_byte k
       = gen_checksum (did :: cid :: 0 :: len data + 1 :: map Z_of_byte data)
    /\ SpheroRaw_send_msg did cid (Some data) false true None w
       = (Return tt,
          emit (EvSend ([xff; xfe; d; c; x00; l] ++ data ++ [k]))
            (set_socket
               (Some (snd (socket_send
                             ([xff; xfe; d; c; x00; l] ++ data ++ [k]) sk)))
               w)).
Proof.
  intros Hs Hd Hc Hl. pose proof (len_nonneg data) as Hn.
  destruct (byte_of_Z_in did Hd) as (d & Ed & Zd).
  destruct (byte_of_Z_in cid Hc) as (c & Ec & Zc).
  destruct (byte_of_Z_in (len data + 1) ltac:(lia)) as (l & El & Zl).
  destruct (byte_of_Z_some
              (gen_checksum (did :: cid :: 0 :: len data + 1
                                 :: map Z_of_byte data)))
    as [k Ek]; [apply gen_checksum_range|].
  exists d, c, l, k. split; [exact Zd|]. split; [exact Zc|].
  split; [exact Zl|]. split; [exact (byte_of_Z_inv _ _ Ek)|].
  rewrite send_msg_unfold. unfold bind at 1. cbn [ret].
  apply (write_frame_connected _ _ _ (Some data) None _ sk
           [xff; xfe; d; c; x00; l] k).
  - exact Hs.
  - cbn [bytes_of_ints payload start_flags]. rewrite Ed, Ec, El.
    reflexivity.
  - exact Ek.
Qed.

Lemma pack_H_ok {S} (z : Z) :
  0 <= z <= 65535 ->
  exists hi lo : byte,
    @pack_H S z = ret [hi; lo] /\ 256 * Z_of_byte hi + Z_of_byte lo = z.
Proof.
  intros Hz.
  assert (0 <= z / 256 <= 255).
  { split; [apply Z.div_pos; lia|].
    assert (z / 256 < 256) by (apply Z.div_lt_upper_bound; lia). lia. }
  pose proof (Z.mod_pos_bound z 256 ltac:(lia)).
  destruct (byte_of_Z_in (z / 256) ltac:(lia)) as (hi & Eh & Zh).
  destruct (byte_of_Z_in (z mod 256) ltac:(lia)) as (lo & El & Zl).
  exists hi, lo. unfold pack_H.
  replace ((0 <=? z) && (z <=? 65535)) with true
    by (symmetry; apply andb_true_iff; split; apply Z.leb_le; lia).
  rewrite Eh, El. split; [reflexivity|].
  rewrite Zh, Zl. pose proof (Z.div_mod z 256 ltac:(lia)). lia.
Qed.

(** X14.  On a connected session, [roll(speed, heading, state)] with
    [speed] and [state] in 0..255 and any integer heading, negative or
    beyond a full turn, writes one roll frame whose heading field, high
    byte first, is [heading] reduced modulo 360, while [last_heading]
    keeps the heading as it was given. *)
Theorem roll_reduces_heading :
  forall (w : World) (sk : socket) (speed heading state : Z),
    the_socket w = Some sk ->
    0 <= speed <= 255 ->
    0 <= state <= 255 ->
    exists bs hi lo bst k : byte,
      fst (Sphero_roll speed (PyInt heading) state w) = Return tt
      /\ wire (snd (Sphero_roll speed (PyInt heading) state w))
         = wire w ++ [EvSend (roll_frame bs hi lo bst k)]
      /\ Z_of_byte bs = speed
      /\ Z_of_byte bst = state
      /\ 256 * Z_of_byte hi + Z_of_byte lo = heading mod 360
      /\ last_heading (self (snd (Sphero_roll speed (PyInt heading) state w)))
         = PyInt heading.
Proof.
  intros w sk speed heading state Hs Hsp Hst.
  destruct (byte_of_Z_in speed Hsp) as (bs & Es & Zs).
  destruct (byte_of_Z_in state Hst) as (bst & Est & Zst).
  pose proof (Z.mod_pos_bound heading 360 ltac:(lia)) as Hh.
  destruct (@pack_H_ok World (heading mod 360) ltac:(lia))
    as (hi & lo & Ep & Zp).
  destruct (command_sent DID_SPHERO CMD_ROLL ([bs] ++ [hi; lo] ++ [bst])
              (set_last_heading (PyInt heading) w) sk)
    as (d & c & l & k & Zd & Zc & Zl & _ & E);
    [exact Hs | unfold DID_SPHERO; lia | unfold CMD_ROLL; lia | cbn; lia |].
  assert (d = x02) as -> by (apply Z_of_byte_inj; rewrite Zd; reflexivity).
  assert (c = x30) as -> by (apply Z_of_byte_inj; rewrite Zc; reflexivity).
  assert (l = x05) as -> by (apply Z_of_byte_inj; rewrite Zl; reflexivity).
  exists bs, hi, lo, bst, k.
  assert (R : Sphero_roll speed (PyInt heading) state w
              = (Return tt,
                 emit (EvSend (roll_frame bs hi lo bst k))
                   (set_socket
                      (Some (snd (socket_send (roll_frame bs hi lo bst k) sk)))
                      (set_last_heading (PyInt heading) w)))).
  { unfold Sphero_roll, SpheroRaw_send_roll, py_mod, pack_B.
    unfold bind, modify, ret. rewrite Es. cbv beta iota.
    rewrite Ep. unfold ret. cbv beta iota. rewrite Est. cbv beta iota.
    cbn [app] in E |- *. rewrite E. reflexivity. }
  rewrite R. cbn. rewrite Zs, Zst. repeat split; auto.
Qed.

Lemma roll_reduces_heading_witness :
  the_socket (bench idle_socket) = Some idle_socket
  /\ 0 <= 100 <= 255
  /\ 0 <= 1 <= 255
  /\ exists bs hi lo bst k : byte,
       fst (Sphero_roll 100 (PyInt (-90)) 1 (bench idle_socket)) = Return tt
       /\ wire (snd (Sphero_roll 100 (PyInt (-90)) 1 (bench idle_socket)))
          = wire (bench idle_socket) ++ [EvSend (roll_frame bs hi lo bst k)]
       /\ Z_of_byte bs = 100
       /\ Z_of_byte bst = 1
       /\ 256 * Z_of_byte hi + Z_of_byte lo = (-90) mod 360
       /\ last_heading (self (snd (Sphero_roll 100 (PyInt (-90)) 1
                                     (bench idle_socket))))
          = PyInt (-90).
Proof.
  split; [reflexivity|]. split; [lia|]. split; [lia|].
  apply (roll_reduces_heading (bench idle_socket) idle_socket 100 (-90) 1);
    [reflexivity | lia | lia].
Defined.

(** X15.  A [roll] whose speed does not fit a byte raises [struct.error]
    and writes nothing, yet it has already replaced [last_heading]: the
    next [off()] uses the heading of the roll that failed. *)
Theorem failed_roll_still_sets_heading :
  forall (w : World) (speed heading state : Z),
    speed < 0 \/ 255 < speed ->
    Sphero_roll speed (PyInt heading) state w
    = (Raise (StructError "ubyte format requires 0 <= number <= 255"),
       set_last_heading (PyInt heading) w).
Proof.
  intros w speed heading state Hsp.
  unfold Sphero_roll, SpheroRaw_send_roll, py_mod, pack_B.
  rewrite (byte_of_Z_out speed Hsp). reflexivity.
Qed.

Lemma failed_roll_still_sets_heading_witness :
  (256 < 0 \/ 255 < 256)
  /\ Sphero_roll 256 (PyInt 90) 1 (bench idle_socket)
     = (Raise (StructError "ubyte format requires 0 <= number <= 255"),
        set_last_heading (PyInt 90) (bench idle_socket)).
Proof.
  split; [right; lia|].
  apply (failed_roll_still_sets_heading (bench idle_socket) 256 90 1).
  right; lia.
Defined.

(** X16.  [stop()] goes through [roll] and so overwrites [last_heading]
    with 0: on a connected session, whatever heading was stored before
    (the initial tuple included), [stop()] followed by [off()] succeeds and
    writes the heading-0, speed-0 roll frame twice. *)
Theorem stop_forgets_heading :
  forall (w : World) (sk : socket),
    the_socket w = Some sk ->
    fst ((Sphero_stop ;;; Sphero_off) w) = Return tt
    /\ wire (snd ((Sphero_stop ;;; Sphero_off) w))
       = wire w ++ [EvSend (roll_frame x00 x00 x00 x00 xc8);
                    EvSend (roll_frame x00 x00 x00 x00 xc8)]
    /\ last_heading (self (snd ((Sphero_stop ;;; Sphero_off) w))) = PyInt 0.
Proof.
  intros w sk H. open_world w H.
  split; [reflexivity|]. split; [|reflexivity].
  cbn. rewrite <- app_assoc. reflexivity.
Qed.

Lemma stop_forgets_heading_witness :
  the_socket (bench idle_socket) = Some idle_socket
  /\ fst ((Sphero_stop ;;; Sphero_off) (bench idle_socket)) = Return tt
  /\ wire (snd ((Sphero_stop ;;; Sphero_off) (bench idle_socket)))
     = wire (bench idle_socket)
       ++ [EvSend (roll_frame x00 x00 x00 x00 xc8);
           EvSend (roll_frame x00 x00 x00 x00 xc8)]
  /\ last_heading (self (snd ((Sphero_stop ;;; Sphero_off)
                                (bench idle_socket)))) = PyInt 0.
Proof.
  split; [reflexivity|].
  apply (stop_forgets_heading (bench idle_socket) idle_socket). reflexivity.
Defined.

Lemma bytes_of_ints_none l :
  ~ Forall (fun z => 0 <= z <= 255) l -> bytes_of_ints l = None.
Proof.
  intros N. destruct (bytes_of_ints l) as [bs|] eqn:E; [|reflexivity].
  exfalso. apply N. apply bytes_of_ints_inv in E. subst l.
  apply Forall_forall. intros z Hz. apply in_map_iff in Hz.
  destruct Hz as (b & <- & _). apply Z_of_byte_range.
Qed.

Lemma set_rgb_sent w sk (r g b : Z) (save : bool) :
  the_socket w = Some sk ->
  0 <= r <= 255 /\ 0 <= g <= 255 /\ 0 <= b <= 255 ->
  exists br bg bb k : byte,
    Z_of_byte br = r /\ Z_of_byte bg = g /\ Z_of_byte bb = b
    /\ Z_of_byte k
       = gen_checksum [0x02; 0x20; 0x00; 0x05; r; g; b;
                       if save then 0x01 else 0x00]
    /\ Sphero_set_rgb r g b save w
       = (Return tt,
          emit (EvSend [xff; xfe; x02; x20; x00; x05; br; bg; bb;
                        if save then x01 else x00; k])
            (set_socket
               (Some (snd (socket_send
                             [xff; xfe; x02; x20; x00; x05; br; bg;
                              bb; if save then x01 else x00; k] sk)))
               w)).
Proof.
  intros Hs (Hr & Hg & Hb).
  destruct (bytes_of_ints_some [r; g; b; if save then 0x01 else 0x00])
    as (bs & E & M).
  { repeat constructor; try assumption; destruct save; lia. }
  destruct bs as [|br [|bg [|bb [|bsv [|? ?]]]]]; try discriminate M.
  cbn in M. injection M as Zr Zg Zb Zs.
  assert (bsv = if save then x01 else x00) as ->.
  { apply Z_of_byte_inj. rewrite Zs. destruct save; reflexivity. }
  destruct (command_sent DID_SPHERO CMD_SET_RGB
              [br; bg; bb; if save then x01 else x00] w sk)
    as (d & c & l & k & Zd & Zc & Zl & Zk & S);
    [exact Hs | unfold DID_SPHERO; lia | unfold CMD_SET_RGB; lia
    | cbn; lia |].
  assert (d = x02) as -> by (apply Z_of_byte_inj; rewrite Zd; reflexivity).
  assert (c = x20) as -> by (apply Z_of_byte_inj; rewrite Zc; reflexivity).
  assert (l = x05) as -> by (apply Z_of_byte_inj; rewrite Zl; reflexivity).
  exists br, bg, bb, k. split; [exact Zr|]. split; [exact Zg|].
  split; [exact Zb|]. split.
  { rewrite Zk. cbn [map]. rewrite Zr, Zg, Zb.
    destruct save; reflexivity. }
  unfold Sphero_set_rgb, SpheroRaw_send_set_rgb, mk_bytes.
  rewrite E. unfold bind at 1. cbn [ret].
  cbn [app] in S. exact S.
Qed.

(** X17.  On a connected session, [set_rgb(r, g, b, save)] writes its
    frame, with the three channels and the save flag as payload, exactly
    when each channel is in 0..255; otherwise it raises [ValueError] and
    neither the wire nor the session changes. *)
Theorem set_rgb_wants_bytes :
  forall (w : World) (sk : socket) (r g b : Z) (save : bool),
    the_socket w = Some sk ->
    (0 <= r <= 255 /\ 0 <= g <= 255 /\ 0 <= b <= 255 ->
     exists br bg bb k : byte,
       Z_of_byte br = r /\ Z_of_byte bg = g /\ Z_of_byte bb = b
       /\ fst (Sphero_set_rgb r g b save w) = Return tt
       /\ wire (snd (Sphero_set_rgb r g b save w))
          = wire w ++ [EvSend [xff; xfe; x02; x20; x00; x05; br; bg; bb;
                               if save then x01 else x00; k]])
    /\ (~ (0 <= r <= 255 /\ 0 <= g <= 255 /\ 0 <= b <= 255) ->
        Sphero_set_rgb r g b save w = (Raise out_of_range, w)).
Proof.
  intros w sk r g b save Hs. split.
  - intros Hrange.
    destruct (set_rgb_sent w sk r g b save Hs Hrange)
      as (br & bg & bb & k & Zr & Zg & Zb & _ & R).
    exists br, bg, bb, k. rewrite R. cbn. auto.
  - intros N.
    unfold Sphero_set_rgb, SpheroRaw_send_set_rgb, mk_bytes.
    rewrite bytes_of_ints_none; [reflexivity|].
    intros F. apply N.
    inversion F as [|? ? Hr F1]; subst. inversion F1 as [|? ? Hg F2]; subst.
    inversion F2 as [|? ? Hb F3]; subst. auto.
Qed.

Lemma set_rgb_wants_bytes_witness :
  the_socket (bench idle_socket) = Some idle_socket
  /\ (0 <= 255 <= 255 /\ 0 <= 165 <= 255 /\ 0 <= 0 <= 255 ->
      exists br bg bb k : byte,
        Z_of_byte br = 255 /\ Z_of_byte bg = 165 /\ Z_of_byte bb = 0
        /\ fst (Sphero_set_rgb 255 165 0 false (bench idle_socket))
           = Return tt
        /\ wire (snd (Sphero_set_rgb 255 165 0 false (bench idle_socket)))
           = wire (bench idle_socket)
             ++ [EvSend [xff; xfe; x02; x20; x00; x05; br; bg; bb;
                         if false then x01 else x00; k]])
  /\ (~ (0 <= 255 <= 255 /\ 0 <= 165 <= 255 /\ 0 <= 0 <= 255) ->
      Sphero_set_rgb 255 165 0 false (bench idle_socket)
      = (Raise out_of_range, bench idle_socket)).
Proof.
  split; [reflexivity|].
  apply (set_rgb_wants_bytes (bench idle_socket) idle_socket 255 165 0 false).
  reflexivity.
Defined.

(** ** More on the handshake *)

Lemma clean_loop_sticky (fuel : nat) :
  forall (retries : Z) (w : World) (b : bool),
    (Z.to_nat retries <= fuel)%nat ->
    fst (clean_loop retries true w) = Return b -> b = true.
Proof.
  induction fuel as [|fuel IH]; intros retries w b Hf;
    rewrite clean_loop_step;
    destruct (Z.gtb_spec retries 0) as [Hpos|Hneg];
    try (cbn; congruence); try lia.
  destruct (SpheroRaw_send_ping w) as [[r|e] w1].
  - apply IH. destruct (Z.gtb_spec (retries - 1) 1); lia.
  - destruct e; try (cbn; discriminate).
    destruct (on_response_error msg w1) as [[[]|e] w2];
      [|cbn; discriminate].
    apply IH. lia.
Qed.

(** X18.  Once a ping of the handshake has succeeded, no later failure
    takes that back: started with [ping_clean] set, the cleaning loop can
    only end with it set, however many attempts are left and whatever the
    transport does. *)
Theorem clean_stays_clean :
  forall (retries : Z) (w w' : World) (b : bool),
    clean_loop retries true w = (Return b, w') -> b = true.
Proof.
  intros retries w w' b E.
  apply (clean_loop_sticky (Z.to_nat retries) retries w b (Nat.le_refl _)).
  rewrite E. reflexivity.
Qed.

Lemma clean_stays_clean_witness :
  clean_loop 2 true (bench always_corrupt)
  = (Return true, snd (clean_loop 2 true (bench always_corrupt)))
  /\ true = true.
Proof.
  split; [vm_compute; reflexivity|].
  apply (clean_stays_clean 2 (bench always_corrupt)
           (snd (clean_loop 2 true (bench always_corrupt))) true).
  vm_compute; reflexivity.
Defined.

(** X19.  On a channel that is clean from the start (the first two ping
    replies are well-formed) the handshake after a successful connect costs
    exactly two pings and no drain, and ends with 'Receive channel clean'
    as its last log record. *)
Theorem clean_channel_takes_two_pings :
  forall (addr : string) (w : World) (k : nat) (later : list attempt)
         (m1 s1 m2 s2 : byte) (more : list (list bytes)),
    dial w = repeat Refused k ++ Accepted :: later ->
    (k < 10)%nat ->
    peer w = mkSocket [] ([ping_reply m1 s1] :: [ping_reply m2 s2] :: more) ->
    fst (init_sphero addr w) = Return (self (snd (init_sphero addr w)))
    /\ wire (snd (init_sphero addr w))
       = wire w ++ [EvSend (ping_frame x01 xfc); EvSend (ping_frame x02 xfb)]
    /\ last (logged (snd (init_sphero addr w))) (DEBUG, "")
       = (DEBUG, "Receive channel clean").
Proof.
  intros addr w k later m1 s1 m2 s2 more Hd Hk Hp.
  assert (E : exists wf : World,
             init_sphero addr w = (Return (self wf), wf)
             /\ wire wf
                = wire w ++ [EvSend (ping_frame x01 xfc);
                             EvSend (ping_frame x02 xfb)]
             /\ last (logged wf) (DEBUG, "")
                = (DEBUG, "Receive channel clean"));
    [|destruct E as (wf & E & Hw & Hl); rewrite E; cbn [fst snd]; auto].
  rewrite (init_sphero_connected addr w _
             (SpheroRaw_connect_after_failures k
                (set_self (fun _ => Sphero_init addr) w) later Hd Hk)).
  cbn [peer set_self self dial wire logged].
  rewrite clean_loop_step. change (5 >? 0) with true.
  match goal with |- context [SpheroRaw_send_ping ?w0] =>
    destruct (ping_step w0 (peer w) m1 s1
                (checksum_byte [Z_of_byte m1; Z_of_byte s1; 0x01])
                ([ping_reply m2 s2] :: more))
      as (bv1 & bc1 & Ev1 & Ec1 & E1);
      [reflexivity | rewrite Hp; reflexivity | rewrite Hp; reflexivity
      | reflexivity | reflexivity |]
  end.
  vm_compute in Ev1, Ec1. inversion Ev1; inversion Ec1; subst bv1 bc1.
  cbv zeta in E1. rewrite E1. clear E1 Ev1 Ec1.
  rewrite Z_of_checksum_byte, Z.eqb_refl. cbv iota beta.
  change (if 5 - 1 >? 1 then 1 else 5 - 1) with 1.
  rewrite clean_loop_step. change (1 >? 0) with true.
  match goal with |- context [SpheroRaw_send_ping ?w0] =>
    destruct (ping_step w0
                (mkSocket [] ([ping_reply m2 s2] :: more))
                m2 s2 (checksum_byte [Z_of_byte m2; Z_of_byte s2; 0x01])
                more)
      as (bv2 & bc2 & Ev2 & Ec2 & E2);
      [reflexivity | reflexivity | reflexivity | reflexivity | reflexivity |]
  end.
  vm_compute in Ev2, Ec2. inversion Ev2; inversion Ec2; subst bv2 bc2.
  cbv zeta in E2. rewrite E2. clear E2 Ev2 Ec2.
  rewrite Z_of_checksum_byte, Z.eqb_refl. cbv iota beta.
  change (if 1 - 1 >? 1 then 1 else 1 - 1) with 0.
  rewrite clean_loop_step. change (0 >? 0) with false.
  cbv iota beta zeta. cbn [negb].
  eexists. split; [reflexivity|]. split.
  - cbn. rewrite <- !app_assoc. reflexivity.
  - cbn. rewrite !app_assoc. apply last_last.
Qed.

Lemma clean_channel_takes_two_pings_witness :
  dial (reachable well_behaved) = repeat Refused 0 ++ Accepted :: []
  /\ (0 < 10)%nat
  /\ peer (reachable well_behaved)
     = mkSocket [] ([ping_reply x00 x01] :: [ping_reply x00 x02] :: [])
  /\ fst (init_sphero "68:86:E7:00:00:01" (reachable well_behaved))
     = Return (self (snd (init_sphero "68:86:E7:00:00:01"
                            (reachable well_behaved))))
  /\ wire (snd (init_sphero "68:86:E7:00:00:01" (reachable well_behaved)))
     = wire (reachable well_behaved)
       ++ [EvSend (ping_frame x01 xfc); EvSend (ping_frame x02 xfb)]
  /\ last (logged (snd (init_sphero "68:86:E7:00:00:01"
                          (reachable well_behaved)))) (DEBUG, "")
     = (DEBUG, "Receive channel clean").
Proof.
  split; [reflexivity|]. split; [lia|]. split; [reflexivity|].
  apply (clean_channel_takes_two_pings "68:86:E7:00:00:01"
           (reachable well_behaved) 0 [] x00 x01 x00 x02 []).
  - reflexivity.
  - lia.
  - reflexivity.
Defined.

Lemma sends_snoc_send l f : sends (l ++ [EvSend f]) = S (sends l).
Proof.
  unfold sends. rewrite filter_app, length_app. cbn. lia.
Qed.

Lemma sends_snoc_drain l d : sends (l ++ [EvDrain d]) = sends l.
Proof.
  unfold sends. rewrite filter_app, length_app. cbn. lia.
Qed.

Lemma drains_snoc_send l f : drains (l ++ [EvSend f]) = drains l.
Proof.
  unfold drains. rewrite filter_app, length_app. cbn. lia.
Qed.

Lemma drains_snoc_drain l d : drains (l ++ [EvDrain d]) = S (drains l).
Proof.
  unfold drains. rewrite filter_app, length_app. cbn. lia.
Qed.

Lemma Connection_read_wire size w sk :
  the_socket w = Some sk ->
  wire (snd (Connection_read size w)) = wire w.
Proof.
  intros Hs.
  destruct (read_loop_stream (size - len (the_buffer w)) w sk Hs)
    as (sk' & _ & _ & _ & R4 & _).
  unfold Connection_read, bind, gets, modify, ret.
  destruct (read_loop (size - len (the_buffer w)) w) as [[[]|e] w1];
    cbn [fst snd] in *; exact R4.
Qed.

Lemma recv_msg_wire {A} (make : option (bytes -> option A)) w sk :
  the_socket w = Some sk ->
  wire (snd (SpheroRaw_recv_msg make w)) = wire w.
Proof.
  intros Hs.
  pose proof (Connection_read_wire 5 w sk Hs) as W1.
  destruct (Connection_read_socket 5 w sk Hs) as (sk1 & S1).
  destruct (Connection_read 5 w) as [[data|e] w1] eqn:E; cbn [snd] in *.
  - pose proof (Connection_read_length _ _ _ _ E ltac:(lia)) as L.
    destruct data as [|c1 [|c2 [|c3 [|c4 [|c5 [|c6 data]]]]]];
      cbn in L; try lia.
    rewrite (recv_msg_header make _ _ _ _ _ _ _ E).
    unfold after_header.
    destruct (negb _ || negb _); [exact W1|].
    destruct (Z.ltb_spec (body_length c2 c4 c5) 1) as [Hlt|Hge]; [exact W1|].
    unfold bind.
    pose proof (Connection_read_wire (body_length c2 c4 c5) w1 sk1 S1) as W2.
    destruct (Connection_read (body_length c2 c4 c5) w1) as [[body|e] w2]
      eqn:E2; cbn [snd] in *; [|congruence].
    pose proof (Connection_read_length _ _ _ _ E2 ltac:(lia)) as L2.
    destruct body as [|b body']; [cbn in L2; lia|].
    unfold check_body. cbv zeta.
    destruct (_ =? _).
    + unfold bind, ret, raise. destruct make as [f|].
      * destruct (f _); cbn; congruence.
      * cbn. congruence.
    + cbn. congruence.
  - unfold SpheroRaw_recv_msg, bind. rewrite E. cbn. exact W1.
Qed.

Lemma send_ping_wire w :
  live w ->
  exists frame : bytes,
    wire (snd (SpheroRaw_send_ping w)) = wire w ++ [EvSend frame].
Proof.
  intros [Ls Lm].
  destruct (the_socket w) as [sk|] eqn:Hs; [|congruence].
  destruct (ping_request w sk Hs Lm) as (bv & bc & _ & _ & E).
  exists [xff; xff; x00; x01; bv; x01; bc].
  unfold SpheroRaw_send_ping, bind. rewrite E.
  match goal with |- context [SpheroRaw_recv_msg None ?w0] =>
    pose proof (recv_msg_wire (A:=Empty_set) None w0 _ eq_refl) as W;
    destruct (SpheroRaw_recv_msg None w0) as [[r|e] w2]
  end; cbn [snd] in *; rewrite W; reflexivity.
Qed.

Lemma on_response_error_wire msg w :
  live w ->
  exists data : bytes,
    wire (snd (on_response_error msg w)) = wire w ++ [EvDrain data].
Proof.
  intros [Ls Lm]. unfold on_response_error, bind, log, modify.
  unfold Connection_flush, try_except, bind, gets.
  destruct (the_socket w) as [sk|] eqn:Hs; [|congruence].
  change (the_socket
            (mkWorld (self w) (dial w) (peer w) (wire w)
                     (logged w ++ [(ERROR, msg)]))) with (the_socket w).
  rewrite Hs. destruct (socket_recv 1024 sk) as [data sk'].
  exists data. reflexivity.
Qed.

Lemma connect_within_steps w :
  modulus (seq (self w)) = 0x0100 ->
  wire (snd (SpheroRaw_connect w)) = wire w
  /\ (fst (SpheroRaw_connect w) = Return true
      -> live (snd (SpheroRaw_connect w))).
Proof.
  intros Hm. split; [|apply SpheroRaw_connect_live; exact Hm].
  destruct (connect_loop_quiet (Z.to_nat connect_retries) false w)
    as (Q & _).
  unfold SpheroRaw_connect, Connection_connect, bind.
  destruct (connect_loop (Z.to_nat connect_retries) false w)
    as [[c|e] w1]; cbn [fst snd] in *; [|exact Q].
  destruct c; cbn; exact Q.
Qed.

Lemma clean_loop_budget (fuel : nat) :
  forall (retries : Z) (ping_clean : bool) (w : World),
    (Z.to_nat retries <= fuel)%nat ->
    live w ->
    (sends (wire (snd (clean_loop retries ping_clean w)))
     <= sends (wire w) + Z.to_nat retries)%nat
    /\ (drains (wire (snd (clean_loop retries ping_clean w)))
        <= drains (wire w) + Z.to_nat retries)%nat.
Proof.
  induction fuel as [|fuel IH]; intros retries pc w Hf L;
    rewrite clean_loop_step;
    destruct (Z.gtb_spec retries 0) as [Hpos|Hneg];
    try (cbn [snd]; lia).
  destruct (send_ping_live w L) as [L1 O].
  destruct (send_ping_wire w L) as [frame W].
  destruct (SpheroRaw_send_ping w) as [[r|e] w1]; cbn [fst snd] in *.
  - destruct (IH (if retries - 1 >? 1 then 1 else retries - 1) true w1)
      as [I1 I2]; [destruct (Z.gtb_spec (retries - 1) 1); lia | exact L1 |].
    rewrite W, sends_snoc_send, drains_snoc_send in *.
    destruct (Z.gtb_spec (retries - 1) 1); lia.
  - destruct O as [->|[msg ->]].
    + unfold no_error_attribute. cbv iota. cbn [snd].
      rewrite W, sends_snoc_send, drains_snoc_send. lia.
    + destruct (on_response_error_live msg w1 L1) as [E L2].
      destruct (on_response_error_wire msg w1 L1) as [data W2].
      destruct (on_response_error msg w1) as [[[]|e] w2]; cbn [fst snd] in *;
        [|discriminate E].
      destruct (IH (retries - 1) pc w2) as [I1 I2]; [lia | exact L2 |].
      rewrite W2, sends_snoc_drain, drains_snoc_drain, W, sends_snoc_send,
        drains_snoc_send in *.
      lia.
Qed.

(** X20.  Whatever the connection attempts and the transport do,
    [init_sphero] writes at most five pings and drains the socket at most
    five times. *)
Theorem handshake_stays_within_five :
  forall (addr : string) (w : World),
    (sends (wire (snd (init_sphero addr w))) <= sends (wire w) + 5)%nat
    /\ (drains (wire (snd (init_sphero addr w))) <= drains (wire w) + 5)%nat.
Proof.
  intros addr w.
  set (w0 := set_self (fun _ => Sphero_init addr) w).
  destruct (connect_within_steps w0 eq_refl) as (W1 & L1).
  destruct (SpheroRaw_connect w0) as [[c|e] w1] eqn:E; cbn [fst snd] in *;
    [destruct c|].
  - rewrite (init_sphero_connected addr w w1 E).
    destruct (clean_loop_budget 5 5 false w1 ltac:(cbn; lia) (L1 eq_refl))
      as [B1 B2].
    destruct (clean_loop 5 false w1) as [[pc|e] w2]; cbn [snd] in *.
    + rewrite W1 in B1, B2. change (wire w0) with (wire w) in B1, B2.
      change (Z.to_nat 5) with 5%nat in B1, B2.
      destruct pc; unfold log, modify; cbn [negb snd wire]; lia.
    + rewrite W1 in B1, B2. change (wire w0) with (wire w) in B1, B2.
      change (Z.to_nat 5) with 5%nat in B1, B2. lia.
  - unfold init_sphero, bind, modify. fold w0. rewrite E.
    cbn [negb raise snd]. rewrite W1. change (wire w0) with (wire w). lia.
  - unfold init_sphero, bind, modify. fold w0. rewrite E.
    cbn [snd]. rewrite W1. change (wire w0) with (wire w). lia.
Qed.

(** ** scripts/test.py *)

Lemma set_rgb_each_sent (cs : list (Z * Z * Z)) :
  forall (w : World) (sk : socket),
    the_socket w = Some sk ->
    Forall (fun c => let '(r, g, b) := c in
                     0 <= r <= 255 /\ 0 <= g <= 255 /\ 0 <= b <= 255) cs ->
    exists (w' : World) (sk' : socket) (frames : list bytes),
      set_rgb_each cs w = (Return tt, w')
      /\ the_socket w' = Some sk'
      /\ wire w' = wire w ++ map EvSend frames
      /\ map (map Z_of_byte) frames = map colour_frame cs.
Proof.
  induction cs as [|[[r g] b] cs IH]; intros w sk Hs Hc.
  - exists w, sk, []. cbn. rewrite app_nil_r. repeat split; auto.
  - inversion Hc as [|? ? Hrgb Hcs]; subst.
    destruct (set_rgb_sent w sk r g b false Hs Hrgb)
      as (br & bg & bb & k & Zr & Zg & Zb & Zk & R).
    cbn [set_rgb_each]. unfold bind at 1. rewrite R.
    match goal with |- context [set_rgb_each cs ?w0] =>
      destruct (IH w0 _ eq_refl Hcs) as (w' & sk' & fs & E & S' & N & F)
    end.
    exists w', sk',
      ([xff; xfe; x02; x20; x00; x05; br; bg; bb; x00; k] :: fs).
    rewrite E. split; [reflexivity|]. split; [exact S'|]. split.
    + rewrite N. cbn [wire emit set_socket set_conn set_self map].
      rewrite <- app_assoc. reflexivity.
    + cbn [map]. rewrite F, Zr, Zg, Zb, Zk. reflexivity.
Qed.

Lemma rainbow_colors_in_range (count : nat) :
  Forall (fun c => let '(r, g, b) := c in
                   0 <= r <= 255 /\ 0 <= g <= 255 /\ 0 <= b <= 255)
         (List.concat (repeat rainbow_colors count)).
Proof.
  induction count as [|count IH]; cbn [repeat List.concat].
  - constructor.
  - apply Forall_app. split; [|exact IH].
    unfold rainbow_colors. repeat constructor; lia.
Qed.

(** X21.  On a connected session [rainbow(repeat=n)] of the demonstration
    script never fails and writes exactly one colour frame
    FF FE 02 20 00 05 r g b 00 chk for each of the seven colours of every
    round, in order and none at all for [n <= 0], followed by the frame
    FF FE 02 20 00 05 00 00 00 00 D8 that switches the LED off. *)
Theorem rainbow_frames :
  forall (w : World) (sk : socket) (count : Z),
    the_socket w = Some sk ->
    fst (SpheroPlus_rainbow count w) = Return tt
    /\ exists frames : list bytes,
         wire (snd (SpheroPlus_rainbow count w))
         = wire w ++ map EvSend frames
             ++ [EvSend [xff; xfe; x02; x20; x00; x05; x00; x00; x00; x00;
                         xd8]]
         /\ map (map Z_of_byte) frames
            = List.concat
                (repeat (map colour_frame rainbow_colors) (Z.to_nat count)).
Proof.
  intros w sk count Hs.
  destruct (set_rgb_each_sent (list_times rainbow_colors count) w sk Hs
              (rainbow_colors_in_range (Z.to_nat count)))
    as (w' & sk' & frames & E & S' & N & F).
  unfold SpheroPlus_rainbow. unfold bind at 1 2. rewrite E. cbv beta iota.
  clear E. open_world w' S'. cbn [wire] in N. subst.
  split; [reflexivity|]. exists frames. split.
  - cbn. rewrite <- app_assoc. reflexivity.
  - rewrite F. unfold list_times. rewrite concat_map, map_repeat.
    reflexivity.
Qed.

Lemma rainbow_frames_witness :
  the_socket (bench idle_socket) = Some idle_socket
  /\ fst (SpheroPlus_rainbow 3 (bench idle_socket)) = Return tt
  /\ exists frames : list bytes,
       wire (snd (SpheroPlus_rainbow 3 (bench idle_socket)))
       = wire (bench idle_socket) ++ map EvSend frames
           ++ [EvSend [xff; xfe; x02; x20; x00; x05; x00; x00; x00; x00;
                       xd8]]
       /\ map (map Z_of_byte) frames
          = List.concat
              (repeat (map colour_frame rainbow_colors) (Z.to_nat 3)).
Proof.
  split; [reflexivity|].
  apply (rainbow_frames (bench idle_socket) idle_socket 3). reflexivity.
Defined.

Lemma roll_sent w sk speed heading state :
  the_socket w = Some sk ->
  0 <= speed <= 255 ->
  0 <= state <= 255 ->
  exists bs hi lo bst k : byte,
    Z_of_byte bs = speed /\ Z_of_byte bst = state
    /\ 256 * Z_of_byte hi + Z_of_byte lo = heading mod 360
    /\ Sphero_roll speed (PyInt heading) state w
       = (Return tt,
          emit (EvSend (roll_frame bs hi lo bst k))
            (set_socket
               (Some (snd (socket_send (roll_frame bs hi lo bst k) sk)))
               (set_last_heading (PyInt heading) w))).
Proof.
  intros Hs Hsp Hst.
  destruct (byte_of_Z_in speed Hsp) as (bs & Es & Zs).
  destruct (byte_of_Z_in state Hst) as (bst & Est & Zst).
  pose proof (Z.mod_pos_bound heading 360 ltac:(lia)) as Hh.
  destruct (@pack_H_ok World (heading mod 360) ltac:(lia))
    as (hi & lo & Ep & Zp).
  destruct (command_sent DID_SPHERO CMD_ROLL ([bs] ++ [hi; lo] ++ [bst])
              (set_last_heading (PyInt heading) w) sk)
    as (d & c & l & k & Zd & Zc & Zl & _ & E);
    [exact Hs | unfold DID_SPHERO; lia | unfold CMD_ROLL; lia | cbn; lia |].
  assert (d = x02) as -> by (apply Z_of_byte_inj; rewrite Zd; reflexivity).
  assert (c = x30) as -> by (apply Z_of_byte_inj; rewrite Zc; reflexivity).
  assert (l = x05) as -> by (apply Z_of_byte_inj; rewrite Zl; reflexivity).
  exists bs, hi, lo, bst, k. split; [exact Zs|]. split; [exact Zst|].
  split; [exact Zp|].
  unfold Sphero_roll, SpheroRaw_send_roll, py_mod, pack_B.
  unfold bind, modify, ret. rewrite Es. cbv beta iota.
  rewrite Ep. unfold ret. cbv beta iota. rewrite Est. cbv beta iota.
  cbn [app] in E |- *. rewrite E. reflexivity.
Qed.

Lemma raw_motor_sent w sk (left_power right_power : Z) :
  the_socket w = Some sk ->
  0 <= left_power <= 255 ->
  0 <= right_power <= 255 ->
  exists bl br k : byte,
    Z_of_byte bl = left_power /\ Z_of_byte br = right_power
    /\ SpheroRaw_send_raw_motor 1 left_power 1 right_power w
       = (Return tt,
          emit (EvSend [xff; xfe; x02; x33; x00; x05; x01; bl; x01; br; k])
            (set_socket
               (Some (snd (socket_send
                             [xff; xfe; x02; x33; x00; x05; x01; bl; x01;
                              br; k] sk)))
               w)).
Proof.
  intros Hs Hl Hr.
  destruct (byte_of_Z_in left_power Hl) as (bl & El & Zl).
  destruct (byte_of_Z_in right_power Hr) as (br & Er & Zr).
  destruct (command_sent DID_SPHERO CMD_RAW_MOTOR [x01; bl; x01; br] w sk)
    as (d & c & l & k & Zd & Zc & Zn & _ & S);
    [exact Hs | unfold DID_SPHERO; lia | unfold CMD_RAW_MOTOR; lia
    | cbn; lia |].
  assert (d = x02) as -> by (apply Z_of_byte_inj; rewrite Zd; reflexivity).
  assert (c = x33) as -> by (apply Z_of_byte_inj; rewrite Zc; reflexivity).
  assert (l = x05) as -> by (apply Z_of_byte_inj; rewrite Zn; reflexivity).
  exists bl, br, k. split; [exact Zl|]. split; [exact Zr|].
  unfold SpheroRaw_send_raw_motor, mk_bytes. cbn [bytes_of_ints].
  change (byte_of_Z 1) with (Some x01). rewrite El, Er.
  unfold bind at 1. cbn [ret]. cbn [app] in S. exact S.
Qed.

Lemma raw_motor_refused w (left_power right_power : Z) :
  ~ (0 <= left_power <= 255 /\ 0 <= right_power <= 255) ->
  SpheroRaw_send_raw_motor 1 left_power 1 right_power w
  = (Raise out_of_range, w).
Proof.
  intros N. unfold SpheroRaw_send_raw_motor, mk_bytes.
  rewrite bytes_of_ints_none; [reflexivity|].
  intros F. apply N.
  inversion F as [|? ? _ F1]; subst. inversion F1 as [|? ? Hl F2]; subst.
  inversion F2 as [|? ? _ F3]; subst. inversion F3 as [|? ? Hr _]; subst.
  split; assumption.
Qed.

Lemma settle_sent w sk :
  the_socket w = Some sk ->
  fst ((SpheroRaw_send_set_stabilization true ;;; Sphero_stop) w) = Return tt
  /\ wire (snd ((SpheroRaw_send_set_stabilization true ;;; Sphero_stop) w))
     = wire w ++ [EvSend [xff; xfe; x02; x02; x00; x02; x01; xf8];
                  EvSend (roll_frame x00 x00 x00 x00 xc8)]
  /\ last_heading
       (self (snd ((SpheroRaw_send_set_stabilization true ;;; Sphero_stop) w)))
     = PyInt 0.
Proof.
  intros Hs. open_world w Hs. split; [reflexivity|]. split.
  - cbn. rewrite <- app_assoc. reflexivity.
  - reflexivity.
Qed.

(** X22.  On a connected session [jump(speed, left, right)] with the
    three numbers in 0..255 never fails and writes four frames and nothing
    else: a roll at [speed] with heading 0 and state 1, the raw motor
    command 01 left 01 right, the frame that switches stabilisation back
    on, and the stop frame (a roll with speed, heading and state 0); it
    leaves [last_heading] at 0. *)
Theorem jump_frames :
  forall (w : World) (sk : socket) (speed left_power right_power : Z),
    the_socket w = Some sk ->
    0 <= speed <= 255 ->
    0 <= left_power <= 255 ->
    0 <= right_power <= 255 ->
    exists bs bl br k1 k2 : byte,
      Z_of_byte bs = speed /\ Z_of_byte bl = left_power
      /\ Z_of_byte br = right_power
      /\ fst (SpheroPlus_jump speed left_power right_power w) = Return tt
      /\ wire (snd (SpheroPlus_jump speed left_power right_power w))
         = wire w
             ++ [EvSend (roll_frame bs x00 x00 x01 k1);
                 EvSend [xff; xfe; x02; x33; x00; x05; x01; bl; x01; br; k2];
                 EvSend [xff; xfe; x02; x02; x00; x02; x01; xf8];
                 EvSend (roll_frame x00 x00 x00 x00 xc8)]
      /\ last_heading
           (self (snd (SpheroPlus_jump speed left_power right_power w)))
         = PyInt 0.
Proof.
  intros w sk speed lp rp Hs Hsp Hl Hr.
  destruct (roll_sent w sk speed 0 1 Hs Hsp ltac:(lia))
    as (bs & hi & lo & bst & k1 & Zs & Zst & Zh & R1).
  assert (bst = x01) as -> by (apply Z_of_byte_inj; rewrite Zst; reflexivity).
  assert (hi = x00 /\ lo = x00) as [-> ->].
  { pose proof (Z_of_byte_range hi). pose proof (Z_of_byte_range lo).
    change (0 mod 360) with 0 in Zh.
    split; apply Z_of_byte_inj; change (Z_of_byte x00) with 0; lia. }
  match type of R1 with _ = (_, ?x) => set (w1 := x) in * end.
  destruct (raw_motor_sent w1 _ lp rp eq_refl Hl Hr)
    as (bl & br & k2 & Zl & Zr & R2).
  match type of R2 with _ = (_, ?x) => set (w2 := x) in * end.
  destruct (settle_sent w2 _ eq_refl) as (F3 & W3 & L3).
  exists bs, bl, br, k1, k2.
  split; [exact Zs|]. split; [exact Zl|]. split; [exact Zr|].
  assert (R : SpheroPlus_jump speed lp rp w
              = (SpheroRaw_send_set_stabilization true ;;; Sphero_stop) w2).
  { unfold SpheroPlus_jump. unfold bind at 1. rewrite R1.
    unfold bind at 1. rewrite R2. reflexivity. }
  rewrite R. split; [exact F3|]. split; [|exact L3].
  rewrite W3. subst w2 w1.
  cbn [wire emit set_socket set_conn set_self set_last_heading].
  rewrite <- !app_assoc. reflexivity.
Qed.

Lemma jump_frames_witness :
  the_socket (bench idle_socket) = Some idle_socket
  /\ 0 <= 70 <= 255
  /\ 0 <= 255 <= 255
  /\ 0 <= 253 <= 255
  /\ exists bs bl br k1 k2 : byte,
      Z_of_byte bs = 70 /\ Z_of_byte bl = 255 /\ Z_of_byte br = 253
      /\ fst (SpheroPlus_jump 70 255 253 (bench idle_socket)) = Return tt
      /\ wire (snd (SpheroPlus_jump 70 255 253 (bench idle_socket)))
         = wire (bench idle_socket)
             ++ [EvSend (roll_frame bs x00 x00 x01 k1);
                 EvSend [xff; xfe; x02; x33; x00; x05; x01; bl; x01; br; k2];
                 EvSend [xff; xfe; x02; x02; x00; x02; x01; xf8];
                 EvSend (roll_frame x00 x00 x00 x00 xc8)]
      /\ last_heading
           (self (snd (SpheroPlus_jump 70 255 253 (bench idle_socket))))
         = PyInt 0.
Proof.
  split; [reflexivity|]. split; [lia|]. split; [lia|]. split; [lia|].
  apply (jump_frames (bench idle_socket) idle_socket 70 255 253);
    [reflexivity | lia | lia | lia].
Defined.

(** X23.  If a motor power of [jump] is outside 0..255 while the speed is
    a byte, the call ends in ValueError after the roll frame has gone out:
    that frame is the only one written, so neither the stabilisation
    frame nor the stop frame follows it. *)
Theorem jump_bad_power_keeps_rolling :
  forall (w : World) (sk : socket) (speed left_power right_power : Z),
    the_socket w = Some sk ->
    0 <= speed <= 255 ->
    ~ (0 <= left_power <= 255 /\ 0 <= right_power <= 255) ->
    fst (SpheroPlus_jump speed left_power right_power w) = Raise out_of_range
    /\ exists bs k : byte,
         Z_of_byte bs = speed
         /\ wire (snd (SpheroPlus_jump speed left_power right_power w))
            = wire w ++ [EvSend (roll_frame bs x00 x00 x01 k)].
Proof.
  intros w sk speed lp rp Hs Hsp N.
  destruct (roll_sent w sk speed 0 1 Hs Hsp ltac:(lia))
    as (bs & hi & lo & bst & k1 & Zs & Zst & Zh & R1).
  assert (bst = x01) as -> by (apply Z_of_byte_inj; rewrite Zst; reflexivity).
  assert (hi = x00 /\ lo = x00) as [-> ->].
  { pose proof (Z_of_byte_range hi). pose proof (Z_of_byte_range lo).
    change (0 mod 360) with 0 in Zh.
    split; apply Z_of_byte_inj; change (Z_of_byte x00) with 0; lia. }
  match type of R1 with _ = (_, ?x) => set (w1 := x) in * end.
  assert (R : SpheroPlus_jump speed lp rp w = (Raise out_of_range, w1)).
  { unfold SpheroPlus_jump. unfold bind at 1. rewrite R1.
    unfold bind at 1. rewrite (raw_motor_refused _ lp rp N). reflexivity. }
  rewrite R. split; [reflexivity|]. exists bs, k1.
  split; [exact Zs|]. reflexivity.
Qed.

Lemma jump_bad_power_keeps_rolling_witness :
  the_socket (bench idle_socket) = Some idle_socket
  /\ 0 <= 70 <= 255
  /\ ~ (0 <= 256 <= 255 /\ 0 <= 253 <= 255)
  /\ fst (SpheroPlus_jump 70 256 253 (bench idle_socket)) = Raise out_of_range
  /\ exists bs k : byte,
       Z_of_byte bs = 70
       /\ wire (snd (SpheroPlus_jump 70 256 253 (bench idle_socket)))
          = wire (bench idle_socket) ++ [EvSend (roll_frame bs x00 x00 x01 k)].
Proof.
  split; [reflexivity|]. split; [lia|]. split; [lia|].
  apply (jump_bad_power_keeps_rolling (bench idle_socket) idle_socket
           70 256 253); [reflexivity | lia | lia].
Defined.

(** X24.  On a connected session [send_set_heading(heading)] accepts every
    integer: it writes the single frame FF FE 02 01 00 03 hi lo chk whose
    two data bytes, high byte first, are [heading] reduced modulo 360, and
    it does not touch [last_heading], which only [roll] records. *)
Theorem set_heading_reduces_heading :
  forall (w : World) (sk : socket) (heading : Z),
    the_socket w = Some sk ->
    exists hi lo k : byte,
      fst (SpheroRaw_send_set_heading (PyInt heading) w) = Return tt
      /\ wire (snd (SpheroRaw_send_set_heading (PyInt heading) w))
         = wire w ++ [EvSend [xff; xfe; x02; x01; x00; x03; hi; lo; k]]
      /\ 256 * Z_of_byte hi + Z_of_byte lo = heading mod 360
      /\ last_heading
           (self (snd (SpheroRaw_send_set_heading (PyInt heading) w)))
         = last_heading (self w).
Proof.
  intros w sk heading Hs.
  pose proof (Z.mod_pos_bound heading 360 ltac:(lia)) as Hh.
  destruct (@pack_H_ok World (heading mod 360) ltac:(lia))
    as (hi & lo & Ep & Zp).
  destruct (command_sent DID_SPHERO CMD_SET_HEADING [hi; lo] w sk)
    as (d & c & l & k & Zd & Zc & Zl & _ & E);
    [exact Hs | unfold DID_SPHERO; lia | unfold CMD_SET_HEADING; lia
    | cbn; lia |].
  assert (d = x02) as -> by (apply Z_of_byte_inj; rewrite Zd; reflexivity).
  assert (c = x01) as -> by (apply Z_of_byte_inj; rewrite Zc; reflexivity).
  assert (l = x03) as -> by (apply Z_of_byte_inj; rewrite Zl; reflexivity).
  exists hi, lo, k.
  assert (R : SpheroRaw_send_set_heading (PyInt heading) w
              = (Return tt,
                 emit (EvSend [xff; xfe; x02; x01; x00; x03; hi; lo; k])
                   (set_socket
                      (Some (snd (socket_send
                                    [xff; xfe; x02; x01; x00; x03; hi; lo; k]
                                    sk))) w))).
  { unfold SpheroRaw_send_set_heading, py_mod.
    unfold bind, ret. rewrite Ep. unfold ret. cbv beta iota.
    cbn [app] in E. exact E. }
  rewrite R. cbn. repeat split; auto.
Qed.

Lemma set_heading_reduces_heading_witness :
  the_socket (bench idle_socket) = Some idle_socket
  /\ exists hi lo k : byte,
       fst (SpheroRaw_send_set_heading (PyInt (-1)) (bench idle_socket))
       = Return tt
       /\ wire (snd (SpheroRaw_send_set_heading (PyInt (-1))
                       (bench idle_socket)))
          = wire (bench idle_socket)
              ++ [EvSend [xff; xfe; x02; x01; x00; x03; hi; lo; k]]
       /\ 256 * Z_of_byte hi + Z_of_byte lo = (-1) mod 360
       /\ last_heading
            (self (snd (SpheroRaw_send_set_heading (PyInt (-1))
                          (bench idle_socket))))
          = last_heading (self (bench idle_socket)).
Proof.
  split; [reflexivity|].
  apply (set_heading_reduces_heading (bench idle_socket) idle_socket (-1)).
  reflexivity.
Defined.
